(** * Map and weather services agent: shallow embedding and verification

    The development embeds the parts of the repository that the
    specification talks about:

    - [map_servers/routing_server.py]   (module [Routing])
    - [map_servers/poi_server.py]       (module [POI])
    - [map_servers/geocoding_server.py] (module [Geocoding])
    - [weather_agent.py]                (module [Agent])

    Modelling conventions.

    - Python [float] values are read as real numbers ([R]): [math.sin],
      [math.cos], [math.atan2] and the arithmetic are the real ones, and
      comparisons are decided classically ([Rle_dec]), so functions on
      floats are reasoned about, not evaluated.  Infinities and NaN are
      not modelled.  Rounding is kept where it decides whether a
      function returns: the double the distance functions hold in [a]
      differs from the real number by a rounding error, which can put
      it outside [0, 1], where [math.sqrt] raises [ValueError].  That
      error is a parameter ([PyMath.Float64]).  One lemma of
      [RoutingFacts] bounds what rounding does to the sum of the step
      distances of a route.
    - Python [str] values are byte strings ([string]); the two brace
      characters scanned for by the agent are ASCII, so scanning the
      bytes of a UTF-8 encoded text finds the same braces and cuts out
      the same substrings.
    - A coroutine that may raise is a function into [outcome]; a method
      that touches [self.session] threads the server record explicitly
      (monad [M]).
    - Calls that leave the process (the completion endpoint of the
      language model, the weather tools) are oracles passed as arguments,
      and every call is recorded in a trace. *)

From Stdlib Require Import Reals Lra Lia ZArith QArith List String Ascii Bool.
From Stdlib Require Import DecimalString.
From Stdlib Require Import Permutation Sorted.
Import ListNotations.

Set Implicit Arguments.

(* ================================================================== *)
(** * Part I: definitions                                              *)
(* ================================================================== *)

(** ** Python runtime: exceptions, outcomes, slices *)

Module Py.

(** Exception classes.  Only subclasses of [Exception] are modelled, so
    [isinstance(e, Exception)] holds of every raised value below; the
    handlers of the repository tell [JSONDecodeError] from the rest. *)
Inductive exn_class : Type :=
| ValueError
| TypeError
| AttributeError
| JSONDecodeError
| OtherException.

(** An exception object; [T] is the type of its message ([str(e)]). *)
Record exn (T : Type) : Type := Exn { exn_cls : exn_class; exn_msg : T }.

Definition is_JSONDecodeError {T : Type} (e : exn T) : bool :=
  match exn_cls e with
  | JSONDecodeError => true
  | _ => false
  end.

Inductive outcome (T A : Type) : Type :=
| Returned (a : A)
| Raised (e : exn T).
Arguments Returned {T A} a.
Arguments Raised {T A} e.

(** State and exception monad for the methods of a server object. *)
Definition M (S T A : Type) : Type := S -> outcome T A * S.

Definition ret {S T A : Type} (a : A) : M S T A := fun s => (Returned a, s).

Definition raise {S T A : Type} (e : exn T) : M S T A :=
  fun s => (Raised e, s).

Definition bind {S T A B : Type} (m : M S T A) (k : A -> M S T B)
  : M S T B :=
  fun s =>
    match m s with
    | (Returned a, s') => k a s'
    | (Raised e, s') => (Raised e, s')
    end.

(** A computation that does not touch the state. *)
Definition lift {S T A : Type} (o : outcome T A) : M S T A := fun s => (o, s).

(** [l[:n]] for a Python [int] [n]: a negative bound counts from the
    end of the list. *)
Definition slice_to {A : Type} (n : Z) (l : list A) : list A :=
  if (0 <=? n)%Z then firstn (Z.to_nat n) l
  else firstn (List.length l - Z.to_nat (- n)) l.

(** Comparison of floats, as booleans. *)
Definition fle (x y : R) : bool := if Rle_dec x y then true else false.
Definition flt (x y : R) : bool := if Rlt_dec x y then true else false.
Definition feq (x y : R) : bool := if Req_dec_T x y then true else false.

(** Pieces of an f-string: literal text and formatted floats. *)
Inductive fpart : Type :=
| Lit (s : string)
| Flt (x : R).

Definition fstring : Type := list fpart.

End Py.

Notation "x <- m ;; k" := (Py.bind m (fun x => k))
  (at level 61, m at next level, right associativity).

(** ** [math] and the Haversine formula *)

Module PyMath.

Import Py.
Open Scope R_scope.

(** [math.radians]. *)
Definition radians (x : R) : R := x * (PI / 180).

(** [math.atan2 y x], by quadrant. *)
Definition atan2 (y x : R) : R :=
  if Rlt_dec 0 x then atan (y / x)
  else if Rlt_dec x 0 then
    (if Rle_dec 0 y then atan (y / x) + PI else atan (y / x) - PI)
  else if Rlt_dec 0 y then PI / 2
  else if Rlt_dec y 0 then - (PI / 2)
  else 0.

(** [math.sqrt]: a negative argument is a [ValueError]. *)
Definition domain_error : exn fstring :=
  Exn ValueError [Lit "math domain error"].

Definition math_sqrt (x : R) : outcome fstring R :=
  if flt x 0 then Raised domain_error else Returned (sqrt x).

(** Binary64 arithmetic, as far as the distance functions depend on it.
    [a_error lat1 lon1 lat2 lon2] is the rounding error of the double
    that [_calculate_haversine_distance] and [_calculate_distance] hold
    in their variable [a] for these arguments: the double minus the
    real number the expression stands for.  Three facts of IEEE
    arithmetic are kept with it.  Between a point and itself the double
    is exactly zero ([x - x] is [0.0], and so are its sine and every
    product with it).  Exchanging the two points gives the same double
    (the differences change sign only, the sine is odd, the product of
    the cosines commutes).  For coordinates of the globe the error is
    far below 10^-12 (a handful of operations on numbers of magnitude
    at most 4, each correct to a relative error of about 10^-16). *)
Record Float64 : Type := {
  a_error : R -> R -> R -> R -> R;
  a_error_same_point :
    forall lat lon, a_error lat lon lat lon = 0;
  a_error_symmetric :
    forall lat1 lon1 lat2 lon2,
      a_error lat1 lon1 lat2 lon2 = a_error lat2 lon2 lat1 lon1;
  a_error_on_globe :
    forall lat1 lon1 lat2 lon2,
      -90 <= lat1 <= 90 -> -180 <= lon1 <= 180 ->
      -90 <= lat2 <= 90 -> -180 <= lon2 <= 180 ->
      Rabs (a_error lat1 lon1 lat2 lon2) <= 0.000000000001
}.

(** Arithmetic without rounding error, for runs on concrete inputs. *)
Definition exact : Float64.
Proof.
  refine {| a_error := fun _ _ _ _ => 0 |}.
  - reflexivity.
  - reflexivity.
  - intros. rewrite Rabs_R0. lra.
Defined.

(** A platform for test runs that rounds [a] up by about one unit in the
    last place between antipodal points (opposite latitudes, longitudes
    180 degrees apart), where the real number is 1. *)
Definition rounds_up_at_antipodes : Float64.
Proof.
  refine {| a_error := fun lat1 lon1 lat2 lon2 =>
              if Req_dec_T (lat1 + lat2) 0 then
                if Req_dec_T (Rabs (lon1 - lon2)) 180
                then 0.0000000000000002 else 0
              else 0 |}.
  - intros lat lon. destruct (Req_dec_T (lat + lat) 0); [| reflexivity].
    destruct (Req_dec_T (Rabs (lon - lon)) 180) as [E |]; [| reflexivity].
    exfalso. replace (lon - lon) with 0 in E by lra.
    rewrite Rabs_R0 in E. lra.
  - intros lat1 lon1 lat2 lon2.
    rewrite (Rplus_comm lat2 lat1), (Rabs_minus_sym lon2 lon1). reflexivity.
  - intros lat1 lon1 lat2 lon2 _ _ _ _.
    destruct (Req_dec_T (lat1 + lat2) 0);
      [destruct (Req_dec_T (Rabs (lon1 - lon2)) 180) |];
      try (rewrite Rabs_R0; lra).
    rewrite Rabs_pos_eq; lra.
Defined.

End PyMath.

(** ** [map_servers/routing_server.py] *)

Module Routing.

Import Py PyMath.
Open Scope R_scope.

Module RouteStep.
Record t : Type := Build {
  instruction : string;
  distance_meters : R;
  duration_seconds : R;
  start_location : R * R;
  end_location : R * R;
  maneuver : option string
}.
End RouteStep.

Module RouteResult.
Record t : Type := Build {
  origin : fstring;
  destination : fstring;
  distance_meters : R;
  duration_seconds : R;
  steps : list RouteStep.t;
  mode : string;
  polyline : option fstring;
  warnings : list string
}.
End RouteResult.

(** The server object; [session] is [None] until [_get_session]
    creates the HTTP client. *)
Record RoutingServer : Type := {
  api_key : string;
  base_url : string;
  session : option unit
}.

Definition _get_session : M RoutingServer fstring unit :=
  fun self =>
    match session self with
    | None =>
        (Returned tt,
         {| api_key := api_key self;
            base_url := base_url self;
            session := Some tt |})
    | Some c => (Returned c, self)
    end.

(** [a] is the double the code holds: the real number of the expression
    and the rounding error of its computation; [math.sqrt] raises on a
    negative argument. *)
Definition _calculate_haversine_distance (F : Float64) (lat1 lon1 lat2 lon2 : R)
  : outcome fstring R :=
  let R_earth := 6371000 in
  let phi1 := radians lat1 in
  let phi2 := radians lat2 in
  let delta_phi := radians (lat2 - lat1) in
  let delta_lambda := radians (lon2 - lon1) in
  let a := sin (delta_phi / 2) ^ 2
           + cos phi1 * cos phi2 * sin (delta_lambda / 2) ^ 2
           + a_error F lat1 lon1 lat2 lon2 in
  match math_sqrt a with
  | Raised e => Raised e
  | Returned root_a =>
      match math_sqrt (1 - a) with
      | Raised e => Raised e
      | Returned root_1_a =>
          let c := 2 * atan2 root_a root_1_a in
          Returned (R_earth * c)
      end
  end.

(** The double in the variable [a] of [_calculate_haversine_distance]
    and of [_calculate_distance] of the POI server. *)
Definition computed_a (F : Float64) (lat1 lon1 lat2 lon2 : R) : R :=
  sin (radians (lat2 - lat1) / 2) ^ 2
  + cos (radians lat1) * cos (radians lat2) * sin (radians (lon2 - lon1) / 2) ^ 2
  + a_error F lat1 lon1 lat2 lon2.

(** [speed_kmh.get(mode, 50)]. *)
Definition speed_kmh (mode : string) : R :=
  if String.eqb mode "driving" then 50
  else if String.eqb mode "walking" then 5
  else if String.eqb mode "cycling" then 15
  else if String.eqb mode "transit" then 30
  else 50.

Definition calculate_route (F : Float64)
    (origin_lat origin_lon dest_lat dest_lon : R) (mode : string)
  : M RoutingServer fstring RouteResult.t :=
  _ <- _get_session ;;
  distance <-
    lift (_calculate_haversine_distance F origin_lat origin_lon
            dest_lat dest_lon) ;;
  let duration := (distance / 1000) / speed_kmh mode * 3600 in
  let steps :=
    [ RouteStep.Build "Head north on Main Street"
        (distance * 0.3) (duration * 0.3)
        (origin_lat, origin_lon)
        (origin_lat + (dest_lat - origin_lat) * 0.3,
         origin_lon + (dest_lon - origin_lon) * 0.3)
        (Some "depart"%string);
      RouteStep.Build "Turn right onto Broadway"
        (distance * 0.5) (duration * 0.5)
        (origin_lat + (dest_lat - origin_lat) * 0.3,
         origin_lon + (dest_lon - origin_lon) * 0.3)
        (origin_lat + (dest_lat - origin_lat) * 0.8,
         origin_lon + (dest_lon - origin_lon) * 0.8)
        (Some "turn-right"%string);
      RouteStep.Build "Arrive at destination"
        (distance * 0.2) (duration * 0.2)
        (origin_lat + (dest_lat - origin_lat) * 0.8,
         origin_lon + (dest_lon - origin_lon) * 0.8)
        (dest_lat, dest_lon)
        (Some "arrive"%string) ] in
  ret (RouteResult.Build
         [Flt origin_lat; Lit ", "; Flt origin_lon]
         [Flt dest_lat; Lit ", "; Flt dest_lon]
         distance duration steps mode
         (Some [Lit "mock_polyline_"; Flt origin_lat; Lit "_"; Flt dest_lat])
         ["This is a simulated route. Replace with actual API for production."%string]).

(** Sum of the step distances of a route, left to right. *)
Definition steps_distance (r : RouteResult.t) : R :=
  fold_left Rplus (map RouteStep.distance_meters (RouteResult.steps r)) 0.

(** The same sum for a route of total length [distance] when the
    arithmetic is not exact: [rnd] is applied to the decimal literals
    and to the result of every multiplication and addition. *)
Definition rounded_steps_distance (rnd : R -> R) (distance : R) : R :=
  let step1 := rnd (distance * rnd 0.3) in
  let step2 := rnd (distance * rnd 0.5) in
  let step3 := rnd (distance * rnd 0.2) in
  rnd (rnd (rnd (0 + step1) + step2) + step3).

End Routing.

(** ** [map_servers/poi_server.py] *)

Module POI.

Import Py PyMath.
Open Scope R_scope.

Record POIResult : Type := {
  name : string;
  category : string;
  latitude : R;
  longitude : R;
  address : option string;
  rating : option R;
  price_level : option Z;
  phone : option string;
  website : option string;
  opening_hours : option (list string);
  distance_meters : option R;
  description : option string
}.

Record POIServer : Type := {
  api_key : string;
  base_url : string;
  session : option unit;
  _mock_pois : list POIResult
}.

(** The records of the mock database, in the order of
    [_initialize_mock_pois]. *)
Definition central_park : POIResult :=
  {| name := "Central Park"; category := "park";
   latitude := 40.7829; longitude := -73.9654;
   address := Some "New York, NY 10024"%string;
   rating := Some 4.8; price_level := None; phone := None;
   website := None; opening_hours := None; distance_meters := None;
   description :=
     Some "Iconic urban park with lakes, theaters, playgrounds, and more"%string |}.

Definition empire_state_building : POIResult :=
  {| name := "Empire State Building"; category := "landmark";
   latitude := 40.7484; longitude := -73.9857;
   address := Some "350 5th Ave, New York, NY 10118"%string;
   rating := Some 4.7; price_level := Some 3%Z; phone := None;
   website := Some "https://www.esbnyc.com"%string;
   opening_hours := None; distance_meters := None;
   description :=
     Some "Iconic Art Deco skyscraper with observation decks"%string |}.

Definition joes_pizza : POIResult :=
  {| name := "Joe's Pizza"; category := "restaurant";
   latitude := 40.7308; longitude := -74.0023;
   address := Some "7 Carmine St, New York, NY 10014"%string;
   rating := Some 4.5; price_level := Some 1%Z;
   phone := Some "+1 212-366-1182"%string; website := None;
   opening_hours := Some ["Mon-Sun: 10:00 AM - 4:00 AM"%string];
   distance_meters := None;
   description := Some "Classic New York-style pizza joint"%string |}.

Definition metropolitan_museum : POIResult :=
  {| name := "The Metropolitan Museum of Art"; category := "museum";
   latitude := 40.7794; longitude := -73.9632;
   address := Some "1000 5th Ave, New York, NY 10028"%string;
   rating := Some 4.8; price_level := Some 2%Z; phone := None;
   website := Some "https://www.metmuseum.org"%string;
   opening_hours :=
     Some ["Sun-Thu: 10:00 AM - 5:00 PM"%string;
           "Fri-Sat: 10:00 AM - 9:00 PM"%string];
   distance_meters := None;
   description :=
     Some "One of the world's largest and finest art museums"%string |}.

Definition starbucks_reserve : POIResult :=
  {| name := "Starbucks Reserve Roastery"; category := "cafe";
   latitude := 40.7411; longitude := -73.9897;
   address := Some "61 9th Ave, New York, NY 10011"%string;
   rating := Some 4.6; price_level := Some 3%Z; phone := None;
   website := None;
   opening_hours := Some ["Mon-Sun: 7:00 AM - 11:00 PM"%string];
   distance_meters := None;
   description := Some "Upscale coffee experience with rare roasts"%string |}.

Definition times_square : POIResult :=
  {| name := "Times Square"; category := "landmark";
   latitude := 40.7580; longitude := -73.9855;
   address := Some "Manhattan, NY 10036"%string;
   rating := Some 4.4; price_level := None; phone := None;
   website := None; opening_hours := None; distance_meters := None;
   description :=
     Some "Iconic intersection known for bright lights and Broadway theaters"%string |}.

Definition brooklyn_bridge_park : POIResult :=
  {| name := "Brooklyn Bridge Park"; category := "park";
   latitude := 40.7009; longitude := -73.9969;
   address := Some "Brooklyn, NY 11201"%string;
   rating := Some 4.7; price_level := None; phone := None;
   website := None; opening_hours := None; distance_meters := None;
   description :=
     Some "Waterfront park with stunning Manhattan skyline views"%string |}.

Definition grand_central : POIResult :=
  {| name := "Grand Central Terminal"; category := "transit_station";
   latitude := 40.7527; longitude := -73.9772;
   address := Some "89 E 42nd St, New York, NY 10017"%string;
   rating := Some 4.6; price_level := None; phone := None;
   website := None; opening_hours := None; distance_meters := None;
   description :=
     Some "Historic train station and architectural landmark"%string |}.

Definition _initialize_mock_pois : list POIResult :=
  [ central_park; empire_state_building; joes_pizza; metropolitan_museum;
    starbucks_reserve; times_square; brooklyn_bridge_park; grand_central ].

(** [POIServer()] with the environment's key and the default URL. *)
Definition __init__ (key : string) : POIServer :=
  {| api_key := key;
     base_url := "https://maps.googleapis.com/maps/api/place";
     session := None;
     _mock_pois := _initialize_mock_pois |}.

Definition _calculate_distance (F : Float64) (lat1 lon1 lat2 lon2 : R)
  : outcome fstring R :=
  let R_earth := 6371000 in
  let phi1 := radians lat1 in
  let phi2 := radians lat2 in
  let delta_phi := radians (lat2 - lat1) in
  let delta_lambda := radians (lon2 - lon1) in
  let a := sin (delta_phi / 2) ^ 2
           + cos phi1 * cos phi2 * sin (delta_lambda / 2) ^ 2
           + a_error F lat1 lon1 lat2 lon2 in
  match math_sqrt a with
  | Raised e => Raised e
  | Returned root_a =>
      match math_sqrt (1 - a) with
      | Raised e => Raised e
      | Returned root_1_a =>
          let c := 2 * atan2 root_a root_1_a in
          Returned (R_earth * c)
      end
  end.

(** [poi.model_copy()] followed by [poi_copy.distance_meters = distance]. *)
Definition with_distance (poi : POIResult) (distance : R) : POIResult :=
  {| name := name poi; category := category poi;
     latitude := latitude poi; longitude := longitude poi;
     address := address poi; rating := rating poi;
     price_level := price_level poi; phone := phone poi;
     website := website poi; opening_hours := opening_hours poi;
     distance_meters := Some distance;
     description := description poi |}.

(** Sort keys: a float or [float('inf')]. *)
Inductive key : Type :=
| Fin (x : R)
| Inf.

Definition key_lt (a b : key) : bool :=
  match a, b with
  | Fin x, Fin y => flt x y
  | Fin _, Inf => true
  | Inf, _ => false
  end.

(** [x.distance_meters or float('inf')]: [None] and [0.0] are falsy. *)
Definition sort_key (x : POIResult) : key :=
  match distance_meters x with
  | None => Inf
  | Some d => if feq d 0 then Inf else Fin d
  end.

(** [list.sort(key=...)] is a stable ascending sort: an element moves
    in front of those with a strictly greater key only. *)
Fixpoint insert_by {A : Type} (k : A -> key) (x : A) (l : list A) : list A :=
  match l with
  | [] => [x]
  | y :: l' =>
      if key_lt (k y) (k x) then y :: insert_by k x l' else x :: y :: l'
  end.

Definition sort_by {A : Type} (k : A -> key) (l : list A) : list A :=
  fold_right (insert_by k) [] l.

(** [category is None or poi.category == category]. *)
Definition category_matches (cat : option string) (poi : POIResult) : bool :=
  match cat with
  | None => true
  | Some c => String.eqb (category poi) c
  end.

(** The loop of [search_nearby] over the mock database; it ends at the
    first record whose distance cannot be computed. *)
Fixpoint nearby_loop (F : Float64) (lat lon radius_meters : R)
    (cat : option string) (pois : list POIResult)
  : outcome fstring (list POIResult) :=
  match pois with
  | [] => Returned []
  | poi :: rest =>
      match _calculate_distance F lat lon (latitude poi) (longitude poi) with
      | Raised e => Raised e
      | Returned distance =>
          match nearby_loop F lat lon radius_meters cat rest with
          | Raised e => Raised e
          | Returned results =>
              if fle distance radius_meters && category_matches cat poi
              then Returned (with_distance poi distance :: results)
              else Returned results
          end
      end
  end.

Definition search_nearby (F : Float64) (lat lon radius_meters : R)
    (cat : option string) (limit : Z) : M POIServer fstring (list POIResult) :=
  fun self =>
    match nearby_loop F lat lon radius_meters cat (_mock_pois self) with
    | Raised e => (Raised e, self)
    | Returned results =>
        let results := sort_by sort_key results in
        (Returned (slice_to limit results), self)
    end.

(** The two filters of [search_by_category]; [true] when the loop
    reaches [filtered.append(poi)]. *)
Definition rating_ok (min_rating : option R) (poi : POIResult) : bool :=
  match min_rating with
  | None => true
  | Some m =>
      match rating poi with
      | None => false
      | Some r => negb (flt r m)
      end
  end.

Definition price_ok (max_price_level : option Z) (poi : POIResult) : bool :=
  match max_price_level with
  | None => true
  | Some m =>
      match price_level poi with
      | None => true
      | Some p => negb (m <? p)%Z
      end
  end.

Definition apply_filters (min_rating : option R) (max_price_level : option Z)
    (results : list POIResult) : list POIResult :=
  filter (fun poi => rating_ok min_rating poi && price_ok max_price_level poi)
         results.

Definition search_by_category (F : Float64) (cat : string)
    (lat lon radius_meters : R)
    (min_rating : option R) (max_price_level : option Z) (limit : Z)
  : M POIServer fstring (list POIResult) :=
  results <- search_nearby F lat lon radius_meters (Some cat) 100 ;;
  ret (slice_to limit (apply_filters min_rating max_price_level results)).

(** Orders in which the properties of the result are stated: [x] may
    stand before [y] in a list sorted by the key [k] when the key of [y]
    is not smaller; a list is sorted by distance when the distance of
    each record is at most that of the next one. *)
Definition key_ord {A : Type} (k : A -> key) (x y : A) : Prop :=
  key_lt (k y) (k x) = false.

Definition distance_le (p q : POIResult) : Prop :=
  match distance_meters p, distance_meters q with
  | Some a, Some b => a <= b
  | _, _ => False
  end.

Definition sorted_by_distance (l : list POIResult) : Prop :=
  Sorted distance_le l.

(** The distance of a record from the centre of a search. *)
Definition distance_from (F : Float64) (lat lon : R) (poi : POIResult)
  : outcome fstring R :=
  _calculate_distance F lat lon (latitude poi) (longitude poi).

End POI.

(** ** [map_servers/geocoding_server.py] *)

Module Geocoding.

Import Py.
Open Scope R_scope.

Record GeocodingResult : Type := {
  address : fstring;
  latitude : R;
  longitude : R;
  confidence : R;
  place_type : option string;
  country : option string;
  city : option string
}.

Record GeocodingServer : Type := {
  api_key : string;
  base_url : string;
  session : option unit
}.

Definition _get_session : M GeocodingServer fstring unit :=
  fun self =>
    match session self with
    | None =>
        (Returned tt,
         {| api_key := api_key self;
            base_url := base_url self;
            session := Some tt |})
    | Some c => (Returned c, self)
    end.

(** The request itself is commented out in the source; the result is
    built from [mock_data], whatever [limit] is. *)
Definition forward_geocode (addr : string) (limit : Z)
  : M GeocodingServer fstring (list GeocodingResult) :=
  _ <- _get_session ;;
  ret [ {| address := [Lit addr; Lit " (simulated)"];
           latitude := 40.7484;
           longitude := -73.9857;
           confidence := 0.9;
           place_type := Some "building"%string;
           country := Some "United States"%string;
           city := Some "New York"%string |} ].

Definition reverse_geocode (lat lon : R)
  : M GeocodingServer fstring GeocodingResult :=
  if negb (fle (-90) lat && fle lat 90) then
    raise (Exn ValueError
             [Lit "Invalid latitude: "; Flt lat;
              Lit ". Must be between -90 and 90"])
  else if negb (fle (-180) lon && fle lon 180) then
    raise (Exn ValueError
             [Lit "Invalid longitude: "; Flt lon;
              Lit ". Must be between -180 and 180"])
  else
    _ <- _get_session ;;
    ret {| address :=
             [Lit "Simulated address near "; Flt lat; Lit ", "; Flt lon];
           latitude := lat;
           longitude := lon;
           confidence := 0.8;
           place_type := Some "building"%string;
           country := Some "United States"%string;
           city := Some "New York"%string |}.

(** [asyncio.gather] with [return_exceptions=True]: every task runs,
    and an exception raised by one of them becomes its entry of the
    result list.  The tasks share the server object; they are run here
    in the order of the list. *)
Fixpoint gather {S A : Type} (tasks : list (M S fstring A))
  : S -> list (outcome fstring A) * S :=
  fun s =>
    match tasks with
    | [] => ([], s)
    | t :: rest =>
        let '(r, s1) := t s in
        let '(rs, s2) := gather rest s1 in
        (r :: rs, s2)
    end.

(** The loop over [results] that replaces exceptions by [[]]. *)
Definition process_results {A : Type} (results : list (outcome fstring (list A)))
  : list (list A) :=
  map (fun result =>
         match result with
         | Raised _ => []
         | Returned r => r
         end) results.

(** [batch_geocode], for the method [self.forward_geocode] resolves to:
    the lookup is a parameter, so that the handling of failed lookups can
    be stated for a lookup that can fail. *)
Definition batch_geocode_with
    (lookup : string -> Z -> M GeocodingServer fstring (list GeocodingResult))
    (addresses : list string)
  : M GeocodingServer fstring (list (list GeocodingResult)) :=
  fun self =>
    let tasks := map (fun addr => lookup addr 1%Z) addresses in
    let '(results, self') := gather tasks self in
    (Returned (process_results results), self').

Definition batch_geocode (addresses : list string)
  : M GeocodingServer fstring (list (list GeocodingResult)) :=
  batch_geocode_with forward_geocode addresses.

(** The server object as the lookup of the [i]-th address finds it: the
    one the lookups of the addresses before it leave behind. *)
Fixpoint run_lookups
    (lookup : string -> Z -> M GeocodingServer fstring (list GeocodingResult))
    (addresses : list string) (self : GeocodingServer) : GeocodingServer :=
  match addresses with
  | [] => self
  | addr :: rest => run_lookups lookup rest (snd (lookup addr 1%Z self))
  end.

Definition server_before
    (lookup : string -> Z -> M GeocodingServer fstring (list GeocodingResult))
    (addresses : list string) (self : GeocodingServer) (i : nat)
  : GeocodingServer :=
  run_lookups lookup (firstn i addresses) self.

(** A lookup for test runs: it raises for the address [bad] and is
    [forward_geocode] for every other address. *)
Definition failing_on (bad : string) (addr : string) (limit : Z)
  : M GeocodingServer fstring (list GeocodingResult) :=
  if String.eqb addr bad
  then raise (Exn OtherException [Lit "lookup failed: "; Lit addr])
  else forward_geocode addr limit.

(** [lat] and [lon] are coordinates of a point of the globe. *)
Definition in_range (lat lon : R) : Prop :=
  -90 <= lat <= 90 /\ -180 <= lon <= 180.

End Geocoding.

(** ** Text: [str] methods and literals *)

Module Text.

Open Scope string_scope.

Definition dquote : ascii := "034"%char.
Definition newline : string := String "010"%char "".

(** Writes a text that contains double quotes: every backquote of the
    literal stands for a double quote. *)
Fixpoint lit (s : string) : string :=
  match s with
  | EmptyString => EmptyString
  | String c s' =>
      String (if Ascii.eqb c "`"%char then dquote else c) (lit s')
  end.

Definition code (c : ascii) : N := N_of_ascii c.

(** White space of [str.strip()] below U+0080. *)
Definition is_space (c : ascii) : bool :=
  let n := code c in
  ((9 <=? n) && (n <=? 13) || (28 <=? n) && (n <=? 32))%N.

(** White space of [str.strip()] from U+0080 on, as UTF-8 bytes. *)
Definition wide_spaces : list string :=
  map (fun bytes => fold_right (fun b s => String (ascii_of_N b) s) "" bytes)
    ([ [194; 133]; [194; 160]; [225; 154; 128];
       [226; 128; 128]; [226; 128; 129]; [226; 128; 130]; [226; 128; 131];
       [226; 128; 132]; [226; 128; 133]; [226; 128; 134]; [226; 128; 135];
       [226; 128; 136]; [226; 128; 137]; [226; 128; 138];
       [226; 128; 168]; [226; 128; 169]; [226; 128; 175];
       [226; 129; 159]; [227; 128; 128] ])%N.

Fixpoint strip_prefix (p s : string) : option string :=
  match p, s with
  | EmptyString, _ => Some s
  | String a p', String b s' =>
      if Ascii.eqb a b then strip_prefix p' s' else None
  | String _ _, EmptyString => None
  end.

Fixpoint reverse (s : string) : string :=
  match s with
  | EmptyString => EmptyString
  | String c s' => reverse s' ++ String c ""
  end.

(** One white-space character at the front of [s], removed. *)
Definition drop_space (spaces : list string) (s : string) : option string :=
  match s with
  | EmptyString => None
  | String c s' =>
      if is_space c then Some s'
      else
        fold_right
          (fun w r => match strip_prefix w s with Some t => Some t | None => r end)
          None spaces
  end.

Fixpoint lstrip_with (spaces : list string) (fuel : nat) (s : string) : string :=
  match fuel with
  | O => s
  | S fuel' =>
      match drop_space spaces s with
      | Some t => lstrip_with spaces fuel' t
      | None => s
      end
  end.

Definition lstrip (s : string) : string :=
  lstrip_with wide_spaces (String.length s) s.

Definition rstrip (s : string) : string :=
  reverse (lstrip_with (map reverse wide_spaces) (String.length s) (reverse s)).

(** [s.strip()]. *)
Definition strip (s : string) : string := rstrip (lstrip s).

(** [s.lower()] on ASCII letters. *)
Definition lower_char (c : ascii) : ascii :=
  let n := code c in
  if ((65 <=? n) && (n <=? 90))%N then ascii_of_N (n + 32) else c.

Fixpoint lower (s : string) : string :=
  match s with
  | EmptyString => EmptyString
  | String c s' => String (lower_char c) (lower s')
  end.

(** [needle in haystack]. *)
Fixpoint contains (needle haystack : string) : bool :=
  match strip_prefix needle haystack with
  | Some _ => true
  | None =>
      match haystack with
      | EmptyString => false
      | String _ h' => contains needle h'
      end
  end.

End Text.

(** ** The [json] module of the standard library *)

Module Json.

Import Py Text.
Open Scope string_scope.

(** Values [json.loads] builds: [None], [bool], [int], [float] (kept as
    the text it was read from), [str], [list] and [dict]. *)
#[local] Unset Elimination Schemes.
Inductive json : Type :=
| JNull
| JBool (b : bool)
| JInt (n : Z)
| JFloat (lexeme : string)
| JStr (s : string)
| JArr (items : list json)
| JObj (members : list (string * json)).
#[local] Set Elimination Schemes.

Definition dict : Type := list (string * json).

(** [d.get(k)]. *)
Fixpoint dict_get (k : string) (d : dict) : option json :=
  match d with
  | [] => None
  | (k', v) :: d' => if String.eqb k' k then Some v else dict_get k d'
  end.

(** [d[k] = v]: a key keeps the place of its first insertion. *)
Fixpoint dict_set (k : string) (v : json) (d : dict) : dict :=
  match d with
  | [] => [(k, v)]
  | (k', v') :: d' =>
      if String.eqb k' k then (k', v) :: d' else (k', v') :: dict_set k v d'
  end.

Definition is_json_ws (c : ascii) : bool :=
  let n := code c in
  ((n =? 32) || (n =? 9) || (n =? 10) || (n =? 13))%N.

Fixpoint skip_ws (s : string) : string :=
  match s with
  | String c s' => if is_json_ws c then skip_ws s' else s
  | EmptyString => EmptyString
  end.

Definition is_digit (c : ascii) : bool :=
  let n := code c in ((48 <=? n) && (n <=? 57))%N.

(** The longest prefix of digits, and the rest. *)
Fixpoint span_digits (s : string) : string * string :=
  match s with
  | String c s' =>
      if is_digit c
      then let '(ds, r) := span_digits s' in (String c ds, r)
      else (EmptyString, s)
  | EmptyString => (EmptyString, EmptyString)
  end.

Fixpoint digits_value (acc : Z) (ds : string) : Z :=
  match ds with
  | String c ds' => digits_value (10 * acc + Z.of_N (code c - 48)) ds'
  | EmptyString => acc
  end.

(** What a failed scan raises.  The message of a [JSONDecodeError] is
    not modelled: the agent never shows it. *)
Definition decode_error : exn string := Exn JSONDecodeError "".

(** [int(text)] refuses more than 4300 digits. *)
Definition max_str_digits : nat := 4300.

Definition digits_error (digits : nat) : exn string :=
  Exn ValueError
    ("Exceeds the limit (4300 digits) for integer string conversion: value has "
     ++ NilZero.string_of_uint (Nat.to_uint digits)
     ++ " digits; use sys.set_int_max_str_digits() to increase the limit").

(** Numbers: an optional minus sign, then a zero or a digit string that
    does not start with zero, then an optional fraction (a dot and
    digits) and an optional exponent (e or E, an optional sign,
    digits); an [int] when there is neither fraction nor exponent.
    [None] when no number starts here. *)
Definition scan_number (s : string) : option (outcome string (json * string)) :=
  let '(sign, s1) :=
    match s with
    | String "-" r => ("-", r)
    | _ => ("", s)
    end in
  let int_part :=
    match s1 with
    | String "0" r => Some ("0", r)
    | String c _ => if is_digit c then Some (span_digits s1) else None
    | EmptyString => None
    end in
  match int_part with
  | None => None
  | Some (ds, s2) =>
      let '(frac, s3) :=
        match s2 with
        | String "." r =>
            match span_digits r with
            | (EmptyString, _) => ("", s2)
            | (fd, r') => ("." ++ fd, r')
            end
        | _ => ("", s2)
        end in
      let '(expo, s4) :=
        match s3 with
        | String e r =>
            if Ascii.eqb e "e" || Ascii.eqb e "E" then
              let '(esign, r1) :=
                match r with
                | String "+" r' => ("+", r')
                | String "-" r' => ("-", r')
                | _ => ("", r)
                end in
              match span_digits r1 with
              | (EmptyString, _) => ("", s3)
              | (ed, r') => (String e (esign ++ ed), r')
              end
            else ("", s3)
        | EmptyString => ("", s3)
        end in
      match frac, expo with
      | EmptyString, EmptyString =>
          if (max_str_digits <? String.length ds)%nat
          then Some (Raised (digits_error (String.length ds)))
          else
            let v := digits_value 0 ds in
            Some (Returned (JInt (if String.eqb sign "-" then - v else v), s4))
      | _, _ => Some (Returned (JFloat (sign ++ ds ++ frac ++ expo), s4))
      end
  end.

Definition hex_value (c : ascii) : option N :=
  let n := code c in
  if ((48 <=? n) && (n <=? 57))%N then Some (n - 48)%N
  else if ((65 <=? n) && (n <=? 70))%N then Some (n - 55)%N
  else if ((97 <=? n) && (n <=? 102))%N then Some (n - 87)%N
  else None.

(** Four hexadecimal digits after a [\u]. *)
Definition scan_hex4 (s : string) : option (N * string) :=
  match s with
  | String a (String b (String c (String d r))) =>
      match hex_value a, hex_value b, hex_value c, hex_value d with
      | Some x, Some y, Some z, Some w =>
          Some (((x * 16 + y) * 16 + z) * 16 + w, r)%N
      | _, _, _, _ => None
      end
  | _ => None
  end.

(** [chr(cp)], as UTF-8 bytes. *)
Definition utf8 (cp : N) : string :=
  let b (n : N) := ascii_of_N n in
  (if cp <? 128 then String (b cp) ""
   else if cp <? 2048 then
     String (b (192 + cp / 64)) (String (b (128 + cp mod 64)) "")
   else if cp <? 65536 then
     String (b (224 + cp / 4096))
       (String (b (128 + (cp / 64) mod 64)) (String (b (128 + cp mod 64)) ""))
   else
     String (b (240 + cp / 262144))
       (String (b (128 + (cp / 4096) mod 64))
          (String (b (128 + (cp / 64) mod 64))
             (String (b (128 + cp mod 64)) ""))))%N.

(** A [\uXXXX] escape, [s] being the text after the [u]; a high
    surrogate followed by an escaped low surrogate makes one character. *)
Definition scan_unicode (s : string) : option (string * string) :=
  match scan_hex4 s with
  | None => None
  | Some (uni, r) =>
      if ((55296 <=? uni) && (uni <=? 56319))%N then
        match r with
        | String "\" (String "u" r1) =>
            match scan_hex4 r1 with
            | None => None
            | Some (uni2, r2) =>
                if ((56320 <=? uni2) && (uni2 <=? 57343))%N
                then Some (utf8 (65536 + (uni - 55296) * 1024
                                 + (uni2 - 56320))%N, r2)
                else Some (utf8 uni, r)
            end
        | _ => Some (utf8 uni, r)
        end
      else Some (utf8 uni, r)
  end.

(** The body of a string, after its opening quote (strict mode: no
    control character). *)
Fixpoint scan_string (fuel : nat) (s acc : string) : option (string * string) :=
  match fuel with
  | O => None
  | S fuel' =>
      match s with
      | EmptyString => None
      | String c r =>
          if Ascii.eqb c dquote then Some (acc, r)
          else if Ascii.eqb c "\" then
            match r with
            | EmptyString => None
            | String e r' =>
                let simple (x : ascii) :=
                  scan_string fuel' r' (acc ++ String x "") in
                if Ascii.eqb e dquote then simple dquote
                else if Ascii.eqb e "\" then simple "\"%char
                else if Ascii.eqb e "/" then simple "/"%char
                else if Ascii.eqb e "b" then simple "008"%char
                else if Ascii.eqb e "f" then simple "012"%char
                else if Ascii.eqb e "n" then simple "010"%char
                else if Ascii.eqb e "r" then simple "013"%char
                else if Ascii.eqb e "t" then simple "009"%char
                else if Ascii.eqb e "u" then
                  match scan_unicode r' with
                  | Some (chars, r'') => scan_string fuel' r'' (acc ++ chars)
                  | None => None
                  end
                else None
            end
          else if (code c <? 32)%N then None
          else scan_string fuel' r (acc ++ String c "")
      end
  end.

(** One value at the front of [s]; [scan_members] reads the members of
    an object from a key on, [scan_elements] the elements of an array. *)
Fixpoint scan_once (fuel : nat) (s : string) : outcome string (json * string) :=
  match fuel with
  | O => Raised decode_error
  | S fuel' =>
      match s with
      | EmptyString => Raised decode_error
      | String c r =>
          if Ascii.eqb c dquote then
            match scan_string (S (String.length r)) r "" with
            | Some (str, r') => Returned (JStr str, r')
            | None => Raised decode_error
            end
          else if Ascii.eqb c "{" then
            match skip_ws r with
            | String "}" r' => Returned (JObj [], r')
            | r1 => scan_members fuel' r1 []
            end
          else if Ascii.eqb c "[" then
            match skip_ws r with
            | String "]" r' => Returned (JArr [], r')
            | r1 => scan_elements fuel' r1 []
            end
          else
            match strip_prefix "null" s, strip_prefix "true" s,
                  strip_prefix "false" s with
            | Some r', _, _ => Returned (JNull, r')
            | _, Some r', _ => Returned (JBool true, r')
            | _, _, Some r' => Returned (JBool false, r')
            | None, None, None =>
                match scan_number s with
                | Some res => res
                | None =>
                    match strip_prefix "NaN" s, strip_prefix "Infinity" s,
                          strip_prefix "-Infinity" s with
                    | Some r', _, _ => Returned (JFloat "NaN", r')
                    | _, Some r', _ => Returned (JFloat "Infinity", r')
                    | _, _, Some r' => Returned (JFloat "-Infinity", r')
                    | None, None, None => Raised decode_error
                    end
                end
            end
      end
  end

with scan_members (fuel : nat) (s : string) (acc : dict)
  : outcome string (json * string) :=
  match fuel with
  | O => Raised decode_error
  | S fuel' =>
      match s with
      | EmptyString => Raised decode_error
      | String c r =>
          if Ascii.eqb c dquote then
            match scan_string (S (String.length r)) r "" with
            | None => Raised decode_error
            | Some (k, r1) =>
                match skip_ws r1 with
                | String ":" r2 =>
                    match scan_once fuel' (skip_ws r2) with
                    | Raised e => Raised e
                    | Returned (v, r3) =>
                        let acc' := dict_set k v acc in
                        match skip_ws r3 with
                        | String "}" r4 => Returned (JObj acc', r4)
                        | String "," r4 => scan_members fuel' (skip_ws r4) acc'
                        | _ => Raised decode_error
                        end
                    end
                | _ => Raised decode_error
                end
            end
          else Raised decode_error
      end
  end

with scan_elements (fuel : nat) (s : string) (acc : list json)
  : outcome string (json * string) :=
  match fuel with
  | O => Raised decode_error
  | S fuel' =>
      match scan_once fuel' s with
      | Raised e => Raised e
      | Returned (v, r) =>
          match skip_ws r with
          | String "]" r' => Returned (JArr (rev (v :: acc)), r')
          | String "," r' => scan_elements fuel' (skip_ws r') (v :: acc)
          | _ => Raised decode_error
          end
      end
  end.

(** [json.loads(s)]: the value, or [JSONDecodeError] for a text that is
    not JSON, or the [ValueError] of an integer of more than 4300
    digits.  The scanner gets fuel for two calls per character of the
    text.  Texts nested deeper than the recursion limit of the
    interpreter, for which [json.loads] raises [RecursionError], are
    outside this parser. *)
Definition loads (s : string) : outcome string json :=
  match scan_once (2 * String.length s + 2) (skip_ws s) with
  | Returned (v, r) =>
      match skip_ws r with
      | EmptyString => Returned v
      | String _ _ => Raised decode_error
      end
  | Raised e => Raised e
  end.

End Json.

(** ** [weather_agent.py] *)

Module Agent.

Import Py Text Json.
Open Scope string_scope.

Record message : Type := { role : string; content : string }.

(** What a query cycle does outside the process. *)
Inductive event : Type :=
| LLMCall (messages : list message) (temperature : Q)
| ToolCall (tool : string) (parameters : json).

(** The collaborators of the agent: [json.loads] (which returns a
    value, or raises [JSONDecodeError], or raises something else, such
    as the [ValueError] of an integer of more than 4300 digits or a
    [RecursionError]), [repr] of a float
    read by it, the completion endpoint
    ([self.client.chat.completions.create], which returns the text of
    the first choice or raises) and the coroutines stored in
    [self.tool_functions], which are called with keyword arguments and
    return a text or raise. *)
Record Platform : Type := {
  json_loads : string -> outcome string json;
  float_repr : string -> string;
  completions_create : list message -> Q -> outcome string string;
  call_tool : string -> json -> outcome string string
}.

(** The keys of [self.tool_functions]. *)
Definition tool_functions : list string :=
  [ "get_current_weather"; "get_forecast"; "get_daily_summary";
    "get_air_quality"; "get_pollution_forecast" ].

Definition get_system_prompt : string :=
  lit "You are a helpful weather assistant with access to weather data tools.

Available tools:
1. get_current_weather(location=`CityName`) - Get current weather conditions
2. get_forecast(location=`CityName`) - Get 3-hour interval forecast for 5 days
3. get_daily_summary(location=`CityName`) - Get daily weather summary for 5 days
4. get_air_quality(location=`CityName`) - Get current air quality and pollution data
5. get_pollution_forecast(location=`CityName`, hours=24) - Get air quality forecast

When the user asks about weather, you MUST respond with a JSON object indicating which tool to use:
{
  `tool`: `tool_name`,
  `parameters`: {`location`: `CityName`, ...}
}

Examples:
- User: `What's the weather in London?`
  Response: {`tool`: `get_current_weather`, `parameters`: {`location`: `London`}}

- User: `Air quality in Beijing`
  Response: {`tool`: `get_air_quality`, `parameters`: {`location`: `Beijing`}}

- User: `5-day forecast for Tokyo`
  Response: {`tool`: `get_daily_summary`, `parameters`: {`location`: `Tokyo`}}

IMPORTANT: Only respond with the JSON object, nothing else.".

(** The [for i, char in enumerate(llm_response)] loop: [rest] is the
    text from index [i] on.  The bare [except] around [json.loads]
    catches whatever it raises.  [None] is the [else] branch of the
    loop, which raises [JSONDecodeError]. *)
Fixpoint scan_loop (loads : string -> outcome string json)
    (llm_response rest : string)
    (i : nat) (brace_count : Z) (start_idx : option nat) : option json :=
  match rest with
  | EmptyString => None
  | String char rest' =>
      if Ascii.eqb char "{" then
        let start_idx' :=
          match start_idx with
          | None => Some i
          | Some _ => start_idx
          end in
        scan_loop loads llm_response rest' (S i) (brace_count + 1) start_idx'
      else if Ascii.eqb char "}" then
        let brace_count' := (brace_count - 1)%Z in
        match (brace_count' =? 0)%Z, start_idx with
        | true, Some start =>
            let json_str := substring start (i + 1 - start) llm_response in
            match loads json_str with
            | Returned tool_call => Some tool_call
            | Raised _ =>
                scan_loop loads llm_response rest' (S i) brace_count' start_idx
            end
        | _, _ =>
            scan_loop loads llm_response rest' (S i) brace_count' start_idx
        end
      else scan_loop loads llm_response rest' (S i) brace_count start_idx
  end.

(** [json.JSONDecodeError("No valid JSON found", llm_response, 0)]. *)
Definition no_valid_json : exn string :=
  Exn JSONDecodeError "No valid JSON found: line 1 column 1 (char 0)".

(** The inner [try] of [process_query]: the whole answer first; the
    scan for braces when that raises [JSONDecodeError]; any other
    exception of the first [json.loads] leaves the inner [try]. *)
Definition parse_tool_call (loads : string -> outcome string json)
    (llm_response : string) : outcome string json :=
  match loads (strip llm_response) with
  | Returned tool_call => Returned tool_call
  | Raised e =>
      if is_JSONDecodeError e then
        match scan_loop loads llm_response llm_response 0 0%Z None with
        | Some tool_call => Returned tool_call
        | None => Raised no_valid_json
        end
      else Raised e
  end.

(** [type(v).__name__]. *)
Definition type_name (v : json) : string :=
  match v with
  | JNull => "NoneType"
  | JBool _ => "bool"
  | JInt _ => "int"
  | JFloat _ => "float"
  | JStr _ => "str"
  | JArr _ => "list"
  | JObj _ => "dict"
  end.

(** [tool_call.get(k, default)]; only a [dict] has a [get]. *)
Definition get (tool_call : json) (k : string) (default : json)
  : outcome string json :=
  match tool_call with
  | JObj d =>
      match dict_get k d with
      | Some v => Returned v
      | None => Returned default
      end
  | v =>
      Raised (Exn AttributeError
                ("'" ++ type_name v ++ "' object has no attribute 'get'"))
  end.

(** [tool_name not in self.tool_functions]: the name is hashed first,
    and the keys are all of type [str]. *)
Definition not_in_tool_functions (tool_name : json) : outcome string bool :=
  match tool_name with
  | JArr _ | JObj _ =>
      Raised (Exn TypeError ("unhashable type: '" ++ type_name tool_name ++ "'"))
  | JStr s => Returned (negb (existsb (String.eqb s) tool_functions))
  | _ => Returned true
  end.

(** [str(v)] where the agent formats it: [tool_name] in the answer for
    an unknown tool. *)
Definition py_str (P : Platform) (v : json) : string :=
  match v with
  | JNull => "None"
  | JBool true => "True"
  | JBool false => "False"
  | JInt n => DecimalString.NilZero.string_of_int (Z.to_int n)
  | JFloat lexeme => float_repr P lexeme
  | JStr s => s
  | JArr _ | JObj _ => "<" ++ type_name v ++ ">"
  end.

Definition rephrase_message : string :=
  "I had trouble understanding the request. Could you please rephrase your question about weather or air quality?".

(** The two handlers of the outer [try]. *)
Definition handle (e : exn string) : string :=
  if is_JSONDecodeError e then rephrase_message
  else "Sorry, I encountered an error: " ++ exn_msg e.

Definition format_messages (user_query tool_name result : string)
  : list message :=
  [ {| role := "system";
       content := "You are a helpful weather assistant. Format the following weather data into a natural, friendly response for the user. Be concise but informative. IMPORTANT: Only use the exact data provided - do not make up, guess, or infer any information. If data is missing, simply say so." |};
    {| role := "user";
       content := "User asked: " ++ user_query ++ newline ++ newline
                  ++ "Tool used: " ++ tool_name ++ newline
                  ++ "Data received from API: " ++ result ++ newline ++ newline
                  ++ "Provide a natural response using ONLY this data:" |} ].

(** The [messages] of the first completion. *)
Definition selection_messages (user_query : string) : list message :=
  [ {| role := "system"; content := get_system_prompt |};
    {| role := "user"; content := user_query |} ].

(** [process_query]: the answer and the calls made, in order.  The
    diagnostic [print]s are left out. *)
Definition process_query (P : Platform) (user_query : string)
  : string * list event :=
  let messages := selection_messages user_query in
  let select := LLMCall messages (3 # 10) in
  match completions_create P messages (3 # 10) with
  | Raised e => (handle e, [select])
  | Returned llm_response =>
      match parse_tool_call (json_loads P) llm_response with
      | Raised e => (handle e, [select])
      | Returned tool_call =>
          match get tool_call "tool" JNull with
          | Raised e => (handle e, [select])
          | Returned tool_name =>
              match get tool_call "parameters" (JObj []) with
              | Raised e => (handle e, [select])
              | Returned parameters =>
                  match not_in_tool_functions tool_name, tool_name with
                  | Raised e, _ => (handle e, [select])
                  | Returned false, JStr name =>
                      let invoke := ToolCall name parameters in
                      match call_tool P name parameters with
                      | Raised e => (handle e, [select; invoke])
                      | Returned result =>
                          let fm := format_messages user_query name result in
                          let format := LLMCall fm (7 # 10) in
                          match completions_create P fm (7 # 10) with
                          | Raised e => (handle e, [select; invoke; format])
                          | Returned final_response =>
                              (final_response, [select; invoke; format])
                          end
                      end
                  | Returned _, _ =>
                      ("Unknown tool: " ++ py_str P tool_name, [select])
                  end
              end
          end
      end
  end.

(** [user_input.lower() in ["exit", "quit", "bye"]]. *)
Definition is_exit (user_input : string) : bool :=
  existsb (String.eqb (lower user_input)) ["exit"; "quit"; "bye"].

(** What [input] gives the interactive session: a line, or
    [KeyboardInterrupt]. *)
Inductive input_event : Type :=
| Line (s : string)
| Interrupt.

Inductive status : Type :=
| Waiting
| Ended.

(** [interactive_session], after its banner, on the inputs that arrive:
    the lines printed, the calls made, and whether the loop has been left
    ([Ended]) or is back at [input] ([Waiting]). *)
Fixpoint interactive_session (P : Platform) (inputs : list input_event)
  : list string * list event * status :=
  match inputs with
  | [] => ([], [], Waiting)
  | Interrupt :: _ =>
      ([newline ++ newline ++ "Session interrupted. Goodbye!"], [], Ended)
  | Line l :: rest =>
      let user_input := strip l in
      if is_exit user_input then
        ([newline ++ "Goodbye! Stay safe and enjoy the weather!"], [], Ended)
      else if String.eqb user_input "" then interactive_session P rest
      else
        let '(response, calls) := process_query P user_input in
        let '(printed, calls', st) := interactive_session P rest in
        ((newline ++ "Agent: " ++ response ++ newline) :: printed,
         (calls ++ calls')%list, st)
  end.

(** *** The scan, described by positions

    The braces of a text are counted from its beginning: an opening
    brace adds one, a closing brace takes one away. *)
Definition brace_delta (c : ascii) : Z :=
  if Ascii.eqb c "{" then 1%Z else if Ascii.eqb c "}" then (-1)%Z else 0%Z.

Fixpoint net (s : string) : Z :=
  match s with
  | EmptyString => 0%Z
  | String c s' => (brace_delta c + net s')%Z
  end.

(** The position of the first opening brace. *)
Fixpoint first_open (s : string) : option nat :=
  match s with
  | EmptyString => None
  | String c s' =>
      if Ascii.eqb c "{" then Some 0%nat else option_map S (first_open s')
  end.

Definition prefix (n : nat) (s : string) : string := substring 0 n s.

(** The candidate that ends at position [j], if there is one: [j] holds
    a closing brace, the braces of the text up to and including [j] are
    balanced, and an opening brace stands before [j]; the candidate runs
    from the first opening brace of the text to [j]. *)
Definition candidate_at (s : string) (j : nat) : option string :=
  match String.get j s with
  | Some c =>
      if Ascii.eqb c "}" && (net (prefix (S j) s) =? 0)%Z then
        match first_open (prefix j s) with
        | Some start => Some (substring start (S j - start) s)
        | None => None
        end
      else None
  | None => None
  end.

Fixpoint filter_map {A B : Type} (f : A -> option B) (l : list A) : list B :=
  match l with
  | [] => []
  | x :: l' =>
      match f x with
      | Some y => y :: filter_map f l'
      | None => filter_map f l'
      end
  end.

(** The candidates of a text, in the order of their last brace. *)
Definition candidates (s : string) : list string :=
  filter_map (candidate_at s) (seq 0 (String.length s)).

(** The value of the first text of a list that parses. *)
Fixpoint first_parsed (loads : string -> outcome string json)
    (texts : list string) : option json :=
  match texts with
  | [] => None
  | t :: rest =>
      match loads t with
      | Returned v => Some v
      | Raised _ => first_parsed loads rest
      end
  end.

(** A text without braces. *)
Fixpoint brace_free (s : string) : bool :=
  match s with
  | EmptyString => true
  | String c s' => (brace_delta c =? 0)%Z && brace_free s'
  end.

(** The shortest prefix of [s] whose last character is a closing brace
    that brings the counter, started at [count], to zero. *)
Fixpoint close_prefix (count : Z) (s : string) : option string :=
  match s with
  | EmptyString => None
  | String c s' =>
      if Ascii.eqb c "}" && (count - 1 =? 0)%Z then Some (String c "")
      else option_map (String c) (close_prefix (count + brace_delta c) s')
  end.

(** A balanced object: an opening brace up to its matching closing
    brace. *)
Definition balanced_object (obj : string) : Prop :=
  match obj with
  | String "{" body => close_prefix 1 body = Some body
  | _ => False
  end.

(** Some part of [s] that runs from an opening brace to a later
    closing brace parses. *)
Definition object_found (loads : string -> outcome string json) (s : string)
  : Prop :=
  exists start stop v,
    (start < stop)%nat
    /\ String.get start s = Some "{"%char
    /\ String.get stop s = Some "}"%char
    /\ loads (substring start (S stop - start) s) = Returned v.

(** A scripted platform for concrete runs: [decision] is the answer of
    the model to the selection prompt, [formatted] its answer to the
    formatting prompt, and every tool behaves as [tool]. *)
Definition scripted (decision formatted : string)
    (tool : outcome string string) : Platform :=
  {| json_loads := Json.loads;
     float_repr := fun lexeme => lexeme;
     completions_create :=
       fun messages temperature =>
         if Qeq_bool temperature (3 # 10) then Returned decision
         else Returned formatted;
     call_tool := fun _ _ => tool |}.

End Agent.

(** ** [map_servers/routing_server.py]: matrices and alternatives *)

Module RoutingExt.

Import Py PyMath Routing.
Open Scope R_scope.

(** The dict [calculate_distance_matrix] returns. *)
Record DistanceMatrix : Type := {
  distances_meters : list (list R);
  durations_seconds : list (list R)
}.

(** The inner loop of [calculate_distance_matrix]: the rows
    [origin_distances] and [origin_durations] of one origin. *)
Fixpoint matrix_row (F : Float64) (origin : R * R)
    (destinations : list (R * R)) (mode : string)
  : M RoutingServer fstring (list R * list R) :=
  match destinations with
  | [] => ret ([], [])
  | destination :: rest =>
      route <- calculate_route F (fst origin) (snd origin)
                 (fst destination) (snd destination) mode ;;
      row <- matrix_row F origin rest mode ;;
      ret (RouteResult.distance_meters route :: fst row,
           RouteResult.duration_seconds route :: snd row)
  end.

(** The outer loop, over the origins. *)
Fixpoint matrix_rows (F : Float64) (origins destinations : list (R * R))
    (mode : string)
  : M RoutingServer fstring (list (list R) * list (list R)) :=
  match origins with
  | [] => ret ([], [])
  | origin :: rest =>
      row <- matrix_row F origin destinations mode ;;
      rows <- matrix_rows F rest destinations mode ;;
      ret (fst row :: fst rows, snd row :: snd rows)
  end.

Definition calculate_distance_matrix (F : Float64)
    (origins destinations : list (R * R)) (mode : string)
  : M RoutingServer fstring DistanceMatrix :=
  rows <- matrix_rows F origins destinations mode ;;
  ret {| distances_meters := fst rows; durations_seconds := snd rows |}.

(** [range(start, stop)]. *)
Definition range (start stop : Z) : list Z :=
  map (fun k => (start + Z.of_nat k)%Z) (seq 0 (Z.to_nat (stop - start))).

(** [str(i)] for an [int]. *)
Definition decimal (i : Z) : string :=
  DecimalString.NilZero.string_of_int (Z.to_int i).

(** The route [alt_route] that the loop of [get_route_alternatives]
    builds for the index [i]. *)
Definition alt_route (base_route : RouteResult.t) (i : Z) : RouteResult.t :=
  RouteResult.Build
    (RouteResult.origin base_route)
    (RouteResult.destination base_route)
    (RouteResult.distance_meters base_route * (1 + IZR i * 0.1))
    (RouteResult.duration_seconds base_route * (1 + IZR i * 0.15))
    (RouteResult.steps base_route)
    (RouteResult.mode base_route)
    (Some (match RouteResult.polyline base_route with
           | Some text => text
           | None => [Lit "None"]
           end ++ [Lit "_alt_"; Lit (decimal i)])%list)
    [("Alternative route " ++ decimal (i + 1) ++ " (simulated)")%string].

(** [get_route_alternatives]; the base route is computed with the
    default mode of [calculate_route]. *)
Definition get_route_alternatives (F : Float64)
    (origin_lat origin_lon dest_lat dest_lon : R) (alternatives : Z)
  : M RoutingServer fstring (list RouteResult.t) :=
  base_route <- calculate_route F origin_lat origin_lon dest_lat dest_lon
                  "driving" ;;
  ret (base_route :: map (alt_route base_route) (range 1 (Z.min alternatives 3))).

(** Sum of the step durations of a route, left to right. *)
Definition steps_duration (r : RouteResult.t) : R :=
  fold_left Rplus (map RouteStep.duration_seconds (RouteResult.steps r)) 0.

(** The steps of a route are linked: each one starts where the one
    before it ends. *)
Fixpoint linked (start : R * R) (steps : list RouteStep.t) (stop : R * R)
  : Prop :=
  match steps with
  | [] => start = stop
  | step :: rest =>
      RouteStep.start_location step = start
      /\ linked (RouteStep.end_location step) rest stop
  end.

End RoutingExt.

(** ** [map_servers/poi_server.py]: text search and details *)

Module POIExt.

Import Py PyMath Text POI.
Open Scope R_scope.

(** The keyword test of [search_text]; an empty description is falsy. *)
Definition matches_query (query_lower : string) (poi : POIResult) : bool :=
  contains query_lower (lower (name poi))
  || contains query_lower (lower (category poi))
  || match description poi with
     | Some d => negb (String.eqb d "") && contains query_lower (lower d)
     | None => false
     end.

(** [poi.model_copy()]. *)
Definition model_copy (poi : POIResult) : POIResult := poi.

(** The loop of [search_text] over the mock database; [location] is
    [Some (latitude, longitude)] when both are given.  A distance is
    computed for the records that match only; the loop ends at the
    first one whose distance cannot be computed. *)
Fixpoint text_loop (F : Float64) (query_lower : string)
    (location : option (R * R)) (radius_meters : option R)
    (pois : list POIResult) : outcome fstring (list POIResult) :=
  match pois with
  | [] => Returned []
  | poi :: rest =>
      if matches_query query_lower poi then
        let poi_copy := model_copy poi in
        match location with
        | Some (lat, lon) =>
            match _calculate_distance F lat lon (latitude poi) (longitude poi)
            with
            | Raised e => Raised e
            | Returned distance =>
                let poi_copy := with_distance poi_copy distance in
                match text_loop F query_lower location radius_meters rest with
                | Raised e => Raised e
                | Returned results =>
                    match radius_meters with
                    | None => Returned (poi_copy :: results)
                    | Some radius =>
                        if fle distance radius
                        then Returned (poi_copy :: results)
                        else Returned results
                    end
                end
            end
        | None =>
            match text_loop F query_lower location radius_meters rest with
            | Raised e => Raised e
            | Returned results => Returned (poi_copy :: results)
            end
        end
      else text_loop F query_lower location radius_meters rest
  end.

(** [latitude is not None and longitude is not None]. *)
Definition location_of (lat lon : option R) : option (R * R) :=
  match lat, lon with
  | Some a, Some b => Some (a, b)
  | _, _ => None
  end.

(** [x.rating or 0]. *)
Definition rating_key (x : POIResult) : key :=
  match rating x with
  | None => Fin 0
  | Some r => Fin r
  end.

(** [l.sort(key=k, reverse=True)]: the list is reversed, sorted in
    ascending order by the stable sort, and reversed again. *)
Definition sort_by_reverse {A : Type} (k : A -> key) (l : list A) : list A :=
  rev (sort_by k (rev l)).

Definition search_text (F : Float64) (query : string)
    (lat lon radius_meters : option R) (limit : Z)
  : M POIServer fstring (list POIResult) :=
  fun self =>
    let query_lower := lower query in
    let location := location_of lat lon in
    match text_loop F query_lower location radius_meters (_mock_pois self) with
    | Raised e => (Raised e, self)
    | Returned results =>
        let results :=
          match location with
          | Some _ => sort_by sort_key results
          | None => sort_by_reverse rating_key results
          end in
        (Returned (slice_to limit results), self)
    end.

(** The loop of [get_place_details]. *)
Fixpoint details_loop (place_lower : string) (pois : list POIResult)
  : option POIResult :=
  match pois with
  | [] => None
  | poi :: rest =>
      if String.eqb (lower (name poi)) place_lower then Some poi
      else details_loop place_lower rest
  end.

Definition get_place_details (place_name : string)
  : M POIServer fstring (option POIResult) :=
  fun self => (Returned (details_loop (lower place_name) (_mock_pois self)), self).

(** The rating a record is ranked by when no location is given. *)
Definition rating_or_0 (x : POIResult) : R :=
  match rating x with
  | None => 0
  | Some r => r
  end.

(** What the loop of [search_text] makes of a record [p] that it keeps:
    with a location, the copy [q] carries the distance, which is within
    the radius when one is given; without, the copy is the record. *)
Definition kept_as (F : Float64) (location : option (R * R))
    (radius_meters : option R) (p q : POIResult) : Prop :=
  match location with
  | Some (lat, lon) =>
      exists d,
        distance_from F lat lon p = Returned d
        /\ q = with_distance p d
        /\ match radius_meters with
           | Some radius => d <= radius
           | None => True
           end
  | None => q = p
  end.

End POIExt.

(** ** [agent.py]: the map services agent *)

Module MapAgent.

Import Py Text.
Open Scope string_scope.

(** Positional arguments of a tool call. *)
Inductive arg : Type :=
| AFloat (x : R)
| AInt (n : Z)
| AStr (s : string)
| ANone.

Record call : Type := Call { tool : string; args : list arg }.

(** The keys of [self.tools]. *)
Definition tools : list string :=
  [ "geocode_address"; "reverse_geocode_coordinates";
    "calculate_route_between_points"; "get_distance_matrix";
    "find_nearby_places"; "search_places_by_text"; "get_place_info" ].

(** The coroutines stored in [self.tools]: called with positional
    arguments, they return a text or raise. *)
Definition Tools : Type := string -> list arg -> outcome string string.

(** [any(word in s for word in words)]. *)
Definition any_in (words : list string) (s : string) : bool :=
  existsb (fun word => contains word s) words.

(** [result = await self.tools[name](...)] followed by
    [return f"{header}\n{result}"]; an exception of the tool is not
    caught. *)
Definition answer_with (T : Tools) (c : call) (header : string)
  : outcome string string * list call :=
  match T (tool c) (args c) with
  | Returned result => (Returned (header ++ newline ++ result), [c])
  | Raised e => (Raised e, [c])
  end.

Definition help_text : string :=
  "I can help you with:
1. Geocoding - convert addresses to coordinates and vice versa
2. Routing - calculate routes and distances between locations
3. Places - find nearby restaurants, hotels, museums, and more

What would you like to know?".

(** The [category] the place search is given. *)
Definition category_of (query_lower : string) : arg :=
  if contains "restaurant" query_lower then AStr "restaurant"
  else if contains "cafe" query_lower || contains "coffee" query_lower
  then AStr "cafe"
  else if contains "museum" query_lower then AStr "museum"
  else if contains "park" query_lower then AStr "park"
  else ANone.

(** [_simulate_agent_response]: the answer, or the exception of the
    tool, and the tool calls made. *)
Definition _simulate_agent_response (T : Tools) (query : string)
  : outcome string string * list call :=
  let query_lower := lower query in
  if contains "geocode" query_lower || contains "coordinates" query_lower
     || contains "address" query_lower
  then
    if any_in ["40."; "41."; "-73"; "-74"] query_lower then
      answer_with T
        (Call "reverse_geocode_coordinates"
           [AFloat 40.7484%R; AFloat (-73.9857)%R])
        "Based on those coordinates, here's what I found:"
    else
      answer_with T
        (Call "geocode_address" [AStr "Empire State Building"; AInt 1])
        "Here are the coordinates I found:"
  else if contains "route" query_lower || contains "direction" query_lower
          || contains "distance" query_lower
  then
    answer_with T
      (Call "calculate_route_between_points"
         [AFloat 40.7484%R; AFloat (-73.9857)%R;
          AFloat 40.7829%R; AFloat (-73.9654)%R; AStr "driving"])
      "Here's the route information:"
  else if any_in ["find"; "nearby"; "restaurant"; "cafe"; "hotel"; "museum"]
            query_lower
  then
    answer_with T
      (Call "find_nearby_places"
         [AFloat 40.7484%R; AFloat (-73.9857)%R; category_of query_lower;
          AInt 2000; AInt 5])
      "Here are nearby places I found:"
  else if contains "search" query_lower || contains "place" query_lower
  then
    answer_with T
      (Call "search_places_by_text"
         [AStr query; AFloat 40.7484%R; AFloat (-73.9857)%R; AInt 5])
      "Here's what I found:"
  else (Returned help_text, []).

(** [process_query], its [print] apart. *)
Definition process_query (T : Tools) (user_query : string)
  : outcome string string * list call :=
  _simulate_agent_response T user_query.

(** The words that make [_simulate_agent_response] call a tool. *)
Definition keywords : list string :=
  [ "geocode"; "coordinates"; "address"; "route"; "direction"; "distance";
    "find"; "nearby"; "restaurant"; "cafe"; "hotel"; "museum";
    "search"; "place" ].

End MapAgent.

(* ================================================================== *)
(** * Part II: properties                                              *)
(* ================================================================== *)

(** ** Real-number facts behind the Haversine formula *)

Module Trig.

Import Py PyMath.
Open Scope R_scope.

Lemma PI_upper : PI < 3.15.
Proof.
  destruct (PI_2_3_7_ineq 1) as [_ H].
  cbv [sum_f_R0 tg_alt PI_2_3_7_tg Ratan_seq Nat.mul Nat.add INR] in H.
  lra.
Qed.

Lemma PI_lower : 3 < PI.
Proof. pose proof PI2_3_2. lra. Qed.

Lemma Rabs_le_inv (a b : R) : Rabs a <= b -> - b <= a <= b.
Proof. unfold Rabs. destruct (Rcase_abs a); lra. Qed.

Lemma atan2_pos (y x : R) : 0 < x -> atan2 y x = atan (y / x).
Proof. intros Hx. unfold atan2. destruct (Rlt_dec 0 x); [reflexivity | contradiction]. Qed.

Lemma hav_angle (a : R) :
  0 <= a < 1 ->
  let th := atan2 (sqrt a) (sqrt (1 - a)) in
  0 <= th < PI / 2 /\ sin th = sqrt a.
Proof.
  intros [Ha0 Ha1] th.
  assert (Hq : 0 < sqrt (1 - a)) by (apply sqrt_lt_R0; lra).
  assert (Hs : 0 <= sqrt a) by apply sqrt_pos.
  unfold th. rewrite atan2_pos by assumption.
  set (t := sqrt a / sqrt (1 - a)).
  assert (Ht : 0 <= t).
  { unfold t. apply Rmult_le_pos; [assumption | left; apply Rinv_0_lt_compat; assumption]. }
  split.
  - split.
    + destruct Ht as [Ht | Ht].
      * left. rewrite <- atan_0. apply atan_increasing. assumption.
      * rewrite <- Ht, atan_0. right; reflexivity.
    + pose proof (atan_bound t). lra.
  - rewrite sin_atan.
    assert (E : 1 + t² = / (1 - a)).
    { unfold t, Rsqr. 
      replace (sqrt a / sqrt (1 - a) * (sqrt a / sqrt (1 - a)))
        with ((sqrt a * sqrt a) / (sqrt (1 - a) * sqrt (1 - a))) by (field; lra).
      rewrite !sqrt_sqrt by lra. field. lra. }
    rewrite E.
    rewrite <- (sqrt_sqrt (1 - a)) at 1 by lra.
    rewrite Rinv_mult.
    rewrite sqrt_square by (left; apply Rinv_0_lt_compat; assumption).
    unfold t. field. lra.
Qed.

Lemma sin_cubic_lower (x : R) : 0 <= x <= 4 -> x - x ^ 3 / 6 <= sin x.
Proof.
  intros [H0 H4].
  destruct (pre_sin_bound x 0 H0 H4) as [H _].
  cbv [sin_approx sum_f_R0 sin_term Nat.mul Nat.add fact INR] in H.
  simpl in H. lra.
Qed.

Lemma sin_small_bounds (x : R) : 0 <= x <= 1 -> 0 <= x - x ^ 3 / 6 <= sin x /\ sin x <= x.
Proof.
  intros [H0 H1]. split; [split|].
  - assert (x ^ 3 <= x) by (simpl; nra). lra.
  - apply sin_cubic_lower; lra.
  - destruct H0 as [H0 | H0].
    + left; apply sin_lt_x; assumption.
    + rewrite <- H0, sin_0. right; reflexivity.
Qed.

Lemma hav_lower (a l : R) :
  0 <= a < 1 -> 0 <= l -> l * l <= a -> l <= atan2 (sqrt a) (sqrt (1 - a)).
Proof.
  intros Ha Hl Hla.
  destruct (hav_angle Ha) as [[Hth0 Hth1] Hsin].
  set (th := atan2 (sqrt a) (sqrt (1 - a))) in *.
  assert (Hsl : l <= sqrt a).
  { rewrite <- (sqrt_square l) by assumption. apply sqrt_le_1_alt; assumption. }
  assert (Hst : sin th <= th).
  { destruct Hth0 as [Hp | Hz].
    - left; apply sin_lt_x; assumption.
    - rewrite <- Hz, sin_0. right; reflexivity. }
  lra.
Qed.

Lemma hav_upper (a u : R) :
  0 <= a < 1 -> 0 <= u <= 1 -> a <= (u - u ^ 3 / 6) * (u - u ^ 3 / 6) ->
  atan2 (sqrt a) (sqrt (1 - a)) <= u.
Proof.
  intros Ha Hu Hau.
  destruct (hav_angle Ha) as [[Hth0 Hth1] Hsin].
  set (th := atan2 (sqrt a) (sqrt (1 - a))) in *.
  destruct (Rle_lt_dec th u) as [Hle | Hlt]; [assumption | exfalso].
  destruct (sin_small_bounds Hu) as [[Hc0 Hc1] _].
  pose proof PI_lower as Hpi.
  assert (Hinc : sin u < sin th) by (apply sin_increasing_1; lra).
  assert (Hsq : sqrt a <= u - u ^ 3 / 6).
  { rewrite <- (sqrt_square (u - u ^ 3 / 6)) by assumption.
    apply sqrt_le_1_alt; assumption. }
  lra.
Qed.

Lemma cos_radians_range (lat : R) : 0 <= lat <= 90 -> 0 <= cos (radians lat) <= 1.
Proof.
  intros [H0 H1]. pose proof PI_lower as Hpi. unfold radians.
  split; [| apply COS_bound].
  apply cos_ge_0; nra.
Qed.

Lemma sqr_le_compat (x y : R) : 0 <= x <= y -> x * x <= y * y.
Proof. intros [H0 H1]. apply Rmult_le_compat; lra. Qed.

Lemma atan2_quadrant (y x : R) :
  0 <= y -> 0 <= x -> 0 <= atan2 y x <= PI / 2.
Proof.
  intros Hy Hx. pose proof PI_lower as Hpi. unfold atan2.
  destruct (Rlt_dec 0 x) as [Hpos | Hnpos].
  - assert (Hq : 0 <= y / x).
    { apply Rmult_le_pos; [exact Hy | left; apply Rinv_0_lt_compat; exact Hpos]. }
    pose proof (atan_bound (y / x)) as Hb. split; [| lra].
    destruct Hq as [Hq | Hq].
    + left. rewrite <- atan_0. apply atan_increasing. exact Hq.
    + rewrite <- Hq, atan_0. right; reflexivity.
  - destruct (Rlt_dec x 0); [lra |].
    destruct (Rlt_dec 0 y); [lra |].
    destruct (Rlt_dec y 0); lra.
Qed.

(** *** The distance functions, case by case *)

Lemma math_sqrt_cases (x : R) :
  (0 <= x /\ math_sqrt x = Returned (sqrt x))
  \/ (x < 0 /\ math_sqrt x = Raised domain_error).
Proof.
  unfold math_sqrt, flt. destruct (Rlt_dec x 0); [right | left]; split;
    try reflexivity; lra.
Qed.

(** The routing server and the POI server have the same function. *)
Lemma poi_distance_is_haversine (F : Float64) (lat1 lon1 lat2 lon2 : R) :
  POI._calculate_distance F lat1 lon1 lat2 lon2
  = Routing._calculate_haversine_distance F lat1 lon1 lat2 lon2.
Proof. reflexivity. Qed.

(** The function returns when the double [a] lies in [0, 1], and
    raises the error of [math.sqrt] when it does not. *)
Lemma haversine_cases (F : Float64) (lat1 lon1 lat2 lon2 : R) :
  (0 <= Routing.computed_a F lat1 lon1 lat2 lon2 <= 1
   /\ Routing._calculate_haversine_distance F lat1 lon1 lat2 lon2
      = Returned
          (6371000
           * (2 * atan2 (sqrt (Routing.computed_a F lat1 lon1 lat2 lon2))
                    (sqrt (1 - Routing.computed_a F lat1 lon1 lat2 lon2)))))
  \/ ((Routing.computed_a F lat1 lon1 lat2 lon2 < 0
       \/ 1 < Routing.computed_a F lat1 lon1 lat2 lon2)
      /\ Routing._calculate_haversine_distance F lat1 lon1 lat2 lon2
         = Raised domain_error).
Proof.
  unfold Routing._calculate_haversine_distance. cbv zeta.
  fold (Routing.computed_a F lat1 lon1 lat2 lon2).
  set (a := Routing.computed_a F lat1 lon1 lat2 lon2). clearbody a.
  destruct (math_sqrt_cases a) as [[Ha ->] | [Ha ->]].
  - destruct (math_sqrt_cases (1 - a)) as [[Hb ->] | [Hb ->]].
    + left. split; [lra | reflexivity].
    + right. split; [right; lra | reflexivity].
  - right. split; [left; exact Ha | reflexivity].
Qed.

Lemma haversine_returned (F : Float64) (lat1 lon1 lat2 lon2 d : R) :
  Routing._calculate_haversine_distance F lat1 lon1 lat2 lon2 = Returned d ->
  0 <= Routing.computed_a F lat1 lon1 lat2 lon2 <= 1
  /\ d = 6371000
         * (2 * atan2 (sqrt (Routing.computed_a F lat1 lon1 lat2 lon2))
                  (sqrt (1 - Routing.computed_a F lat1 lon1 lat2 lon2))).
Proof.
  intros H.
  destruct (haversine_cases F lat1 lon1 lat2 lon2) as [[Ha E] | [_ E]];
    rewrite E in H; [| discriminate].
  injection H as <-. split; [exact Ha | reflexivity].
Qed.

(** The only exception is the one of [math.sqrt]. *)
Lemma haversine_raised (F : Float64) (lat1 lon1 lat2 lon2 : R)
    (e : exn fstring) :
  Routing._calculate_haversine_distance F lat1 lon1 lat2 lon2 = Raised e ->
  e = domain_error.
Proof.
  intros H.
  destruct (haversine_cases F lat1 lon1 lat2 lon2) as [[_ E] | [_ E]];
    rewrite E in H; [discriminate |].
  injection H as <-. reflexivity.
Qed.

(** A distance is never negative and never more than half the
    circumference of the sphere. *)
Lemma haversine_range (F : Float64) (lat1 lon1 lat2 lon2 d : R) :
  Routing._calculate_haversine_distance F lat1 lon1 lat2 lon2 = Returned d ->
  0 <= d <= 6371000 * PI.
Proof.
  intros H. apply haversine_returned in H. destruct H as [_ ->].
  match goal with
  | |- context [atan2 (sqrt ?a) (sqrt ?b)] =>
      pose proof (@atan2_quadrant (sqrt a) (sqrt b) (sqrt_pos a) (sqrt_pos b))
        as H
  end.
  lra.
Qed.

(** Two identical points are at distance zero. *)
Lemma computed_a_same_point (F : Float64) (lat lon : R) :
  Routing.computed_a F lat lon lat lon = 0.
Proof.
  unfold Routing.computed_a, radians. rewrite a_error_same_point.
  replace ((lat - lat) * (PI / 180) / 2) with 0 by lra.
  replace ((lon - lon) * (PI / 180) / 2) with 0 by lra.
  rewrite sin_0. simpl. lra.
Qed.

Lemma haversine_same_point (F : Float64) (lat lon : R) :
  Routing._calculate_haversine_distance F lat lon lat lon = Returned 0.
Proof.
  destruct (haversine_cases F lat lon lat lon) as [[_ E] | [Ha _]];
    rewrite computed_a_same_point in *; [| lra].
  rewrite E. f_equal.
  rewrite Rminus_0_r, sqrt_0, sqrt_1, atan2_pos by lra.
  replace (0 / 1) with 0 by lra. rewrite atan_0. lra.
Qed.

(** Over the reals the number [a] lies between 0 and 1. *)
Lemma real_a_range (lat1 lon1 lat2 lon2 : R) :
  0 <= sin (radians (lat2 - lat1) / 2) ^ 2
       + cos (radians lat1) * cos (radians lat2)
         * sin (radians (lon2 - lon1) / 2) ^ 2
    <= 1.
Proof.
  unfold radians.
  set (x := (lat2 - lat1) * (PI / 180) / 2).
  set (m := (lat1 + lat2) * (PI / 180) / 2).
  set (s := sin ((lon2 - lon1) * (PI / 180) / 2) ^ 2).
  replace (lat1 * (PI / 180)) with (m - x) by (unfold m, x; lra).
  replace (lat2 * (PI / 180)) with (m + x) by (unfold m, x; lra).
  rewrite cos_minus, cos_plus.
  pose proof (sin2_cos2 m) as Hm. pose proof (sin2_cos2 x) as Hx.
  unfold Rsqr in Hm, Hx.
  assert (Hs : 0 <= s <= 1).
  { unfold s. pose proof (SIN_bound ((lon2 - lon1) * (PI / 180) / 2)). simpl. nra. }
  set (sx := sin x) in *. set (cx := cos x) in *.
  set (sm := sin m) in *. set (cm := cos m) in *.
  assert (E : (cm * cx + sm * sx) * (cm * cx - sm * sx) = cm * cm - sx * sx).
  { replace ((cm * cx + sm * sx) * (cm * cx - sm * sx))
      with (cm * cm * (cx * cx + sx * sx - sx * sx)
            - (sm * sm + cm * cm - cm * cm) * (sx * sx)) by ring.
    replace (cx * cx + sx * sx) with 1 by lra.
    replace (sm * sm + cm * cm) with 1 by lra. ring. }
  rewrite E. simpl.
  assert (0 <= sx * sx <= 1) by nra.
  assert (0 <= cm * cm <= 1) by nra.
  nra.
Qed.

(** Without rounding error the distance functions always return. *)
Lemma exact_returns (lat1 lon1 lat2 lon2 : R) :
  exists d,
    Routing._calculate_haversine_distance exact lat1 lon1 lat2 lon2
    = Returned d.
Proof.
  destruct (haversine_cases exact lat1 lon1 lat2 lon2) as [[_ E] | [Ha _]].
  - eexists. exact E.
  - exfalso. pose proof (real_a_range lat1 lon1 lat2 lon2) as H.
    unfold Routing.computed_a in Ha. simpl a_error in Ha. lra.
Qed.

(** Empire State Building to Central Park: between 3657 and 4498 m. *)
Lemma haversine_esb_central_park (F : Float64) :
  exists d,
    Routing._calculate_haversine_distance F 40.7484 (-73.9857) 40.7829 (-73.9654)
    = Returned d
    /\ 3500 <= d <= 4500.
Proof.
  pose proof PI_lower as Hpl. pose proof PI_upper as Hpu.
  pose proof (@a_error_on_globe F 40.7484 (-73.9857) 40.7829 (-73.9654))
    as Herr.
  apply Rabs_le_inv in Herr; try lra.
  set (err := a_error F 40.7484 (-73.9857) 40.7829 (-73.9654)) in *.
  set (x := radians (40.7829 - 40.7484) / 2).
  set (y := radians (-73.9654 - -73.9857) / 2).
  set (c1 := cos (radians 40.7484)). set (c2 := cos (radians 40.7829)).
  assert (Hx : 0.0002875 <= x <= 0.000301875) by (unfold x, radians; lra).
  assert (Hy : 0.000169 <= y <= 0.000177625) by (unfold y, radians; lra).
  assert (Hc1 : 0 <= c1 <= 1) by (apply cos_radians_range; lra).
  assert (Hc2 : 0 <= c2 <= 1) by (apply cos_radians_range; lra).
  destruct (@sin_small_bounds x) as [[Hsx0 Hsx1] Hsx2]; [lra|].
  destruct (@sin_small_bounds y) as [[Hsy0 Hsy1] Hsy2]; [lra|].
  set (sx := sin x) in *. set (sy := sin y) in *.
  assert (Hx3 : x ^ 3 <= 0.000000001).
  { simpl. assert (x * 1 <= 0.001) by lra. assert (x * (x * 1) <= 0.001 * 0.001) by nra. nra. }
  assert (Hsxl : 0.00028749 <= sx) by lra.
  assert (Hsx_sq : 0.00028749 * 0.00028749 <= sx * sx) by (apply sqr_le_compat; lra).
  assert (Hsx_squ : sx * sx <= 0.000301875 * 0.000301875) by (apply sqr_le_compat; lra).
  assert (Hsy_sq0 : 0 <= sy * sy) by nra.
  assert (Hsy_squ : sy * sy <= 0.000177625 * 0.000177625) by (apply sqr_le_compat; lra).
  assert (Hcc : 0 <= c1 * c2 <= 1) by nra.
  assert (Hprod : 0 <= c1 * c2 * (sy * sy) <= sy * sy) by nra.
  set (a := Routing.computed_a F 40.7484 (-73.9857) 40.7829 (-73.9654)).
  assert (Ha : 0.000287 * 0.000287 <= a
               <= 0.000301875 * 0.000301875 + 0.000177625 * 0.000177625
                  + 0.000000000001).
  { unfold a, Routing.computed_a. fold x y c1 c2 sx sy err. simpl.
    rewrite !Rmult_1_r. lra. }
  assert (Ha01 : 0 <= a < 1) by lra.
  destruct (haversine_cases F 40.7484 (-73.9857) 40.7829 (-73.9654))
    as [[_ E] | [Hout _]]; [fold a in E | fold a in Hout; lra].
  eexists. split; [exact E |].
  assert (Hlow : 0.000287 <= atan2 (sqrt a) (sqrt (1 - a))).
  { apply hav_lower; lra. }
  assert (Hupp : atan2 (sqrt a) (sqrt (1 - a)) <= 0.000353).
  { apply hav_upper; [lra | lra |]. simpl. lra. }
  lra.
Qed.

(** Between antipodal points the real number [a] is 1, and the test
    platform that rounds it up makes the function raise. *)
Lemma antipodes_raise (lat lon lon' : R) :
  Rabs (lon - lon') = 180 ->
  Routing._calculate_haversine_distance rounds_up_at_antipodes
    lat lon (- lat) lon'
  = Raised domain_error.
Proof.
  intros Hlon.
  destruct (haversine_cases rounds_up_at_antipodes lat lon (- lat) lon')
    as [[[_ Ha] _] | [_ E]]; [exfalso | exact E].
  unfold Routing.computed_a in Ha. cbn [a_error rounds_up_at_antipodes] in Ha.
  destruct (Req_dec_T (lat + - lat) 0) as [_ | Hn]; [| lra].
  destruct (Req_dec_T (Rabs (lon - lon')) 180) as [_ | Hn]; [| lra].
  unfold radians in Ha.
  replace ((- lat - lat) * (PI / 180) / 2) with (- (lat * (PI / 180))) in Ha
    by lra.
  replace (- lat * (PI / 180)) with (- (lat * (PI / 180))) in Ha by lra.
  rewrite sin_neg, cos_neg in Ha.
  assert (Hs : sin ((lon' - lon) * (PI / 180) / 2) ^ 2 = 1).
  { unfold Rabs in Hlon. destruct (Rcase_abs (lon - lon')).
    - replace ((lon' - lon) * (PI / 180) / 2) with (PI / 2) by nra.
      rewrite sin_PI2. simpl. lra.
    - replace ((lon' - lon) * (PI / 180) / 2) with (- (PI / 2)) by nra.
      rewrite sin_neg, sin_PI2. simpl. lra. }
  rewrite Hs in Ha.
  pose proof (sin2_cos2 (lat * (PI / 180))) as H1. unfold Rsqr in H1.
  simpl in Ha. lra.
Qed.

Lemma cos_radians_globe (lat : R) : -90 <= lat <= 90 -> 0 <= cos (radians lat) <= 1.
Proof.
  intros [H0 H1]. pose proof PI_lower as Hpi. unfold radians.
  split; [| apply COS_bound].
  apply cos_ge_0; nra.
Qed.

Lemma sin_sqr_bounds (x l u : R) :
  0 <= l <= Rabs x -> Rabs x <= u <= 1 ->
  (5 / 6 * l) * (5 / 6 * l) <= sin x * sin x <= u * u.
Proof.
  intros Hl Hu.
  assert (H : forall y, 0 <= l <= y -> y <= u <= 1 ->
              (5 / 6 * l) * (5 / 6 * l) <= sin y * sin y <= u * u).
  { intros y Hy Hyu.
    destruct (@sin_small_bounds y) as [[_ Hlow] Hupp]; [lra |].
    assert (Hy3 : y ^ 3 / 6 <= y / 6) by (simpl; nra).
    assert (Hs : 5 / 6 * l <= sin y <= u) by lra.
    split; apply sqr_le_compat; lra. }
  unfold Rabs in Hl, Hu. destruct (Rcase_abs x) as [Hneg | Hpos].
  - replace (sin x) with (- sin (- x)) by (rewrite sin_neg; ring).
    replace (- sin (- x) * - sin (- x)) with (sin (- x) * sin (- x)) by ring.
    apply H; lra.
  - apply H; lra.
Qed.

(** Two points of the globe whose latitudes differ by at least a
    thousandth of a degree, and which lie within a degree of each
    other, have a distance, and it is positive. *)
Lemma haversine_positive_nearby (F : Float64) (lat1 lon1 lat2 lon2 : R) :
  -90 <= lat1 <= 90 -> -180 <= lon1 <= 180 ->
  -90 <= lat2 <= 90 -> -180 <= lon2 <= 180 ->
  0.001 <= Rabs (lat2 - lat1) <= 1 -> Rabs (lon2 - lon1) <= 1 ->
  exists d,
    Routing._calculate_haversine_distance F lat1 lon1 lat2 lon2 = Returned d
    /\ 0 < d.
Proof.
  intros Hlat1 Hlon1 Hlat2 Hlon2 Hdlat Hdlon.
  pose proof PI_lower as Hpl. pose proof PI_upper as Hpu.
  pose proof (@a_error_on_globe F lat1 lon1 lat2 lon2 Hlat1 Hlon1 Hlat2 Hlon2)
    as Herr.
  apply Rabs_le_inv in Herr.
  set (err := a_error F lat1 lon1 lat2 lon2) in *.
  set (x := radians (lat2 - lat1) / 2).
  set (y := radians (lon2 - lon1) / 2).
  assert (Hx : 0.000008 <= Rabs x <= 0.00875).
  { unfold x, radians.
    replace ((lat2 - lat1) * (PI / 180) / 2)
      with ((lat2 - lat1) * (PI / 360)) by lra.
    rewrite Rabs_mult, (Rabs_pos_eq (PI / 360)) by lra.
    pose proof (Rabs_pos (lat2 - lat1)). nra. }
  assert (Hy : 0 <= Rabs y <= 0.00875).
  { unfold y, radians.
    replace ((lon2 - lon1) * (PI / 180) / 2)
      with ((lon2 - lon1) * (PI / 360)) by lra.
    rewrite Rabs_mult, (Rabs_pos_eq (PI / 360)) by lra.
    pose proof (Rabs_pos (lon2 - lon1)). nra. }
  destruct (@sin_sqr_bounds x 0.000008 0.00875) as [Hsx1 Hsx2]; [lra | lra |].
  destruct (@sin_sqr_bounds y 0 0.00875) as [Hsy1 Hsy2]; [lra | lra |].
  pose proof (cos_radians_globe Hlat1) as Hc1.
  pose proof (cos_radians_globe Hlat2) as Hc2.
  set (c1 := cos (radians lat1)) in *. set (c2 := cos (radians lat2)) in *.
  set (sx := sin x) in *. set (sy := sin y) in *.
  assert (Hsy0 : 0 <= sy * sy) by nra.
  assert (Hcc : 0 <= c1 * c2 <= 1) by nra.
  assert (Hprod : 0 <= c1 * c2 * (sy * sy) <= sy * sy) by nra.
  set (a := Routing.computed_a F lat1 lon1 lat2 lon2).
  assert (Ha : 0.00000000004 <= a <= 0.001).
  { unfold a, Routing.computed_a. fold x y c1 c2 sx sy err. simpl.
    rewrite !Rmult_1_r. lra. }
  destruct (haversine_cases F lat1 lon1 lat2 lon2)
    as [[_ E] | [Hout _]]; [fold a in E | fold a in Hout; lra].
  eexists. split; [exact E |].
  assert (Hlow : 0.000006 <= atan2 (sqrt a) (sqrt (1 - a))).
  { apply hav_lower; lra. }
  lra.
Qed.

End Trig.
(** ** Routing: distances *)

Module RoutingFacts.

Import Py PyMath Routing.
Open Scope R_scope.

(** What [calculate_route] does, by the outcome of the distance: the
    session is obtained first; an exception of the distance leaves the
    method; otherwise the route is built from the distance.  Over the
    reals the three step distances add up to the total exactly. *)
Lemma calculate_route_spec (F : Float64)
    (origin_lat origin_lon dest_lat dest_lon : R) (mode : string) :
  match _calculate_haversine_distance F origin_lat origin_lon dest_lat dest_lon
  with
  | Returned d =>
      exists r,
        (forall self,
            calculate_route F origin_lat origin_lon dest_lat dest_lon mode self
            = (Returned r, snd (_get_session self)))
        /\ RouteResult.distance_meters r = d
        /\ RouteResult.duration_seconds r = d / 1000 / speed_kmh mode * 3600
        /\ RouteResult.mode r = mode
        /\ steps_distance r = d
        /\ List.length (RouteResult.steps r) = 3%nat
        /\ RoutingExt.linked (origin_lat, origin_lon) (RouteResult.steps r)
             (dest_lat, dest_lon)
  | Raised e =>
      forall self,
        calculate_route F origin_lat origin_lon dest_lat dest_lon mode self
        = (Raised e, snd (_get_session self))
  end.
Proof.
  unfold calculate_route, bind, lift, ret.
  destruct (_calculate_haversine_distance F origin_lat origin_lon dest_lat
              dest_lon) as [d | e].
  - eexists. split.
    + intros self. unfold _get_session. destruct (session self); reflexivity.
    + cbn [RouteResult.distance_meters RouteResult.duration_seconds
           RouteResult.mode RouteResult.steps List.length RoutingExt.linked
           RouteStep.start_location RouteStep.end_location].
      repeat split. unfold steps_distance. simpl. lra.
  - intros self. unfold _get_session. destruct (session self); reflexivity.
Qed.

Lemma get_session_state (self : RoutingServer) :
  session (snd (_get_session self)) = Some tt.
Proof.
  unfold _get_session. destruct (session self) as [[] |] eqn:E; simpl;
    [exact E | reflexivity].
Qed.

Lemma calculate_route_returned (F : Float64) (self self' : RoutingServer)
    (origin_lat origin_lon dest_lat dest_lon : R) (mode : string)
    (r : RouteResult.t) :
  calculate_route F origin_lat origin_lon dest_lat dest_lon mode self
  = (Returned r, self') ->
  _calculate_haversine_distance F origin_lat origin_lon dest_lat dest_lon
  = Returned (RouteResult.distance_meters r)
  /\ self' = snd (_get_session self)
  /\ RouteResult.duration_seconds r
     = RouteResult.distance_meters r / 1000 / speed_kmh mode * 3600
  /\ RouteResult.mode r = mode
  /\ steps_distance r = RouteResult.distance_meters r
  /\ List.length (RouteResult.steps r) = 3%nat
  /\ RoutingExt.linked (origin_lat, origin_lon) (RouteResult.steps r)
       (dest_lat, dest_lon).
Proof.
  intros H.
  pose proof (calculate_route_spec F origin_lat origin_lon dest_lat dest_lon mode)
    as Hs.
  destruct (_calculate_haversine_distance F origin_lat origin_lon dest_lat
              dest_lon) as [d | e].
  - destruct Hs as (r0 & Hrun & Hd & Ht & Hm & Hsum & Hlen & Hlink).
    rewrite Hrun in H. injection H as <- <-. subst d. repeat split; assumption.
  - rewrite Hs in H. discriminate.
Qed.

(** The only exception of [calculate_route] is the one of [math.sqrt],
    and it comes after the session has been obtained. *)
Lemma calculate_route_raised (F : Float64) (self self' : RoutingServer)
    (origin_lat origin_lon dest_lat dest_lon : R) (mode : string)
    (e : exn fstring) :
  calculate_route F origin_lat origin_lon dest_lat dest_lon mode self
  = (Raised e, self') ->
  e = domain_error /\ self' = snd (_get_session self).
Proof.
  intros H.
  pose proof (calculate_route_spec F origin_lat origin_lon dest_lat dest_lon mode)
    as Hs.
  destruct (_calculate_haversine_distance F origin_lat origin_lon dest_lat
              dest_lon) as [d | e0] eqn:Ed.
  - destruct Hs as (r0 & Hrun & _). rewrite Hrun in H. discriminate.
  - rewrite Hs in H. injection H as <- <-.
    split; [exact (Trig.haversine_raised _ _ _ _ _ Ed) | reflexivity].
Qed.

(** The exception is not out of reach: on the test platform that
    rounds [a] up between antipodal points, the route from (-87.5, 0)
    to (87.5, 180) raises, the session having been obtained. *)
Lemma calculate_route_antipodes (self : RoutingServer) (mode : string) :
  calculate_route rounds_up_at_antipodes (-87.5) 0 87.5 180 mode self
  = (Raised domain_error, snd (_get_session self)).
Proof.
  pose proof (calculate_route_spec rounds_up_at_antipodes (-87.5) 0 87.5 180
                mode) as Hs.
  assert (E : _calculate_haversine_distance rounds_up_at_antipodes
                (-87.5) 0 87.5 180 = Raised domain_error).
  { replace 87.5 with (- (-87.5)) by lra. apply Trig.antipodes_raise.
    unfold Rabs. destruct (Rcase_abs (0 - 180)); lra. }
  rewrite E in Hs. apply Hs.
Qed.

(** Without rounding error [calculate_route] returns. *)
Lemma calculate_route_exact (self : RoutingServer)
    (origin_lat origin_lon dest_lat dest_lon : R) (mode : string) :
  exists r,
    calculate_route exact origin_lat origin_lon dest_lat dest_lon mode self
    = (Returned r, snd (_get_session self)).
Proof.
  pose proof (calculate_route_spec exact origin_lat origin_lon dest_lat dest_lon
                mode) as Hs.
  destruct (Trig.exact_returns origin_lat origin_lon dest_lat dest_lon)
    as (d & Hd).
  rewrite Hd in Hs. destruct Hs as (r & Hrun & _). exists r. apply Hrun.
Qed.

(** The tolerance of one meter survives rounding: whatever the
    arithmetic does, as long as the relative error of each operation is
    at most [u] (2^-53 for binary64, anything up to 10^-10 here), the
    rounded sum of the rounded step distances is within one meter of a
    total of up to 10^8 meters; the distances of [calculate_route] are
    below 2.55 * 10^7. *)
Section Rounding.

Variable rnd : R -> R.
Variable u : R.
Hypothesis u_small : 0 <= u <= / 10 ^ 10.
Hypothesis rnd_error : forall x, Rabs (rnd x - x) <= u * Rabs x.

Lemma rnd_within (x B : R) :
  Rabs x <= B -> - (u * B) <= rnd x - x <= u * B.
Proof.
  intros HB. pose proof (rnd_error x) as H.
  assert (u * Rabs x <= u * B) by (apply Rmult_le_compat_l; lra).
  apply Trig.Rabs_le_inv. lra.
Qed.

Lemma rounded_step (d c M K : R) :
  Rabs d <= M -> K = u * M -> 0 < c <= 1 ->
  Rabs (rnd (d * rnd c) - c * d) <= 3 * K
  /\ Rabs (rnd (d * rnd c)) <= c * M + 3 * K.
Proof.
  intros Hd -> Hc.
  assert (HM : 0 <= M) by (pose proof (Rabs_pos d); lra).
  assert (Hu : u <= 1) by (simpl in u_small; lra).
  assert (Hc1 : Rabs c <= c) by (rewrite Rabs_pos_eq; lra).
  pose proof (rnd_within c Hc1) as He.
  set (e := rnd c - c) in He.
  assert (Hw : Rabs (d * e) <= M * (u * c)).
  { rewrite Rabs_mult. apply Rmult_le_compat; try apply Rabs_pos; [exact Hd |].
    apply Rabs_le. lra. }
  assert (Hp : Rabs (d * rnd c) <= (c + u * c) * M).
  { rewrite Rabs_mult, Rmult_comm.
    apply Rmult_le_compat; try apply Rabs_pos; [| exact Hd].
    apply Rabs_le. unfold e in He. lra. }
  assert (Hcu : c + u * c <= 2) by nra.
  assert (Hp' : Rabs (d * rnd c) <= 2 * M).
  { apply Rle_trans with ((c + u * c) * M); [exact Hp |].
    apply Rmult_le_compat_r; lra. }
  pose proof (rnd_within _ Hp') as Hf.
  set (f := rnd (d * rnd c) - d * rnd c) in Hf.
  replace (rnd (d * rnd c) - c * d) with (f + d * e) by (unfold f, e; ring).
  assert (Hde := @Trig.Rabs_le_inv _ _ Hw).
  assert (uc : u * c <= u) by nra.
  assert (Muc : M * (u * c) <= u * M) by nra.
  assert (Huu : u * (2 * M) <= 2 * (u * M)) by lra.
  assert (0 <= u * M) by nra.
  split.
  - apply Rabs_le. nra.
  - replace (rnd (d * rnd c)) with (c * d + (f + d * e)) by (unfold f, e; ring).
    assert (Hcd : - (c * M) <= c * d <= c * M).
    { apply Trig.Rabs_le_inv in Hd. nra. }
    apply Rabs_le. nra.
Qed.

Lemma steps_sum_survives_rounding (distance : R) :
  Rabs distance <= 10 ^ 8 ->
  Rabs (rounded_steps_distance rnd distance - distance) <= 1.
Proof.
  intros HD. unfold rounded_steps_distance.
  set (M := Rabs distance) in *. set (K := u * M).
  assert (HM : 0 <= M) by apply Rabs_pos.
  assert (Hu : 0 <= u <= / 10 ^ 10) by exact u_small.
  assert (HK : 0 <= K <= / 100).
  { unfold K. simpl in Hu, HD |- *. nra. }
  assert (HKM : K <= M) by (unfold K; simpl in Hu; nra).
  destruct (@rounded_step distance 0.3 M K (Rle_refl _) eq_refl) as [H1 B1];
    [lra |].
  destruct (@rounded_step distance 0.5 M K (Rle_refl _) eq_refl) as [H2 B2];
    [lra |].
  destruct (@rounded_step distance 0.2 M K (Rle_refl _) eq_refl) as [H3 B3];
    [lra |].
  set (s1 := rnd (distance * rnd 0.3)) in *.
  set (s2 := rnd (distance * rnd 0.5)) in *.
  set (s3 := rnd (distance * rnd 0.2)) in *.
  apply Trig.Rabs_le_inv in H1, H2, H3, B1, B2, B3.
  assert (A1 : Rabs (0 + s1) <= 4 * M) by (apply Rabs_le; lra).
  pose proof (rnd_within _ A1) as E1. set (a1 := rnd (0 + s1)) in *.
  replace (u * (4 * M)) with (4 * K) in E1 by (unfold K; ring).
  assert (A2 : Rabs (a1 + s2) <= 12 * M) by (apply Rabs_le; lra).
  pose proof (rnd_within _ A2) as E2. set (a2 := rnd (a1 + s2)) in *.
  replace (u * (12 * M)) with (12 * K) in E2 by (unfold K; ring).
  assert (A3 : Rabs (a2 + s3) <= 30 * M) by (apply Rabs_le; lra).
  pose proof (rnd_within _ A3) as E3. set (a3 := rnd (a2 + s3)) in *.
  replace (u * (30 * M)) with (30 * K) in E3 by (unfold K; ring).
  apply Rabs_le. lra.
Qed.

End Rounding.

(** C7. For every route that [calculate_route] returns, the distances
    of the steps of that route sum to its total [distance_meters] to
    within 1 meter. *)
Theorem calculate_route_steps_sum (F : Float64) (self self' : RoutingServer)
    (origin_lat origin_lon dest_lat dest_lon : R) (mode : string)
    (r : RouteResult.t) :
  calculate_route F origin_lat origin_lon dest_lat dest_lon mode self
  = (Returned r, self') ->
  Rabs (steps_distance r - RouteResult.distance_meters r) <= 1.
Proof.
  intros Hrun. apply calculate_route_returned in Hrun.
  destruct Hrun as (_ & _ & _ & _ & Hsum & _).
  rewrite Hsum. unfold Rminus. rewrite Rplus_opp_r, Rabs_R0. lra.
Qed.

(** The walking route of the unit test. *)
Lemma calculate_route_steps_sum_witness :
  exists r self',
    calculate_route exact 40.7484 (-73.9857) 40.7589 (-73.9851) "walking"
      {| api_key := ""; base_url := "http://router.project-osrm.org";
         session := None |}
    = (Returned r, self')
    /\ Rabs (steps_distance r - RouteResult.distance_meters r) <= 1.
Proof.
  destruct (calculate_route_exact
              {| api_key := ""; base_url := "http://router.project-osrm.org";
                 session := None |}
              40.7484 (-73.9857) 40.7589 (-73.9851) "walking") as (r & Hrun).
  exists r. eexists. split; [exact Hrun |].
  exact (@calculate_route_steps_sum _ _ _ _ _ _ _ _ _ Hrun).
Defined.

(** C8. The Haversine distance of the routing server and of the POI
    server is 0 between a point and itself, and lies in [3500, 4500]
    meters between the Empire State Building (40.7484, -73.9857) and
    Central Park (40.7829, -73.9654): at these arguments the functions
    return, whatever the rounding. *)
Theorem haversine_zero_and_landmarks (F : Float64) :
  (forall lat lon : R,
      _calculate_haversine_distance F lat lon lat lon = Returned 0)
  /\ (forall lat lon : R, POI._calculate_distance F lat lon lat lon = Returned 0)
  /\ (exists d,
        _calculate_haversine_distance F 40.7484 (-73.9857) 40.7829 (-73.9654)
        = Returned d
        /\ 3500 <= d <= 4500)
  /\ (exists d,
        POI._calculate_distance F 40.7484 (-73.9857) 40.7829 (-73.9654)
        = Returned d
        /\ 3500 <= d <= 4500).
Proof.
  split; [exact (Trig.haversine_same_point F) |].
  split; [intros lat lon; rewrite Trig.poi_distance_is_haversine;
          apply Trig.haversine_same_point |].
  split; [exact (Trig.haversine_esb_central_park F) |].
  destruct (Trig.haversine_esb_central_park F) as (d & Hd & Hr).
  exists d. split; [rewrite Trig.poi_distance_is_haversine; exact Hd | exact Hr].
Qed.

End RoutingFacts.
(** ** POI server: nearby search *)

Module POIFacts.

Import Py PyMath POI.
Open Scope R_scope.

(** *** Float comparisons *)

Lemma fle_true (x y : R) : fle x y = true <-> x <= y.
Proof. unfold fle. destruct (Rle_dec x y); split; intros; try discriminate; tauto. Qed.

Lemma flt_true (x y : R) : flt x y = true <-> x < y.
Proof. unfold flt. destruct (Rlt_dec x y); split; intros; try discriminate; tauto. Qed.

Lemma flt_false (x y : R) : flt x y = false <-> y <= x.
Proof.
  unfold flt. destruct (Rlt_dec x y); split; intros; try discriminate; try reflexivity; lra.
Qed.

Lemma feq_true (x y : R) : feq x y = true <-> x = y.
Proof. unfold feq. destruct (Req_dec_T x y); split; intros; try discriminate; tauto. Qed.

Lemma feq_false (x y : R) : feq x y = false <-> x <> y.
Proof. unfold feq. destruct (Req_dec_T x y); split; intros; try discriminate; tauto. Qed.

Lemma returned_inj {S T A : Type} (a b : A) (s s' : S) :
  (@Returned T A a, s) = (Returned b, s') -> a = b.
Proof. intros H. injection H as H _. exact H. Qed.

(** *** Slices *)

Lemma slice_to_length {A : Type} (n : Z) (l : list A) :
  (0 <= n)%Z -> (Z.of_nat (List.length (slice_to n l)) <= n)%Z.
Proof.
  intros Hn. unfold slice_to.
  destruct (Z.leb_spec 0 n); [| lia].
  rewrite length_firstn. lia.
Qed.

Lemma slice_to_length_mono {A : Type} (n : Z) (l1 l2 : list A) :
  (List.length l1 <= List.length l2)%nat ->
  (List.length (slice_to n l1) <= List.length (slice_to n l2))%nat.
Proof.
  intros H. unfold slice_to.
  destruct (0 <=? n)%Z; rewrite !length_firstn; lia.
Qed.

Lemma slice_to_all {A : Type} (n : Z) (l : list A) :
  (Z.of_nat (List.length l) <= n)%Z -> slice_to n l = l.
Proof.
  intros H. unfold slice_to.
  destruct (Z.leb_spec 0 n); [| lia].
  apply firstn_all2. lia.
Qed.

Lemma firstn_incl {A : Type} (n : nat) (l : list A) (x : A) :
  In x (firstn n l) -> In x l.
Proof.
  intros H. rewrite <- (firstn_skipn n l). apply in_or_app. left. exact H.
Qed.

Lemma slice_to_incl {A : Type} (n : Z) (l : list A) (x : A) :
  In x (slice_to n l) -> In x l.
Proof. unfold slice_to. destruct (0 <=? n)%Z; apply firstn_incl. Qed.

(** *** The stable sort *)

Section SortBy.

Variable A : Type.
Variable k : A -> key.

Lemma key_lt_asym (a b : key) : key_lt a b = true -> key_lt b a = false.
Proof.
  destruct a as [x |], b as [y |]; simpl; try reflexivity; try discriminate.
  rewrite flt_true, flt_false. lra.
Qed.

Lemma key_ord_trans (x y z : A) :
  key_ord k x y -> key_ord k y z -> key_ord k x z.
Proof.
  unfold key_ord.
  destruct (k x) as [a |], (k y) as [b |], (k z) as [c |]; simpl;
    try reflexivity; try discriminate.
  rewrite !flt_false. lra.
Qed.

Lemma insert_by_perm (x : A) (l : list A) :
  Permutation (insert_by k x l) (x :: l).
Proof.
  induction l as [| y l IH]; simpl.
  - apply Permutation_refl.
  - destruct (key_lt (k y) (k x)).
    + apply Permutation_trans with (y :: x :: l).
      * apply perm_skip. exact IH.
      * apply perm_swap.
    + apply Permutation_refl.
Qed.

Lemma sort_by_perm (l : list A) : Permutation (sort_by k l) l.
Proof.
  induction l as [| x l IH]; simpl.
  - apply perm_nil.
  - apply Permutation_trans with (x :: sort_by k l).
    + apply insert_by_perm.
    + apply perm_skip. exact IH.
Qed.

Lemma sort_by_length (l : list A) : List.length (sort_by k l) = List.length l.
Proof. apply Permutation_length, sort_by_perm. Qed.

Lemma sort_by_In (l : list A) (x : A) : In x (sort_by k l) <-> In x l.
Proof.
  split; apply Permutation_in; [| apply Permutation_sym]; apply sort_by_perm.
Qed.

Lemma insert_by_sorted (x : A) (l : list A) :
  StronglySorted (key_ord k) l -> StronglySorted (key_ord k) (insert_by k x l).
Proof.
  induction 1 as [| y l Hl IH Hy]; simpl.
  - constructor; constructor.
  - destruct (key_lt (k y) (k x)) eqn:E.
    + constructor; [exact IH |].
      rewrite Forall_forall in *. intros z Hz.
      apply (Permutation_in _ (insert_by_perm x l)) in Hz.
      destruct Hz as [<- | Hz].
      * unfold key_ord. apply key_lt_asym. exact E.
      * apply Hy. exact Hz.
    + constructor; [constructor; assumption |].
      constructor; [exact E |].
      rewrite Forall_forall in *. intros z Hz.
      apply key_ord_trans with y; [exact E | apply Hy; exact Hz].
Qed.

Lemma sort_by_sorted (l : list A) : StronglySorted (key_ord k) (sort_by k l).
Proof.
  induction l as [| x l IH]; simpl.
  - constructor.
  - apply insert_by_sorted. exact IH.
Qed.

End SortBy.

(** Two distinct members of a list stand in one order or the other. *)
Lemma In_two_split {A : Type} (a b : A) (l : list A) :
  In a l -> In b l -> a <> b ->
  exists l1 l2 l3,
    l = l1 ++ a :: l2 ++ b :: l3 \/ l = l1 ++ b :: l2 ++ a :: l3.
Proof.
  intros Ha Hb Hab.
  destruct (in_split _ _ Ha) as (l1 & l2 & ->).
  apply in_app_or in Hb. destruct Hb as [Hb | [Hb | Hb]].
  - destruct (in_split _ _ Hb) as (m1 & m2 & ->).
    exists m1, m2, l2. right. rewrite <- app_assoc. reflexivity.
  - contradiction.
  - destruct (in_split _ _ Hb) as (m1 & m2 & ->).
    exists l1, m1, m2. left. reflexivity.
Qed.

Lemma StronglySorted_split {A : Type} (R : A -> A -> Prop) (a b : A)
    (l1 l2 l3 : list A) :
  StronglySorted R (l1 ++ a :: l2 ++ b :: l3) -> R a b.
Proof.
  induction l1 as [| x l1 IH]; simpl; intros H.
  - apply StronglySorted_inv in H. destruct H as [_ H].
    rewrite Forall_forall in H. apply H.
    apply in_or_app. right. left. reflexivity.
  - apply StronglySorted_inv in H. apply IH, H.
Qed.


(** *** The loop of [search_nearby] *)

Lemma nearby_loop_cons (F : Float64) (lat lon r : R) (cat : option string)
    (p : POIResult) (rest : list POIResult) :
  nearby_loop F lat lon r cat (p :: rest)
  = match distance_from F lat lon p with
    | Raised e => Raised e
    | Returned d =>
        match nearby_loop F lat lon r cat rest with
        | Raised e => Raised e
        | Returned l =>
            Returned (if fle d r && category_matches cat p
                      then with_distance p d :: l else l)
        end
    end.
Proof.
  cbn [nearby_loop]. unfold distance_from.
  destruct (_calculate_distance F lat lon (latitude p) (longitude p));
    [| reflexivity].
  destruct (nearby_loop F lat lon r cat rest); [| reflexivity].
  destruct (fle a r && category_matches cat p); reflexivity.
Qed.

(** The only exception of a distance is the one of [math.sqrt]. *)
Lemma distance_from_raised (F : Float64) (lat lon : R) (p : POIResult)
    (e : exn fstring) :
  distance_from F lat lon p = Raised e -> e = domain_error.
Proof. apply Trig.haversine_raised. Qed.

(** The loop returns exactly when the distance of every record can be
    computed, whatever the radius and the category are. *)
Lemma nearby_loop_returns (F : Float64) (lat lon r : R) (cat : option string)
    (pois : list POIResult) :
  (exists l, nearby_loop F lat lon r cat pois = Returned l)
  <-> forall p, In p pois -> exists d, distance_from F lat lon p = Returned d.
Proof.
  induction pois as [| p pois IH].
  - split; [intros _ p [] | intros _; exists []; reflexivity].
  - rewrite nearby_loop_cons. split.
    + intros [l Hl] q [Heq | Hq].
      * subst q.
        destruct (distance_from F lat lon p) as [d |]; [| discriminate].
        exists d. reflexivity.
      * destruct (distance_from F lat lon p); [| discriminate].
        destruct (nearby_loop F lat lon r cat pois) as [l' |] eqn:E;
          [| discriminate].
        apply IH; [exists l'; reflexivity | exact Hq].
    + intros H. destruct (H p (or_introl eq_refl)) as [d ->].
      destruct (proj2 IH) as [l ->].
      * intros q Hq. apply H. right. exact Hq.
      * eexists. reflexivity.
Qed.

Lemma nearby_loop_raised (F : Float64) (lat lon r : R) (cat : option string)
    (pois : list POIResult) (e : exn fstring) :
  nearby_loop F lat lon r cat pois = Raised e -> e = domain_error.
Proof.
  induction pois as [| p pois IH]; [discriminate |].
  rewrite nearby_loop_cons.
  destruct (distance_from F lat lon p) as [d | e'] eqn:Ed.
  - destruct (nearby_loop F lat lon r cat pois); [discriminate |].
    intros H. apply IH. exact H.
  - intros H. injection H as <-. apply (distance_from_raised _ _ _ _ Ed).
Qed.

Lemma nearby_loop_In (F : Float64) (lat lon r : R) (cat : option string)
    (pois l : list POIResult) (q : POIResult) :
  nearby_loop F lat lon r cat pois = Returned l ->
  (In q l <->
   exists p d, In p pois
               /\ distance_from F lat lon p = Returned d
               /\ q = with_distance p d
               /\ d <= r
               /\ category_matches cat p = true).
Proof.
  revert l. induction pois as [| p pois IH]; intros l.
  - intros H. injection H as <-.
    split; [contradiction | intros (p & d & [] & _)].
  - rewrite nearby_loop_cons.
    destruct (distance_from F lat lon p) as [d |] eqn:Ed; [| discriminate].
    destruct (nearby_loop F lat lon r cat pois) as [l' |]; [| discriminate].
    specialize (IH l' eq_refl).
    intros H. injection H as <-.
    destruct (fle d r && category_matches cat p) eqn:E.
    + apply andb_true_iff in E. destruct E as [Er Ec]. apply fle_true in Er.
      simpl. rewrite IH. split.
      * intros [<- | (p' & d' & Hin & Hq)].
        -- exists p, d. repeat split; auto.
        -- exists p', d'. split; [right; exact Hin | exact Hq].
      * intros (p' & d' & [Heq | Hin] & Hd & Hq & Hr & Hc).
        -- subst p'. left. rewrite Ed in Hd. injection Hd as <-.
           symmetry. exact Hq.
        -- right. exists p', d'. repeat split; assumption.
    + rewrite IH. split.
      * intros (p' & d' & Hin & Hq). exists p', d'.
        split; [right; exact Hin | exact Hq].
      * intros (p' & d' & [Heq | Hin] & Hd & Hq & Hr & Hc).
        -- subst p'. rewrite Ed in Hd. injection Hd as <-.
           apply fle_true in Hr. rewrite Hr, Hc in E. discriminate.
        -- exists p', d'. repeat split; assumption.
Qed.

Lemma nearby_loop_length (F : Float64) (lat lon r : R) (cat : option string)
    (pois l : list POIResult) :
  nearby_loop F lat lon r cat pois = Returned l ->
  (List.length l <= List.length pois)%nat.
Proof.
  revert l. induction pois as [| p pois IH]; intros l.
  - intros H. injection H as <-. simpl. lia.
  - rewrite nearby_loop_cons.
    destruct (distance_from F lat lon p) as [d |]; [| discriminate].
    destruct (nearby_loop F lat lon r cat pois) as [l' |]; [| discriminate].
    specialize (IH l' eq_refl). intros H. injection H as <-.
    destruct (fle d r && category_matches cat p); simpl; lia.
Qed.

(** A search that returns for one radius returns for every radius, and
    a larger radius keeps at least as many records. *)
Lemma nearby_loop_radius (F : Float64) (lat lon r1 r2 : R)
    (cat : option string) (pois l1 : list POIResult) :
  nearby_loop F lat lon r1 cat pois = Returned l1 ->
  exists l2,
    nearby_loop F lat lon r2 cat pois = Returned l2
    /\ (r1 <= r2 -> (List.length l1 <= List.length l2)%nat).
Proof.
  revert l1. induction pois as [| p pois IH]; intros l1.
  - intros H. injection H as <-. exists []. split; [reflexivity | intros; simpl; lia].
  - rewrite !nearby_loop_cons.
    destruct (distance_from F lat lon p) as [d |]; [| discriminate].
    destruct (nearby_loop F lat lon r1 cat pois) as [l1' |]; [| discriminate].
    destruct (IH l1' eq_refl) as (l2' & -> & Hlen).
    intros H. injection H as <-. eexists. split; [reflexivity |].
    intros Hr. specialize (Hlen Hr).
    destruct (fle d r1) eqn:E1.
    + apply fle_true in E1.
      assert (E2 : fle d r2 = true) by (apply fle_true; lra).
      rewrite E2. simpl. destruct (category_matches cat p); simpl; lia.
    + simpl. destruct (fle d r2 && category_matches cat p); simpl; lia.
Qed.

(** *** What holds of every result of [search_nearby] *)

Lemma search_nearby_returned (F : Float64) (self self' : POIServer)
    (lat lon r : R) (cat : option string) (limit : Z) (l : list POIResult) :
  search_nearby F lat lon r cat limit self = (Returned l, self') ->
  self' = self
  /\ exists found,
       nearby_loop F lat lon r cat (_mock_pois self) = Returned found
       /\ l = slice_to limit (sort_by sort_key found).
Proof.
  unfold search_nearby.
  destruct (nearby_loop F lat lon r cat (_mock_pois self)) as [found |];
    [| discriminate].
  intros H. injection H as <- <-. split; [reflexivity |].
  exists found. split; reflexivity.
Qed.

Lemma search_nearby_run (F : Float64) (self : POIServer)
    (lat lon r : R) (cat : option string) (limit : Z) (found : list POIResult) :
  nearby_loop F lat lon r cat (_mock_pois self) = Returned found ->
  search_nearby F lat lon r cat limit self
  = (Returned (slice_to limit (sort_by sort_key found)), self).
Proof. intros H. unfold search_nearby. rewrite H. reflexivity. Qed.

(** The only exception of [search_nearby] is the one of [math.sqrt];
    the server is as it was. *)
Lemma search_nearby_raised (F : Float64) (self self' : POIServer)
    (lat lon r : R) (cat : option string) (limit : Z) (e : exn fstring) :
  search_nearby F lat lon r cat limit self = (Raised e, self') ->
  e = domain_error /\ self' = self.
Proof.
  unfold search_nearby.
  destruct (nearby_loop F lat lon r cat (_mock_pois self)) as [found |] eqn:E;
    [discriminate |].
  intros H. injection H as <- <-.
  split; [exact (nearby_loop_raised _ _ _ _ _ _ E) | reflexivity].
Qed.

(** The exception is not out of reach: on the test platform that
    rounds [a] up between antipodal points, a search centred at the
    antipode of the Starbucks record raises. *)
Lemma search_nearby_antipode (r : R) (cat : option string) (limit : Z) :
  search_nearby rounds_up_at_antipodes (-40.7411) 106.0103 r cat limit
    (__init__ "")
  = (Raised domain_error, __init__ "").
Proof.
  destruct (search_nearby rounds_up_at_antipodes (-40.7411) 106.0103 r cat
              limit (__init__ "")) as [[l | e] s] eqn:E.
  - exfalso. apply search_nearby_returned in E.
    destruct E as (_ & found & Hf & _).
    destruct (proj1 (nearby_loop_returns _ _ _ _ _ _) (ex_intro _ found Hf)
                starbucks_reserve) as [d Hd]; [simpl; tauto |].
    unfold distance_from in Hd. rewrite Trig.poi_distance_is_haversine in Hd.
    cbn [latitude longitude starbucks_reserve] in Hd.
    assert (E : Routing._calculate_haversine_distance rounds_up_at_antipodes
                  (-40.7411) 106.0103 40.7411 (-73.9897) = Raised domain_error).
    { replace 40.7411 with (- (-40.7411)) by lra. apply Trig.antipodes_raise.
      replace (106.0103 - -73.9897) with 180 by lra.
      rewrite Rabs_pos_eq; lra. }
    rewrite E in Hd. discriminate.
  - apply search_nearby_raised in E. destruct E as [-> ->]. reflexivity.
Qed.

(** Without rounding error the search returns. *)
Lemma search_nearby_exact (self : POIServer) (lat lon r : R)
    (cat : option string) (limit : Z) :
  exists found,
    nearby_loop exact lat lon r cat (_mock_pois self) = Returned found
    /\ search_nearby exact lat lon r cat limit self
       = (Returned (slice_to limit (sort_by sort_key found)), self).
Proof.
  destruct (proj2 (nearby_loop_returns exact lat lon r cat (_mock_pois self)))
    as [found Hf].
  - intros p _. apply Trig.exact_returns.
  - exists found. split; [exact Hf | apply search_nearby_run, Hf].
Qed.

(** At most [limit] records, for a limit that is not negative. *)
Lemma search_nearby_at_most_limit (F : Float64) (self self' : POIServer)
    (lat lon r : R) (cat : option string) (limit : Z) (l : list POIResult) :
  (0 <= limit)%Z ->
  search_nearby F lat lon r cat limit self = (Returned l, self') ->
  (Z.of_nat (List.length l) <= limit)%Z.
Proof.
  intros Hl H. apply search_nearby_returned in H.
  destruct H as (_ & found & _ & ->). apply slice_to_length, Hl.
Qed.

(** Every record carries its distance, which is within the radius. *)
Lemma search_nearby_within_radius (F : Float64) (self self' : POIServer)
    (lat lon r : R) (cat : option string) (limit : Z) (l : list POIResult)
    (q : POIResult) :
  search_nearby F lat lon r cat limit self = (Returned l, self') ->
  In q l ->
  exists d, distance_meters q = Some d /\ d <= r.
Proof.
  intros H Hq. apply search_nearby_returned in H.
  destruct H as (_ & found & Hf & ->).
  apply slice_to_incl, sort_by_In in Hq.
  apply (nearby_loop_In _ _ _ _ _ _ q Hf) in Hq.
  destruct Hq as (p & d & _ & _ & -> & Hd & _).
  exists d. split; [reflexivity | exact Hd].
Qed.

Lemma firstn_sorted {A : Type} (R : A -> A -> Prop) (n : nat) (l : list A) :
  StronglySorted R l -> StronglySorted R (firstn n l).
Proof.
  intros H. revert n. induction H as [| x l Hl IH Hx]; intros [| n]; simpl;
    try constructor.
  - apply IH.
  - rewrite Forall_forall in *. intros y Hy. apply Hx.
    apply firstn_incl in Hy. exact Hy.
Qed.

(** The records are in ascending order of the sort key. *)
Lemma search_nearby_sorted_by_key (F : Float64) (self self' : POIServer)
    (lat lon r : R) (cat : option string) (limit : Z) (l : list POIResult) :
  search_nearby F lat lon r cat limit self = (Returned l, self') ->
  StronglySorted (key_ord sort_key) l.
Proof.
  intros H. apply search_nearby_returned in H.
  destruct H as (_ & found & _ & ->).
  unfold slice_to. destruct (0 <=? limit)%Z; apply firstn_sorted, sort_by_sorted.
Qed.

Lemma distance_le_trans (p q t : POIResult) :
  distance_le p q -> distance_le q t -> distance_le p t.
Proof.
  unfold distance_le.
  destruct (distance_meters p), (distance_meters q), (distance_meters t);
    try tauto. lra.
Qed.

(** *** The mock database seen from Manhattan *)

Lemma Rabs_between (x l u : R) :
  (l <= x <= u \/ l <= - x <= u) -> 0 <= l -> l <= Rabs x <= u.
Proof. intros H Hl. unfold Rabs. destruct (Rcase_abs x); lra. Qed.

(** From a centre in the square of the records, at a latitude that
    differs from that of every record by a thousandth of a degree at
    least, every record of the mock database has a distance, and it is
    positive. *)
Lemma mock_distances_positive (F : Float64) (lat lon : R) (p : POIResult) :
  40.70 <= lat <= 40.79 -> -74.01 <= lon <= -73.96 ->
  (forall q, In q _initialize_mock_pois ->
             0.001 <= latitude q - lat \/ 0.001 <= lat - latitude q) ->
  In p _initialize_mock_pois ->
  exists d, distance_from F lat lon p = Returned d /\ 0 < d.
Proof.
  intros Hlat Hlon Hfar Hp. specialize (Hfar p Hp).
  unfold distance_from. rewrite Trig.poi_distance_is_haversine.
  assert (Hbox : 40.70 <= latitude p <= 40.79
                 /\ -74.01 <= longitude p <= -73.96).
  { simpl in Hp.
    repeat (destruct Hp as [<- | Hp]; [simpl; lra |]). contradiction. }
  destruct Hbox as [Hplat Hplon].
  apply Trig.haversine_positive_nearby; try lra.
  - apply Rabs_between; lra.
  - apply Rabs_le; lra.
Qed.

(** Seen from the Empire State Building. *)
Ltac away_from_esb F p :=
  let d := fresh "d" in
  let Hd := fresh "Hd" in
  let Hpos := fresh "Hpos" in
  destruct (@Trig.haversine_positive_nearby F 40.7484 (-73.9857)
              (latitude p) (longitude p)) as (d & Hd & Hpos);
  [ lra | lra | simpl; lra | simpl; lra
  | simpl; apply Rabs_between; lra
  | simpl; apply Rabs_le; lra
  | exists d; split; [exact Hd |]; right;
    split; [discriminate | exact Hpos] ].

Lemma mock_distances_from_esb (F : Float64) (p : POIResult) :
  In p _initialize_mock_pois ->
  exists d,
    distance_from F 40.7484 (-73.9857) p = Returned d
    /\ (p = empire_state_building /\ d = 0
        \/ p <> empire_state_building /\ 0 < d).
Proof.
  intros Hp. unfold distance_from. rewrite Trig.poi_distance_is_haversine.
  simpl in Hp.
  destruct Hp as [<- | [<- | [<- | [<- | [<- | [<- | [<- | [<- | []]]]]]]]].
  - away_from_esb F central_park.
  - exists 0. split; [apply Trig.haversine_same_point |]. left. tauto.
  - away_from_esb F joes_pizza.
  - away_from_esb F metropolitan_museum.
  - away_from_esb F starbucks_reserve.
  - away_from_esb F times_square.
  - away_from_esb F brooklyn_bridge_park.
  - away_from_esb F grand_central.
Qed.

(** C5. [search_nearby] around the Empire State Building (40.7484,
    -73.9857) with radius 5000 and limit 10, the call of the unit test,
    returns a list that is not in ascending order of distance: the
    record of the building itself, at distance 0, comes after Central
    Park, more than 3500 m away. *)
Theorem search_nearby_zero_distance_unsorted (F : Float64) :
  exists l,
    search_nearby F 40.7484 (-73.9857) 5000 None 10 (__init__ "")
    = (Returned l, __init__ "")
    /\ ~ sorted_by_distance l.
Proof.
  destruct (proj2 (nearby_loop_returns F 40.7484 (-73.9857) 5000 None
                     (_mock_pois (__init__ "")))) as [found Hf].
  { intros p Hp. destruct (@mock_distances_from_esb F p Hp) as (d & Hd & _).
    exists d. exact Hd. }
  rewrite (@search_nearby_run _ _ _ _ _ _ _ _ Hf). eexists. split; [reflexivity |].
  set (res := sort_by sort_key found).
  assert (Hlen : (List.length res <= 8)%nat).
  { unfold res. rewrite sort_by_length.
    apply (@nearby_loop_length _ _ _ _ _ _ _ Hf). }
  rewrite slice_to_all by lia.
  destruct (Trig.haversine_esb_central_park F) as (d & Hd & Hr).
  set (cp := central_park). set (esb := empire_state_building).
  assert (Hcp : In (with_distance cp d) res).
  { unfold res. apply sort_by_In. apply (@nearby_loop_In _ _ _ _ _ _ _ _ Hf).
    exists cp, d. split; [simpl; tauto |]. split; [exact Hd |].
    split; [reflexivity |]. split; [lra | reflexivity]. }
  assert (Hesb : In (with_distance esb 0) res).
  { unfold res. apply sort_by_In. apply (@nearby_loop_In _ _ _ _ _ _ _ _ Hf).
    exists esb, 0. split; [simpl; tauto |].
    split; [apply Trig.haversine_same_point |].
    split; [reflexivity |]. split; [lra | reflexivity]. }
  assert (Hne : with_distance cp d <> with_distance esb 0).
  { intros E. apply (f_equal distance_meters) in E. simpl in E.
    injection E as E. lra. }
  intros Hsorted.
  destruct (@In_two_split _ _ _ _ Hcp Hesb Hne) as (l1 & l2 & l3 & [E | E]).
  - apply Sorted_StronglySorted in Hsorted;
      [| intros x y z; apply distance_le_trans].
    rewrite E in Hsorted. apply StronglySorted_split in Hsorted.
    unfold distance_le in Hsorted. simpl in Hsorted. lra.
  - assert (Hk : StronglySorted (key_ord sort_key) res)
      by apply sort_by_sorted.
    rewrite E in Hk. apply StronglySorted_split in Hk.
    unfold key_ord, sort_key in Hk. simpl in Hk.
    assert (E0 : feq 0 0 = true) by (apply feq_true; reflexivity).
    assert (Ed : feq d 0 = false) by (apply feq_false; lra).
    rewrite E0, Ed in Hk. simpl in Hk. discriminate.
Qed.

(** C6. For a fixed centre, category and limit, a larger radius never
    gives fewer records: when the search with the radius [r1] returns,
    the search with a radius [r2 >= r1] returns too, and its result is
    at least as long, whatever the limit is (in particular when it is
    at least the current number of results). *)
Theorem search_nearby_radius_monotone (F : Float64) (self self' : POIServer)
    (lat lon : R) (cat : option string) (limit : Z) (r1 r2 : R)
    (l1 : list POIResult) :
  r1 <= r2 ->
  search_nearby F lat lon r1 cat limit self = (Returned l1, self') ->
  exists l2,
    search_nearby F lat lon r2 cat limit self = (Returned l2, self)
    /\ (List.length l1 <= List.length l2)%nat.
Proof.
  intros Hr H1. apply search_nearby_returned in H1.
  destruct H1 as (_ & found1 & Hf1 & ->).
  destruct (@nearby_loop_radius _ _ _ _ r2 _ _ _ Hf1) as (found2 & Hf2 & Hlen).
  rewrite (@search_nearby_run _ _ _ _ _ _ _ _ Hf2). eexists. split; [reflexivity |].
  apply slice_to_length_mono. rewrite !sort_by_length. apply Hlen, Hr.
Qed.

Lemma search_nearby_radius_monotone_witness :
  exists l1 l2,
    search_nearby exact 40.7484 (-73.9857) 1000 None 100 (__init__ "")
    = (Returned l1, __init__ "")
    /\ search_nearby exact 40.7484 (-73.9857) 10000 None 100 (__init__ "")
       = (Returned l2, __init__ "")
    /\ (List.length l1 <= List.length l2)%nat.
Proof.
  destruct (search_nearby_exact (__init__ "") 40.7484 (-73.9857) 1000 None 100)
    as (found & _ & H1).
  destruct (@search_nearby_radius_monotone exact (__init__ "") (__init__ "")
              40.7484 (-73.9857) None 100 1000 10000 _ ltac:(lra) H1)
    as (l2 & H2 & Hlen).
  eexists. exists l2. split; [exact H1 |]. split; [exact H2 | exact Hlen].
Defined.

(** When no record of the database is at distance 0.0 from the centre,
    the key of a record is its distance and the result is sorted by
    distance. *)
Lemma StronglySorted_weaken {A : Type} (R R' : A -> A -> Prop) (l : list A) :
  (forall x y, In x l -> In y l -> R x y -> R' x y) ->
  StronglySorted R l -> StronglySorted R' l.
Proof.
  intros HR H. induction H as [| x l Hl IH Hx]; constructor.
  - apply IH. intros a b Ha Hb. apply HR; right; assumption.
  - rewrite Forall_forall in *. intros y Hy.
    apply HR; [left; reflexivity | right; exact Hy | apply Hx, Hy].
Qed.

Lemma search_nearby_sorted_off_centre (F : Float64) (self self' : POIServer)
    (lat lon r : R) (cat : option string) (limit : Z) (l : list POIResult) :
  (forall p d, In p (_mock_pois self) ->
               distance_from F lat lon p = Returned d -> d <> 0) ->
  search_nearby F lat lon r cat limit self = (Returned l, self') ->
  sorted_by_distance l.
Proof.
  intros Hnz H.
  pose proof (@search_nearby_sorted_by_key _ _ _ _ _ _ _ _ _ H) as Hk.
  apply search_nearby_returned in H. destruct H as (_ & found & Hf & ->).
  apply StronglySorted_Sorted.
  refine (StronglySorted_weaken _ _ Hk).
  intros x y Hx Hy.
  apply slice_to_incl, sort_by_In in Hx, Hy.
  apply (@nearby_loop_In _ _ _ _ _ _ _ _ Hf) in Hx, Hy.
  destruct Hx as (p & dp & Hp & Hdp & -> & _).
  destruct Hy as (q & dq & Hq & Hdq & -> & _).
  unfold key_ord, sort_key, distance_le. simpl.
  assert (Ep : feq dp 0 = false) by (apply feq_false, (Hnz p dp Hp Hdp)).
  assert (Eq : feq dq 0 = false) by (apply feq_false, (Hnz q dq Hq Hdq)).
  rewrite Ep, Eq. simpl. rewrite flt_false. tauto.
Qed.

(** *** The filters of [search_by_category] *)

Lemma apply_filters_In (min_rating : option R) (max_price_level : option Z)
    (results : list POIResult) (poi : POIResult) :
  In poi (apply_filters min_rating max_price_level results) <->
  In poi results /\ rating_ok min_rating poi = true
  /\ price_ok max_price_level poi = true.
Proof. unfold apply_filters. rewrite filter_In, andb_true_iff. tauto. Qed.

Lemma search_by_category_returned (F : Float64) (self self' : POIServer)
    (cat : string) (lat lon r : R) (min_rating : option R)
    (max_price_level : option Z) (limit : Z) (result : list POIResult) :
  search_by_category F cat lat lon r min_rating max_price_level limit self
  = (Returned result, self') ->
  self' = self
  /\ exists nearby,
       search_nearby F lat lon r (Some cat) 100 self = (Returned nearby, self)
       /\ result
          = slice_to limit (apply_filters min_rating max_price_level nearby).
Proof.
  unfold search_by_category, bind, ret.
  destruct (search_nearby F lat lon r (Some cat) 100 self) as [[nearby | e] s]
    eqn:E; [| discriminate].
  apply search_nearby_returned in E as Hs. destruct Hs as [-> _].
  intros H. injection H as <- <-. split; [reflexivity |].
  exists nearby. split; reflexivity.
Qed.

(** C10. The two optional filters of [search_by_category] treat a
    missing field in opposite ways, in every result the method returns.
    With [min_rating] supplied, no record without a rating is in the
    result.  With [max_price_level] supplied, a record without a price
    level that the nearby search found and the rating filter lets
    through is kept by the filters, and is in the result when the limit
    does not cut the filtered list. *)
Theorem search_by_category_missing_fields (F : Float64)
    (self self' : POIServer) (cat : string)
    (lat lon r : R) (min_rating : option R) (max_price_level : option Z)
    (limit : Z) (result : list POIResult) :
  search_by_category F cat lat lon r min_rating max_price_level limit self
  = (Returned result, self') ->
  exists nearby,
    search_nearby F lat lon r (Some cat) 100 self = (Returned nearby, self)
    /\ (forall poi, min_rating <> None -> rating poi = None -> ~ In poi result)
    /\ (forall poi,
          max_price_level <> None ->
          price_level poi = None ->
          In poi nearby ->
          rating_ok min_rating poi = true ->
          In poi (apply_filters min_rating max_price_level nearby)
          /\ ((Z.of_nat (List.length
                           (apply_filters min_rating max_price_level nearby))
               <= limit)%Z -> In poi result)).
Proof.
  intros H. apply search_by_category_returned in H.
  destruct H as (_ & nearby & Hn & ->).
  exists nearby. split; [exact Hn |]. split.
  - intros poi Hm Hr Hin. apply slice_to_incl, apply_filters_In in Hin.
    destruct Hin as (_ & Hok & _). unfold rating_ok in Hok.
    destruct min_rating; [| congruence]. rewrite Hr in Hok. discriminate.
  - intros poi _ Hp Hin Hok.
    assert (Hf : In poi (apply_filters min_rating max_price_level nearby)).
    { apply apply_filters_In. split; [exact Hin |]. split; [exact Hok |].
      unfold price_ok. destruct max_price_level; [| reflexivity].
      rewrite Hp. reflexivity. }
    split; [exact Hf |]. intros Hl. rewrite slice_to_all by exact Hl. exact Hf.
Qed.

(** Without rounding error [search_by_category] returns. *)
Lemma search_by_category_exact (self : POIServer) (cat : string)
    (lat lon r : R) (min_rating : option R) (max_price_level : option Z)
    (limit : Z) :
  exists found,
    nearby_loop exact lat lon r (Some cat) (_mock_pois self) = Returned found
    /\ search_by_category exact cat lat lon r min_rating max_price_level limit
         self
       = (Returned
            (slice_to limit
               (apply_filters min_rating max_price_level
                  (slice_to 100 (sort_by sort_key found)))),
          self).
Proof.
  destruct (search_nearby_exact self lat lon r (Some cat) 100)
    as (found & Hf & Hrun).
  exists found. split; [exact Hf |].
  unfold search_by_category, bind, ret. rewrite Hrun. reflexivity.
Qed.

(** Central Park has no price level; a search for parks around the
    Empire State Building with [max_price_level = 1] still returns it. *)
Lemma search_by_category_missing_fields_witness :
  exists result d,
    search_by_category exact "park" 40.7484 (-73.9857) 5000 None (Some 1%Z) 10
      (__init__ "")
    = (Returned result, __init__ "")
    /\ distance_from exact 40.7484 (-73.9857) central_park = Returned d
    /\ In (with_distance central_park d) result.
Proof.
  destruct (search_by_category_exact (__init__ "") "park" 40.7484 (-73.9857)
              5000 None (Some 1%Z) 10) as (found & Hf & Hrun).
  destruct (Trig.haversine_esb_central_park exact) as (d & Hd & Hr).
  eexists. exists d. split; [exact Hrun |]. split; [exact Hd |].
  destruct (@search_by_category_missing_fields _ _ _ _ _ _ _ _ _ _ _ Hrun)
    as (nearby & Hn & _ & Hprice).
  rewrite (@search_nearby_run _ _ _ _ _ _ _ _ Hf) in Hn. apply returned_inj in Hn.
  assert (Hlen : (List.length (sort_by sort_key found) <= 8)%nat).
  { rewrite sort_by_length. apply (@nearby_loop_length _ _ _ _ _ _ _ Hf). }
  rewrite slice_to_all in Hn by lia.
  set (cp := with_distance central_park d).
  assert (Hin : In cp nearby).
  { rewrite <- Hn. apply sort_by_In. apply (@nearby_loop_In _ _ _ _ _ _ _ _ Hf).
    exists central_park, d. split; [simpl; tauto |]. split; [exact Hd |].
    split; [reflexivity |]. split; [lra | reflexivity]. }
  destruct (Hprice cp) as [_ Hres];
    [discriminate | reflexivity | exact Hin | reflexivity |].
  apply Hres.
  assert (Hfl : (List.length (apply_filters None (Some 1%Z) nearby)
                 <= List.length nearby)%nat).
  { unfold apply_filters. apply filter_length_le. }
  rewrite <- Hn in Hfl at 2. lia.
Defined.

End POIFacts.
(** ** Geocoding server: validation and batches *)

Module GeocodingFacts.

Import Py Geocoding.
Open Scope R_scope.

(** *** Coordinate validation *)

Lemma reverse_geocode_out_of_range (self : GeocodingServer) (lat lon : R) :
  ~ in_range lat lon ->
  exists msg, reverse_geocode lat lon self = (Raised (Exn ValueError msg), self).
Proof.
  intros Hout. unfold reverse_geocode, raise.
  destruct (fle (-90) lat && fle lat 90) eqn:Elat; simpl.
  - destruct (fle (-180) lon && fle lon 180) eqn:Elon; simpl.
    + exfalso. apply Hout.
      apply andb_true_iff in Elat, Elon.
      rewrite !POIFacts.fle_true in Elat, Elon. unfold in_range. tauto.
    + eexists. reflexivity.
  - eexists. reflexivity.
Qed.

Lemma reverse_geocode_in_range (self : GeocodingServer) (lat lon : R) :
  in_range lat lon ->
  exists r self',
    reverse_geocode lat lon self = (Returned r, self')
    /\ latitude r = lat /\ longitude r = lon /\ session self' <> None.
Proof.
  intros [[H1 H2] [H3 H4]]. unfold reverse_geocode.
  apply POIFacts.fle_true in H1, H2, H3, H4.
  rewrite H1, H2, H3, H4. simpl.
  unfold bind, _get_session, ret.
  destruct (session self) eqn:E; eexists; eexists;
    (split; [reflexivity |]); simpl; repeat split; congruence.
Qed.

(** C4, as the code has it.  For coordinates outside [-90, 90] x
    [-180, 180], reverse geocoding raises [ValueError] and leaves the
    server untouched: no HTTP session is obtained, let alone a request
    made.  Route calculation and nearby search have no check of the
    range: for the same coordinates the route calculation obtains the
    session and then either returns a route or raises the domain error
    of [math.sqrt], and the nearby search either returns a list or
    raises that error; neither raises an error about the coordinates. *)
Theorem coordinate_validation (lat lon : R) :
  ~ in_range lat lon ->
  (forall self : GeocodingServer,
      exists msg,
        reverse_geocode lat lon self = (Raised (Exn ValueError msg), self))
  /\ (forall (F : PyMath.Float64) (self : Routing.RoutingServer)
             (dest_lat dest_lon : R) (mode : string),
         exists self',
           Routing.session self' <> None
           /\ ((exists r,
                   Routing.calculate_route F lat lon dest_lat dest_lon mode self
                   = (Returned r, self'))
               \/ Routing.calculate_route F lat lon dest_lat dest_lon mode self
                  = (Raised PyMath.domain_error, self')))
  /\ (forall (F : PyMath.Float64) (self : POI.POIServer) (radius : R)
             (cat : option string) (limit : Z),
         (exists l,
             POI.search_nearby F lat lon radius cat limit self
             = (Returned l, self))
         \/ POI.search_nearby F lat lon radius cat limit self
            = (Raised PyMath.domain_error, self)).
Proof.
  intros Hout. split; [| split].
  - intros self. apply reverse_geocode_out_of_range, Hout.
  - intros F self dest_lat dest_lon mode.
    exists (snd (Routing._get_session self)). split.
    + rewrite RoutingFacts.get_session_state. discriminate.
    + destruct (Routing.calculate_route F lat lon dest_lat dest_lon mode self)
        as [[r | e] s] eqn:E.
      * left. exists r.
        destruct (@RoutingFacts.calculate_route_returned _ _ _ _ _ _ _ _ _ E)
          as (_ & -> & _). reflexivity.
      * right.
        destruct (@RoutingFacts.calculate_route_raised _ _ _ _ _ _ _ _ _ E)
          as (-> & ->). reflexivity.
  - intros F self radius cat limit.
    destruct (POI.search_nearby F lat lon radius cat limit self)
      as [[l | e] s] eqn:E.
    + left. exists l.
      destruct (@POIFacts.search_nearby_returned _ _ _ _ _ _ _ _ _ E)
        as (-> & _). reflexivity.
    + right.
      destruct (@POIFacts.search_nearby_raised _ _ _ _ _ _ _ _ _ E)
        as (-> & ->). reflexivity.
Qed.

Lemma coordinate_validation_witness :
  ~ in_range 91 0
  /\ exists msg,
       reverse_geocode 91 0
         {| api_key := ""; base_url := "https://nominatim.openstreetmap.org";
            session := None |}
       = (Raised (Exn ValueError msg),
          {| api_key := ""; base_url := "https://nominatim.openstreetmap.org";
             session := None |}).
Proof.
  assert (Hout : ~ in_range 91 0) by (unfold in_range; lra).
  split; [exact Hout |].
  apply (proj1 (coordinate_validation Hout)).
Defined.

(** Latitude 91 is out of range, and yet route calculation and nearby
    search return results for it instead of failing with a range error;
    the route is computed after the HTTP session has been created. *)
Lemma unvalidated_coordinates_counterexample :
  ~ in_range 91 0
  /\ (exists r self',
        Routing.calculate_route PyMath.exact 91 0 0 0 "driving"
          {| Routing.api_key := ""; Routing.base_url := "http://router.project-osrm.org";
             Routing.session := None |}
        = (Returned r, self')
        /\ Routing.session self' = Some tt)
  /\ (exists l,
        POI.search_nearby PyMath.exact 91 0 1000 None 10 (POI.__init__ "")
        = (Returned l, POI.__init__ "")).
Proof.
  split; [unfold in_range; lra |]. split.
  - destruct (RoutingFacts.calculate_route_exact
                {| Routing.api_key := "";
                   Routing.base_url := "http://router.project-osrm.org";
                   Routing.session := None |} 91 0 0 0 "driving") as (r & Hr).
    exists r. eexists. split; [exact Hr | reflexivity].
  - destruct (POIFacts.search_nearby_exact (POI.__init__ "") 91 0 1000 None 10)
      as (found & _ & Hrun).
    eexists. exact Hrun.
Qed.

(** *** Batches *)

Section Batch.

Variable lookup : string -> Z -> M GeocodingServer fstring (list GeocodingResult).

Lemma gather_lookups (addresses : list string) (self : GeocodingServer) :
  exists results,
    gather (map (fun addr => lookup addr 1%Z) addresses) self
    = (results, run_lookups lookup addresses self)
    /\ List.length results = List.length addresses
    /\ forall i addr,
         nth_error addresses i = Some addr ->
         nth_error (process_results results) i
         = Some (match fst (lookup addr 1%Z
                              (server_before lookup addresses self i)) with
                 | Returned r => r
                 | Raised _ => []
                 end).
Proof.
  revert self. induction addresses as [| a rest IH]; intros self; simpl.
  - exists []. split; [reflexivity |]. split; [reflexivity |].
    intros [| i] addr H; discriminate.
  - destruct (lookup a 1%Z self) as [r s1] eqn:E.
    destruct (IH s1) as (rs & Hg & Hlen & Hnth). rewrite Hg.
    exists (r :: rs). simpl. split; [reflexivity |].
    split; [rewrite Hlen; reflexivity |].
    intros [| i] addr H; simpl in H.
    + injection H as <-. unfold server_before. simpl. rewrite E.
      reflexivity.
    + unfold server_before. simpl. rewrite E. simpl. apply Hnth, H.
Qed.

(** C9. [batch_geocode] returns (it never raises) a list as long as
    the list of addresses, whose [i]-th element is what the lookup of the
    [i]-th address gave: its results when it returned, the empty list
    when it raised.  A failed lookup so neither aborts the batch nor
    changes the entry of another address. *)
Theorem batch_geocode_parallel_sequence (addresses : list string)
    (self : GeocodingServer) :
  exists results self',
    batch_geocode_with lookup addresses self = (Returned results, self')
    /\ List.length results = List.length addresses
    /\ (forall i addr,
          nth_error addresses i = Some addr ->
          nth_error results i
          = Some (match fst (lookup addr 1%Z
                               (server_before lookup addresses self i)) with
                  | Returned r => r
                  | Raised _ => []
                  end))
    /\ (forall i addr e,
          nth_error addresses i = Some addr ->
          fst (lookup addr 1%Z (server_before lookup addresses self i))
          = Raised e ->
          nth_error results i = Some []).
Proof.
  unfold batch_geocode_with.
  destruct (gather_lookups addresses self) as (rs & Hg & Hlen & Hnth).
  rewrite Hg. eexists. eexists. split; [reflexivity |].
  split; [unfold process_results; rewrite length_map; exact Hlen |].
  split; [exact Hnth |].
  intros i addr e Ha He. rewrite (Hnth i addr Ha), He. reflexivity.
Qed.

End Batch.

(** With the lookup of the source, which cannot fail, every address
    gets its one simulated result. *)
Lemma batch_geocode_mock (addresses : list string) (self : GeocodingServer) :
  exists results self',
    batch_geocode addresses self = (Returned results, self')
    /\ List.length results = List.length addresses
    /\ forall i res, nth_error results i = Some res -> List.length res = 1%nat.
Proof.
  unfold batch_geocode, batch_geocode_with.
  destruct (gather_lookups forward_geocode addresses self)
    as (rs & Hg & Hlen & Hnth).
  rewrite Hg. eexists. eexists. split; [reflexivity |].
  assert (Hl : List.length (process_results rs) = List.length addresses)
    by (unfold process_results; rewrite length_map; exact Hlen).
  split; [exact Hl |].
  intros i res Hres.
  destruct (nth_error addresses i) as [addr |] eqn:Ea.
  - rewrite (Hnth i addr Ea) in Hres. injection Hres as <-.
    unfold forward_geocode, bind, _get_session, ret.
    destruct (session _); reflexivity.
  - apply nth_error_None in Ea.
    assert (i < List.length (process_results rs))%nat
      by (apply nth_error_Some; congruence).
    lia.
Qed.

(** The batch of the specification: the second address fails, the first
    one does not; the answer has a result for the first address and the
    empty list for the second. *)
Lemma batch_geocode_parallel_sequence_witness :
  exists first self',
    batch_geocode_with (failing_on "CausesFailure")
      ["ValidAddress"; "CausesFailure"]%string
      {| api_key := ""; base_url := "https://nominatim.openstreetmap.org";
         session := None |}
    = (Returned [[first]; []], self').
Proof.
  destruct (batch_geocode_parallel_sequence (failing_on "CausesFailure")
              ["ValidAddress"; "CausesFailure"]%string
              {| api_key := ""; base_url := "https://nominatim.openstreetmap.org";
                 session := None |})
    as (results & self' & Hrun & Hlen & Hnth & _).
  pose proof (Hnth 0%nat _ eq_refl) as H0.
  pose proof (Hnth 1%nat _ eq_refl) as H1.
  destruct results as [| r0 [| r1 [| r2 rest]]]; try discriminate.
  simpl in H0, H1. injection H0 as ->. injection H1 as ->.
  eexists. exists self'. exact Hrun.
Defined.

End GeocodingFacts.

(** ** Agent: parsing of the tool selection *)

Module AgentFacts.

Import Py Text Json Agent.
Open Scope string_scope.

(** *** Strings *)

Lemma append_assoc (a b c : string) : (a ++ b) ++ c = a ++ (b ++ c).
Proof. induction a as [| x a IH]; simpl; [reflexivity | rewrite IH; reflexivity]. Qed.

Lemma append_length (a b : string) :
  String.length (a ++ b) = (String.length a + String.length b)%nat.
Proof. induction a as [| x a IH]; simpl; [reflexivity | rewrite IH; reflexivity]. Qed.

Lemma substring_0_append (a b : string) :
  substring 0 (String.length a) (a ++ b) = a.
Proof. induction a as [| x a IH]; simpl; [destruct b | rewrite IH]; reflexivity. Qed.

Lemma substring_skip (a b : string) (n : nat) :
  substring (String.length a) n (a ++ b) = substring 0 n b.
Proof. induction a as [| x a IH]; simpl; [reflexivity | exact IH]. Qed.

Lemma substring_middle (a b c : string) :
  substring (String.length a) (String.length b) (a ++ b ++ c) = b.
Proof. rewrite substring_skip. apply substring_0_append. Qed.

Lemma get_append (a : string) (c : ascii) (b : string) :
  String.get (String.length a) (a ++ String c b) = Some c.
Proof. induction a as [| x a IH]; simpl; [reflexivity | exact IH]. Qed.

Lemma net_append (a b : string) : net (a ++ b) = (net a + net b)%Z.
Proof. induction a as [| x a IH]; simpl; [reflexivity | rewrite IH; lia]. Qed.

Lemma first_open_snoc (a : string) (c : ascii) :
  first_open (a ++ String c "")
  = match first_open a with
    | Some i => Some i
    | None => if Ascii.eqb c "{" then Some (String.length a) else None
    end.
Proof.
  induction a as [| x a IH]; simpl.
  - destruct (Ascii.eqb c "{"); reflexivity.
  - destruct (Ascii.eqb x "{"); [reflexivity |].
    rewrite IH. destruct (first_open a); simpl; [reflexivity |].
    destruct (Ascii.eqb c "{"); reflexivity.
Qed.

Lemma snoc_append (a : string) (c : ascii) (b : string) :
  a ++ String c b = (a ++ String c "") ++ b.
Proof. rewrite append_assoc. reflexivity. Qed.

(** *** The loop against the positions *)

Section Scan.

Variable loads : string -> outcome string json.

(** The loop, entered at the end of [pre] with the counter and the
    start index the characters of [pre] give, returns the first
    candidate that parses among those that end in [rest]. *)
Lemma scan_loop_candidates (rest pre : string) :
  scan_loop loads (pre ++ rest) rest (String.length pre) (net pre)
    (first_open pre)
  = first_parsed loads
      (filter_map (candidate_at (pre ++ rest))
         (seq (String.length pre) (String.length rest))).
Proof.
  revert pre. induction rest as [| c rest IH]; intros pre; [reflexivity |].
  simpl scan_loop. simpl String.length. simpl seq. simpl filter_map.
  assert (Hnext : forall count start,
             count = net (pre ++ String c "") ->
             start = first_open (pre ++ String c "") ->
             scan_loop loads (pre ++ String c rest) rest
               (S (String.length pre)) count start
             = first_parsed loads
                 (filter_map (candidate_at (pre ++ String c rest))
                    (seq (S (String.length pre)) (String.length rest)))).
  { intros count start -> ->. rewrite (snoc_append pre c rest).
    specialize (IH (pre ++ String c "")).
    rewrite append_length in IH. simpl in IH.
    rewrite Nat.add_1_r in IH. exact IH. }
  unfold candidate_at at 1. rewrite get_append.
  assert (Hp1 : prefix (S (String.length pre)) (pre ++ String c rest)
                = pre ++ String c "").
  { unfold prefix. rewrite (snoc_append pre c rest).
    replace (S (String.length pre)) with (String.length (pre ++ String c ""))
      by (rewrite append_length; simpl; lia).
    apply substring_0_append. }
  assert (Hp0 : prefix (String.length pre) (pre ++ String c rest) = pre)
    by apply substring_0_append.
  rewrite Hp1, Hp0, net_append. simpl net.
  destruct (Ascii.eqb c "{") eqn:Eo.
  - assert (Ec : Ascii.eqb c "}" = false).
    { apply Ascii.eqb_eq in Eo. subst c. reflexivity. }
    rewrite Ec. simpl. apply Hnext.
    + rewrite net_append. simpl. unfold brace_delta. rewrite Eo. lia.
    + rewrite first_open_snoc, Eo. destruct (first_open pre); reflexivity.
  - destruct (Ascii.eqb c "}") eqn:Ec.
    + unfold brace_delta. rewrite Eo, Ec.
      replace (net pre + (-1 + 0))%Z with (net pre - 1)%Z by lia.
      assert (Hcont : scan_loop loads (pre ++ String c rest) rest
                        (S (String.length pre)) (net pre - 1) (first_open pre)
                      = first_parsed loads
                          (filter_map (candidate_at (pre ++ String c rest))
                             (seq (S (String.length pre)) (String.length rest)))).
      { apply Hnext.
        - rewrite net_append. simpl. unfold brace_delta. rewrite Eo, Ec. lia.
        - rewrite first_open_snoc, Eo. destruct (first_open pre); reflexivity. }
      destruct (net pre - 1 =? 0)%Z; simpl.
      * destruct (first_open pre) as [start |]; [| exact Hcont].
        rewrite Nat.add_1_r. simpl first_parsed.
        destruct (loads _); [reflexivity | exact Hcont].
      * destruct (first_open pre); exact Hcont.
    + simpl. apply Hnext.
      * rewrite net_append. simpl. unfold brace_delta. rewrite Eo, Ec. lia.
      * rewrite first_open_snoc, Eo. destruct (first_open pre); reflexivity.
Qed.

Lemma scan_loop_spec (s : string) :
  scan_loop loads s s 0 0%Z None = first_parsed loads (candidates s).
Proof. exact (scan_loop_candidates s ""). Qed.

Lemma first_parsed_none (texts : list string) :
  first_parsed loads texts = None
  <-> forall t, In t texts -> forall v, loads t <> Returned v.
Proof.
  induction texts as [| t texts IH]; simpl.
  - split; [intros _ t [] | reflexivity].
  - destruct (loads t) as [v | e] eqn:E.
    + split; [discriminate |]. intros H. exfalso.
      apply (H t (or_introl eq_refl) v). exact E.
    + rewrite IH. split.
      * intros H t' [Heq | Hin] v.
        -- subst t'. rewrite E. discriminate.
        -- apply H, Hin.
      * intros H t' Hin. apply H. right. exact Hin.
Qed.

(** *** Objects embedded in prose *)

Lemma scan_loop_brace_free (whole pre rest : string) (i : nat) :
  brace_free pre = true ->
  scan_loop loads whole (pre ++ rest) i 0%Z None
  = scan_loop loads whole rest (i + String.length pre) 0%Z None.
Proof.
  revert i. induction pre as [| c pre IH]; intros i H; simpl in *.
  - rewrite Nat.add_0_r. reflexivity.
  - apply andb_true_iff in H. destruct H as [Hc Hpre].
    unfold brace_delta in Hc.
    destruct (Ascii.eqb c "{"); [discriminate |].
    destruct (Ascii.eqb c "}"); [discriminate |].
    rewrite IH by exact Hpre. f_equal. lia.
Qed.

Lemma scan_loop_close_prefix (whole body post : string) (i : nat) (count : Z)
    (start : nat) :
  close_prefix count body = Some body ->
  scan_loop loads whole (body ++ post) i count (Some start)
  = match loads (substring start (i + String.length body - start) whole) with
    | Returned v => Some v
    | Raised _ =>
        scan_loop loads whole post (i + String.length body) 0%Z (Some start)
    end.
Proof.
  revert i count. induction body as [| c body IH]; intros i count H;
    simpl in H; [discriminate |].
  simpl append. simpl scan_loop. simpl String.length.
  destruct (Ascii.eqb c "{") eqn:Eo.
  - assert (Ec : Ascii.eqb c "}" = false).
    { apply Ascii.eqb_eq in Eo. subst c. reflexivity. }
    rewrite Ec in H. simpl in H. unfold brace_delta in H. rewrite Eo in H.
    destruct (close_prefix (count + 1) body) as [p |] eqn:E; [| discriminate].
    injection H as ->. rewrite (IH (S i) _ E).
    replace (S i + String.length body)%nat with (i + S (String.length body))%nat
      by lia. reflexivity.
  - destruct (Ascii.eqb c "}") eqn:Ec.
    + simpl in H. destruct (count - 1 =? 0)%Z eqn:Ez.
      * injection H as <-. simpl. rewrite Nat.add_1_r.
        apply Z.eqb_eq in Ez. rewrite Ez. reflexivity.
      * unfold brace_delta in H. rewrite Eo, Ec in H.
        destruct (close_prefix (count + -1) body) as [p |] eqn:E;
          [| discriminate].
        injection H as ->.
        replace (count + -1)%Z with (count - 1)%Z in E by lia.
        rewrite (IH (S i) _ E).
        replace (S i + String.length body)%nat
          with (i + S (String.length body))%nat by lia. reflexivity.
    + simpl in H. unfold brace_delta in H. rewrite Eo, Ec in H.
      destruct (close_prefix (count + 0) body) as [p |] eqn:E; [| discriminate].
      injection H as ->.
      replace (count + 0)%Z with count in E by lia.
      rewrite (IH (S i) _ E).
      replace (S i + String.length body)%nat
        with (i + S (String.length body))%nat by lia. reflexivity.
Qed.

Lemma scan_loop_embedded (pre obj post : string) (v : json) :
  brace_free pre = true ->
  balanced_object obj ->
  loads obj = Returned v ->
  scan_loop loads (pre ++ obj ++ post) (pre ++ obj ++ post) 0 0%Z None = Some v.
Proof.
  intros Hpre Hobj Hv.
  rewrite scan_loop_brace_free by exact Hpre. simpl Nat.add.
  destruct obj as [| c body]; [contradiction |].
  unfold balanced_object in Hobj.
  destruct (Ascii.eqb c "{") eqn:Eo.
  - apply Ascii.eqb_eq in Eo. subst c.
    change (String "{" body ++ post) with (String "{" (body ++ post)).
    simpl scan_loop.
    rewrite (@scan_loop_close_prefix _ _ _ _ _ _ Hobj).
    replace (S (String.length pre) + String.length body - String.length pre)%nat
      with (String.length (String "{" body)) by (cbn [String.length]; lia).
    change (String "{" (body ++ post)) with (String "{" body ++ post).
    rewrite substring_middle, Hv. reflexivity.
  - exfalso. destruct c as [[] [] [] [] [] [] [] []]; try contradiction;
      discriminate.
Qed.

(** *** Candidates are parts between braces *)

Lemma get_prefix (s : string) (i j : nat) (c : ascii) :
  String.get i (prefix j s) = Some c -> (i < j)%nat /\ String.get i s = Some c.
Proof.
  unfold prefix. revert i j. induction s as [| x s IH]; intros i j H.
  - destruct j; simpl in H; destruct i; discriminate.
  - destruct j as [| j]; [destruct i; discriminate |].
    simpl in H. destruct i as [| i].
    + split; [lia | exact H].
    + apply IH in H. simpl. split; [lia | tauto].
Qed.

Lemma first_open_get (s : string) (i : nat) :
  first_open s = Some i -> String.get i s = Some "{"%char.
Proof.
  revert i. induction s as [| c s IH]; intros i H; [discriminate |].
  simpl in H. destruct (Ascii.eqb c "{") eqn:E.
  - injection H as <-. apply Ascii.eqb_eq in E. subst c. reflexivity.
  - destruct (first_open s) as [k |]; [| discriminate].
    injection H as <-. simpl. apply IH. reflexivity.
Qed.

Lemma filter_map_In {A B : Type} (f : A -> option B) (l : list A) (y : B) :
  In y (filter_map f l) -> exists x, In x l /\ f x = Some y.
Proof.
  induction l as [| x l IH]; simpl; [contradiction |].
  destruct (f x) as [z |] eqn:E.
  - intros [<- | H].
    + exists x. split; [left; reflexivity | exact E].
    + destruct (IH H) as (x' & Hin & Hx). exists x'. tauto.
  - intros H. destruct (IH H) as (x' & Hin & Hx). exists x'. tauto.
Qed.

(** Every candidate runs from an opening brace of the text to a later
    closing brace. *)
Lemma candidate_between (s t : string) :
  In t (candidates s) ->
  exists start stop,
    (start < stop)%nat
    /\ String.get start s = Some "{"%char
    /\ String.get stop s = Some "}"%char
    /\ t = substring start (S stop - start) s.
Proof.
  intros H. apply filter_map_In in H. destruct H as (j & _ & Hj).
  unfold candidate_at in Hj.
  destruct (String.get j s) as [c |] eqn:Ec; [| discriminate].
  destruct (Ascii.eqb c "}") eqn:Eb; [| discriminate].
  destruct (net (prefix (S j) s) =? 0)%Z; [| discriminate].
  simpl in Hj.
  destruct (first_open (prefix j s)) as [start |] eqn:Es; [| discriminate].
  injection Hj as <-. apply first_open_get, get_prefix in Es.
  apply Ascii.eqb_eq in Eb. subst c.
  exists start, j. tauto.
Qed.

(** When no part between braces parses, the scan finds nothing. *)
Lemma scan_loop_nothing (s : string) :
  ~ object_found loads s -> scan_loop loads s s 0 0%Z None = None.
Proof.
  intros Hno. rewrite scan_loop_spec. apply first_parsed_none.
  intros t Ht v Hv. apply Hno.
  destruct (candidate_between _ _ Ht) as (start & stop & Hlt & Hs & He & ->).
  exists start, stop, v. tauto.
Qed.

End Scan.


(** *** The query cycle *)

Lemma in_tool_functions (name : string) :
  existsb (String.eqb name) tool_functions = true <-> In name tool_functions.
Proof.
  rewrite existsb_exists. split.
  - intros (x & Hin & Heq). apply String.eqb_eq in Heq. subst. exact Hin.
  - intros Hin. exists name. split; [exact Hin | apply String.eqb_refl].
Qed.

Lemma process_query_unknown (P : Platform) (q s : string) (d : dict)
    (tool_name : json) :
  completions_create P (selection_messages q) (3 # 10) = Returned s ->
  parse_tool_call (json_loads P) s = Returned (JObj d) ->
  get (JObj d) "tool" JNull = Returned tool_name ->
  not_in_tool_functions tool_name = Returned true ->
  process_query P q
  = ("Unknown tool: " ++ py_str P tool_name,
     [LLMCall (selection_messages q) (3 # 10)]).
Proof.
  intros Hc Hp Hg Hn. unfold process_query. rewrite Hc, Hp, Hg.
  cbn [get]. destruct (dict_get "parameters" d); rewrite Hn;
    destruct tool_name; reflexivity.
Qed.

(** An exception of the parsing ends the cycle in one of the two
    handlers. *)
Lemma process_query_parse_raised (P : Platform) (q s : string)
    (e : exn string) :
  completions_create P (selection_messages q) (3 # 10) = Returned s ->
  parse_tool_call (json_loads P) s = Raised e ->
  process_query P q = (handle e, [LLMCall (selection_messages q) (3 # 10)]).
Proof.
  intros Hc Hp. unfold process_query. rewrite Hc, Hp. reflexivity.
Qed.

(** C1, as the code has it.  For every answer [s] of the model and
    every [json.loads]: the whole answer, stripped, is parsed first and
    its value taken when that succeeds; an exception of that parse other
    than [JSONDecodeError] ends the parsing and is reported by the
    cycle as [Sorry, I encountered an error:] with its text; when the
    parse raises [JSONDecodeError] the answer is scanned with a brace
    counter, and an object that stands after prose without braces, from
    its opening brace to the matching closing brace, is recovered
    whatever follows it; when no part of the answer from an opening
    brace to a later closing brace parses, the parsing fails with
    [JSONDecodeError], and the cycle answers with the request to
    rephrase after its one completion; and an object without a ["tool"]
    key is no parse failure: the cycle answers that the tool [None] is
    unknown. *)
Theorem parse_tool_call_policy (loads : string -> outcome string json)
    (s : string) :
  (forall v, loads (strip s) = Returned v ->
             parse_tool_call loads s = Returned v)
  /\ (forall e, loads (strip s) = Raised e -> is_JSONDecodeError e = false ->
                parse_tool_call loads s = Raised e)
  /\ (forall pre obj post e v,
         s = pre ++ obj ++ post ->
         brace_free pre = true ->
         balanced_object obj ->
         loads (strip s) = Raised e -> is_JSONDecodeError e = true ->
         loads obj = Returned v ->
         parse_tool_call loads s = Returned v)
  /\ (forall e,
         loads (strip s) = Raised e -> is_JSONDecodeError e = true ->
         ~ object_found loads s ->
         parse_tool_call loads s = Raised no_valid_json)
  /\ (forall (P : Platform) (q : string),
         json_loads P = loads ->
         completions_create P (selection_messages q) (3 # 10) = Returned s ->
         (forall e,
             parse_tool_call loads s = Raised e ->
             (is_JSONDecodeError e = true ->
              process_query P q
              = (rephrase_message, [LLMCall (selection_messages q) (3 # 10)]))
             /\ (is_JSONDecodeError e = false ->
                 process_query P q
                 = ("Sorry, I encountered an error: " ++ exn_msg e,
                    [LLMCall (selection_messages q) (3 # 10)])))
         /\ (forall d,
                parse_tool_call loads s = Returned (JObj d) ->
                dict_get "tool" d = None ->
                process_query P q
                = ("Unknown tool: None",
                   [LLMCall (selection_messages q) (3 # 10)]))).
Proof.
  split; [| split; [| split; [| split]]].
  - intros v Hv. unfold parse_tool_call. rewrite Hv. reflexivity.
  - intros e He Hj. unfold parse_tool_call. rewrite He, Hj. reflexivity.
  - intros pre obj post e v -> Hpre Hobj He Hj Hv. unfold parse_tool_call.
    rewrite He, Hj. rewrite (@scan_loop_embedded loads pre obj post v);
      [reflexivity | assumption ..].
  - intros e He Hj Hno. unfold parse_tool_call.
    rewrite He, Hj, (@scan_loop_nothing _ _ Hno). reflexivity.
  - intros P q <- Hc. split.
    + intros e Hp. rewrite (@process_query_parse_raised _ _ _ _ Hc Hp).
      unfold handle. split; intros Hj; rewrite Hj; reflexivity.
    + intros d Hp Ht.
      rewrite (@process_query_unknown P q s d JNull Hc Hp).
      * reflexivity.
      * simpl. rewrite Ht. reflexivity.
      * reflexivity.
Qed.

(** The example of the specification: the object is recovered from the
    prose around it. *)
Lemma parse_tool_call_policy_witness :
  parse_tool_call Json.loads
    (lit "Sure! {`tool`: `get_current_weather`, `parameters`: {`location`: `London`}} Hope that helps")
  = Returned (JObj [ ("tool", JStr "get_current_weather");
                     ("parameters", JObj [("location", JStr "London")]) ]).
Proof.
  apply (proj1 (proj2 (proj2
           (parse_tool_call_policy Json.loads
              (lit "Sure! {`tool`: `get_current_weather`, `parameters`: {`location`: `London`}} Hope that helps"))))
         "Sure! "
         (lit "{`tool`: `get_current_weather`, `parameters`: {`location`: `London`}}")
         " Hope that helps" decode_error).
  - reflexivity.
  - reflexivity.
  - vm_compute. reflexivity.
  - vm_compute. reflexivity.
  - reflexivity.
  - vm_compute. reflexivity.
Defined.

(** Two answers on which the policy of the specification and the code
    differ.
    An object without a ["tool"] key parses, and the cycle does not end
    in the message for a parse failure.  An answer that starts with a
    stray closing brace is rejected although it contains a balanced
    object that parses. *)
Lemma parse_failure_counterexample :
  (parse_tool_call Json.loads (lit "{`parameters`: {`location`: `London`}}")
   = Returned (JObj [("parameters", JObj [("location", JStr "London")])])
   /\ fst (process_query
             (scripted (lit "{`parameters`: {`location`: `London`}}") ""
                (Returned ""))
             "What is the weather in London?")
      = "Unknown tool: None"
   /\ "Unknown tool: None" <> rephrase_message)
  /\ (parse_tool_call Json.loads (lit "} {`tool`: `get_current_weather`}")
      = Raised no_valid_json
      /\ balanced_object (lit "{`tool`: `get_current_weather`}")
      /\ lit "} {`tool`: `get_current_weather`}"
         = "} " ++ lit "{`tool`: `get_current_weather`}" ++ ""
      /\ Json.loads (lit "{`tool`: `get_current_weather`}")
         = Returned (JObj [("tool", JStr "get_current_weather")])).
Proof.
  repeat split; try (vm_compute; reflexivity).
  vm_compute. discriminate.
Qed.

(** C2, as the code has it.  When the decision is an object whose
    ["tool"] is missing, or is a name that is not a key of
    [tool_functions], the cycle raises nothing: it answers
    [Unknown tool:] followed by the name ([None] when missing), after
    the one completion that selected the tool and without calling a
    tool; the interactive session prints that answer and goes on with
    the next input. *)
Theorem unknown_tool_reply (P : Platform) (q s : string) (d : dict)
    (shown : string) :
  completions_create P (selection_messages q) (3 # 10) = Returned s ->
  parse_tool_call (json_loads P) s = Returned (JObj d) ->
  (dict_get "tool" d = None /\ shown = "None"
   \/ dict_get "tool" d = Some (JStr shown) /\ ~ In shown tool_functions) ->
  process_query P q
  = ("Unknown tool: " ++ shown, [LLMCall (selection_messages q) (3 # 10)])
  /\ forall (l : string) (rest : list input_event),
       strip l = q -> q <> "" -> is_exit q = false ->
       interactive_session P (Line l :: rest)
       = let '(printed, calls, st) := interactive_session P rest in
         ((newline ++ "Agent: " ++ ("Unknown tool: " ++ shown) ++ newline)
            :: printed,
          LLMCall (selection_messages q) (3 # 10) :: calls,
          st).
Proof.
  intros Hc Hp Ht.
  assert (Hq : process_query P q
               = ("Unknown tool: " ++ shown,
                  [LLMCall (selection_messages q) (3 # 10)])).
  { destruct Ht as [[Ht ->] | [Ht Hn]].
    - rewrite (@process_query_unknown P q s d JNull Hc Hp).
      + reflexivity.
      + simpl. rewrite Ht. reflexivity.
      + reflexivity.
    - rewrite (@process_query_unknown P q s d (JStr shown) Hc Hp).
      + reflexivity.
      + simpl. rewrite Ht. reflexivity.
      + cbn [not_in_tool_functions].
        destruct (existsb (String.eqb shown) tool_functions) eqn:E;
          [apply in_tool_functions in E; contradiction | reflexivity]. }
  split; [exact Hq |].
  intros l rest Hl Hne Hex. cbn [interactive_session].
  rewrite Hl, Hex.
  destruct (String.eqb q "") eqn:E; [apply String.eqb_eq in E; contradiction |].
  rewrite Hq. destruct (interactive_session P rest) as [[printed calls] st].
  reflexivity.
Qed.

Lemma unknown_tool_reply_witness :
  process_query
    (scripted (lit "{`tool`: `get_stock_price`, `parameters`: {}}") ""
       (Returned ""))
    "What is the price of ACME?"
  = ("Unknown tool: get_stock_price",
     [LLMCall (selection_messages "What is the price of ACME?") (3 # 10)]).
Proof.
  refine (proj1
            (@unknown_tool_reply
               (scripted (lit "{`tool`: `get_stock_price`, `parameters`: {}}") ""
                  (Returned ""))
               "What is the price of ACME?"
               (lit "{`tool`: `get_stock_price`, `parameters`: {}}")
               [("tool", JStr "get_stock_price"); ("parameters", JObj [])]
               "get_stock_price" eq_refl eq_refl
               (or_intror (conj eq_refl _)))).
  simpl. intuition discriminate.
Defined.

(** A decision that names a tool the registry does not have is answered
    with [Unknown tool: get_stock_price], which is not the message that
    asks the user to rephrase. *)
Lemma unknown_tool_counterexample :
  fst (process_query
         (scripted (lit "{`tool`: `get_stock_price`, `parameters`: {}}") ""
            (Returned ""))
         "What is the price of ACME?")
  = "Unknown tool: get_stock_price"
  /\ "Unknown tool: get_stock_price" <> rephrase_message
  /\ contains "rephrase" "Unknown tool: get_stock_price" = false.
Proof.
  split; [vm_compute; reflexivity |]. split; [discriminate | reflexivity].
Qed.

(** C3, as the code has it.  When the selected tool is in the registry
    and its invocation raises, no second completion is requested: the
    calls of the cycle are the selecting completion and the tool call.
    The answer is made from the exception alone: it is [Sorry, I
    encountered an error:] followed by the text of the exception and
    nothing else, so that the tool is named only when that text names
    it; it is the request to rephrase when the exception is a
    [JSONDecodeError]. *)
Theorem tool_error_reply (P : Platform) (q s : string) (d : dict)
    (name : string) (parameters : json) (e : exn string) :
  completions_create P (selection_messages q) (3 # 10) = Returned s ->
  parse_tool_call (json_loads P) s = Returned (JObj d) ->
  dict_get "tool" d = Some (JStr name) ->
  In name tool_functions ->
  parameters = match dict_get "parameters" d with
               | Some v => v
               | None => JObj []
               end ->
  call_tool P name parameters = Raised e ->
  process_query P q
  = (handle e,
     [LLMCall (selection_messages q) (3 # 10); ToolCall name parameters])
  /\ (is_JSONDecodeError e = false ->
      handle e = "Sorry, I encountered an error: " ++ exn_msg e)
  /\ (is_JSONDecodeError e = true -> handle e = rephrase_message).
Proof.
  intros Hc Hp Ht Hin -> He. split; [| split].
  - unfold process_query. rewrite Hc, Hp. cbn [get]. rewrite Ht.
    apply in_tool_functions in Hin.
    destruct (dict_get "parameters" d); cbn [not_in_tool_functions];
      rewrite Hin; cbn [negb]; rewrite He; reflexivity.
  - intros H. unfold handle. rewrite H. reflexivity.
  - intros H. unfold handle. rewrite H. reflexivity.
Qed.

Lemma tool_error_reply_witness :
  process_query
    (scripted
       (lit "{`tool`: `get_current_weather`, `parameters`: {`location`: `London`}}")
       ""
       (Raised (Exn OtherException "API request failed: 401 - Unauthorized")))
    "What is the weather in London?"
  = ("Sorry, I encountered an error: API request failed: 401 - Unauthorized",
     [ LLMCall (selection_messages "What is the weather in London?") (3 # 10);
       ToolCall "get_current_weather" (JObj [("location", JStr "London")]) ]).
Proof.
  apply (proj1
           (@tool_error_reply
              (scripted
                 (lit "{`tool`: `get_current_weather`, `parameters`: {`location`: `London`}}")
                 ""
                 (Raised (Exn OtherException "API request failed: 401 - Unauthorized")))
              "What is the weather in London?"
              (lit "{`tool`: `get_current_weather`, `parameters`: {`location`: `London`}}")
              [ ("tool", JStr "get_current_weather");
                ("parameters", JObj [("location", JStr "London")]) ]
              "get_current_weather"
              (JObj [("location", JStr "London")])
              (Exn OtherException "API request failed: 401 - Unauthorized")
              eq_refl eq_refl eq_refl (or_introl eq_refl) eq_refl eq_refl)).
Defined.

(** The weather tool fails with an HTTP error whose text does not name
    the tool: the answer gives the cause and does not name the tool. *)
Lemma tool_error_counterexample :
  fst (process_query
         (scripted
            (lit "{`tool`: `get_current_weather`, `parameters`: {`location`: `London`}}")
            ""
            (Raised (Exn OtherException "API request failed: 401 - Unauthorized")))
         "What is the weather in London?")
  = "Sorry, I encountered an error: API request failed: 401 - Unauthorized"
  /\ contains "get_current_weather"
       "Sorry, I encountered an error: API request failed: 401 - Unauthorized"
     = false.
Proof. split; vm_compute; reflexivity. Qed.

End AgentFacts.


(** ** Routing: symmetry, matrices and alternatives *)

Module RoutingExtFacts.

Import Py PyMath Routing RoutingExt.
Open Scope R_scope.

(** *** The Haversine distance as a metric *)

Lemma computed_a_sym (F : Float64) (lat1 lon1 lat2 lon2 : R) :
  computed_a F lat1 lon1 lat2 lon2 = computed_a F lat2 lon2 lat1 lon1.
Proof.
  unfold computed_a, radians.
  rewrite (a_error_symmetric F lat1 lon1 lat2 lon2).
  replace ((lat1 - lat2) * (PI / 180) / 2)
    with (- ((lat2 - lat1) * (PI / 180) / 2)) by lra.
  replace ((lon1 - lon2) * (PI / 180) / 2)
    with (- ((lon2 - lon1) * (PI / 180) / 2)) by lra.
  rewrite !sin_neg. simpl. ring.
Qed.

Lemma haversine_sym (F : Float64) (lat1 lon1 lat2 lon2 : R) :
  _calculate_haversine_distance F lat1 lon1 lat2 lon2
  = _calculate_haversine_distance F lat2 lon2 lat1 lon1.
Proof.
  unfold _calculate_haversine_distance. cbv zeta.
  fold (computed_a F lat1 lon1 lat2 lon2).
  fold (computed_a F lat2 lon2 lat1 lon1).
  rewrite computed_a_sym. reflexivity.
Qed.

(** X1. The distance does not depend on the direction: from A to B the
    function returns what it returns from B to A, or raises in both
    directions, for the formula of the routing server and for the copy
    of it in the POI server. *)
Theorem haversine_symmetric (F : Float64) (lat1 lon1 lat2 lon2 : R) :
  _calculate_haversine_distance F lat1 lon1 lat2 lon2
  = _calculate_haversine_distance F lat2 lon2 lat1 lon1
  /\ POI._calculate_distance F lat1 lon1 lat2 lon2
     = POI._calculate_distance F lat2 lon2 lat1 lon1.
Proof.
  split; [apply haversine_sym |].
  rewrite !Trig.poi_distance_is_haversine. apply haversine_sym.
Qed.

(** X2. A distance that is returned is never negative and never more
    than half the circumference of the sphere of radius 6371 km,
    whatever the four coordinates are (also out of range ones). *)
Theorem haversine_bounds (F : Float64) (lat1 lon1 lat2 lon2 : R) :
  (forall d,
      _calculate_haversine_distance F lat1 lon1 lat2 lon2 = Returned d ->
      0 <= d <= 6371000 * PI)
  /\ (forall d,
         POI._calculate_distance F lat1 lon1 lat2 lon2 = Returned d ->
         0 <= d <= 6371000 * PI).
Proof.
  split; intros d H.
  - exact (Trig.haversine_range _ _ _ _ _ H).
  - rewrite Trig.poi_distance_is_haversine in H.
    exact (Trig.haversine_range _ _ _ _ _ H).
Qed.

Lemma haversine_bounds_witness :
  exists d,
    _calculate_haversine_distance exact 40.7484 (-73.9857) 40.7829 (-73.9654)
    = Returned d
    /\ 0 <= d <= 6371000 * PI.
Proof.
  destruct (Trig.haversine_esb_central_park exact) as (d & Hd & _).
  exists d. split; [exact Hd |].
  exact (proj1 (haversine_bounds exact 40.7484 (-73.9857) 40.7829 (-73.9654))
           d Hd).
Defined.

(** *** [calculate_route] *)

Lemma speed_kmh_pos (mode : string) : 0 < speed_kmh mode.
Proof.
  unfold speed_kmh.
  repeat match goal with
         | |- context [String.eqb ?a ?b] => destruct (String.eqb a b)
         end; lra.
Qed.

(** X3. Every route that [calculate_route] returns has a distance and
    a duration that are not negative, whatever the coordinates and the
    mode; the duration is the time the distance takes at the speed of
    the mode, and a mode the table does not know is driven at 50
    km/h. *)
Theorem calculate_route_nonnegative (F : Float64) (self self' : RoutingServer)
    (origin_lat origin_lon dest_lat dest_lon : R) (mode : string)
    (r : RouteResult.t) :
  calculate_route F origin_lat origin_lon dest_lat dest_lon mode self
  = (Returned r, self') ->
  0 <= RouteResult.distance_meters r
  /\ 0 <= RouteResult.duration_seconds r
  /\ RouteResult.duration_seconds r
     = RouteResult.distance_meters r / 1000 / speed_kmh mode * 3600
  /\ (mode <> "driving"%string -> mode <> "walking"%string ->
      mode <> "cycling"%string -> mode <> "transit"%string ->
      speed_kmh mode = 50).
Proof.
  intros Hrun. apply RoutingFacts.calculate_route_returned in Hrun.
  destruct Hrun as (Hd & _ & Ht & _).
  pose proof (Trig.haversine_range _ _ _ _ _ Hd) as [H0 _].
  pose proof (speed_kmh_pos mode) as Hs.
  rewrite Ht. split; [exact H0 |]. split; [| split; [reflexivity |]].
  - apply Rmult_le_pos; [| lra].
    apply Rmult_le_pos; [lra | left; apply Rinv_0_lt_compat; exact Hs].
  - intros H1 H2 H3 H4. unfold speed_kmh.
    apply String.eqb_neq in H1, H2, H3, H4. rewrite H1, H2, H3, H4.
    reflexivity.
Qed.

Lemma calculate_route_nonnegative_witness :
  exists r self',
    calculate_route exact 40.7484 (-73.9857) 40.7829 (-73.9654) "flying"
      {| api_key := ""; base_url := ""; session := None |}
    = (Returned r, self')
    /\ 0 <= RouteResult.duration_seconds r
    /\ speed_kmh "flying" = 50.
Proof.
  destruct (RoutingFacts.calculate_route_exact
              {| api_key := ""; base_url := ""; session := None |}
              40.7484 (-73.9857) 40.7829 (-73.9654) "flying") as (r & Hrun).
  exists r. eexists. split; [exact Hrun |].
  destruct (@calculate_route_nonnegative _ _ _ _ _ _ _ _ _ Hrun)
    as (_ & Ht & _ & Hs).
  split; [exact Ht | apply Hs; discriminate].
Defined.

(** X4. The steps of a route that [calculate_route] returns are three,
    and they lead from the origin to the destination, each starting
    where the one before ends. *)
Theorem calculate_route_steps_linked (F : Float64) (self self' : RoutingServer)
    (origin_lat origin_lon dest_lat dest_lon : R) (mode : string)
    (r : RouteResult.t) :
  calculate_route F origin_lat origin_lon dest_lat dest_lon mode self
  = (Returned r, self') ->
  List.length (RouteResult.steps r) = 3%nat
  /\ linked (origin_lat, origin_lon) (RouteResult.steps r) (dest_lat, dest_lon).
Proof.
  intros Hrun. apply RoutingFacts.calculate_route_returned in Hrun.
  destruct Hrun as (_ & _ & _ & _ & _ & Hlen & Hlink). split; assumption.
Qed.

Lemma calculate_route_steps_linked_witness :
  exists r self',
    calculate_route exact 40.7484 (-73.9857) 40.7829 (-73.9654) "driving"
      {| api_key := ""; base_url := ""; session := None |}
    = (Returned r, self')
    /\ linked (40.7484, -73.9857) (RouteResult.steps r) (40.7829, -73.9654).
Proof.
  destruct (RoutingFacts.calculate_route_exact
              {| api_key := ""; base_url := ""; session := None |}
              40.7484 (-73.9857) 40.7829 (-73.9654) "driving") as (r & Hrun).
  exists r. eexists. split; [exact Hrun |].
  exact (proj2 (@calculate_route_steps_linked _ _ _ _ _ _ _ _ _ Hrun)).
Defined.

(** *** [calculate_distance_matrix] *)

(** A row that is returned holds the distances of the origin to the
    destinations, in their order, and the durations of these
    distances. *)
Lemma matrix_row_returned (F : Float64) (origin : R * R)
    (destinations : list (R * R)) (mode : string) (self self' : RoutingServer)
    (row : list R * list R) :
  matrix_row F origin destinations mode self = (Returned row, self') ->
  Forall2 (fun destination d =>
             _calculate_haversine_distance F (fst origin) (snd origin)
               (fst destination) (snd destination) = Returned d)
          destinations (fst row)
  /\ snd row = map (fun d => d / 1000 / speed_kmh mode * 3600) (fst row).
Proof.
  revert self self' row.
  induction destinations as [| dst rest IH]; intros self self' row H.
  - injection H as <- _. split; [constructor | reflexivity].
  - cbn [matrix_row] in H. unfold bind at 1 in H.
    destruct (calculate_route F (fst origin) (snd origin) (fst dst) (snd dst)
                mode self) as [[route | e] s1] eqn:Er; [| discriminate].
    unfold bind at 1 in H.
    destruct (matrix_row F origin rest mode s1) as [[row' | e] s2] eqn:Em;
      [| discriminate].
    injection H as <- _.
    apply RoutingFacts.calculate_route_returned in Er.
    destruct Er as (Hd & _ & Ht & _).
    destruct (IH _ _ _ Em) as [Hrow Hdur]. cbn [fst snd map]. split.
    + constructor; assumption.
    + rewrite Ht, Hdur. reflexivity.
Qed.

Lemma matrix_rows_returned (F : Float64) (origins destinations : list (R * R))
    (mode : string) (self self' : RoutingServer)
    (rows : list (list R) * list (list R)) :
  matrix_rows F origins destinations mode self = (Returned rows, self') ->
  Forall2 (fun origin row =>
             Forall2 (fun destination d =>
                        _calculate_haversine_distance F (fst origin) (snd origin)
                          (fst destination) (snd destination) = Returned d)
                     destinations row)
          origins (fst rows)
  /\ snd rows
     = map (map (fun d => d / 1000 / speed_kmh mode * 3600)) (fst rows).
Proof.
  revert self self' rows.
  induction origins as [| o rest IH]; intros self self' rows H.
  - injection H as <- _. split; [constructor | reflexivity].
  - cbn [matrix_rows] in H. unfold bind at 1 in H.
    destruct (matrix_row F o destinations mode self) as [[row | e] s1] eqn:Er;
      [| discriminate].
    unfold bind at 1 in H.
    destruct (matrix_rows F rest destinations mode s1) as [[rows' | e] s2]
      eqn:Em; [| discriminate].
    injection H as <- _.
    apply matrix_row_returned in Er. destruct Er as [Hrow Hdur].
    destruct (IH _ _ _ Em) as [Hrows Hdurs]. cbn [fst snd map]. split.
    + constructor; assumption.
    + rewrite Hdur, Hdurs. reflexivity.
Qed.

(** Without rounding error the matrix is returned. *)
Lemma matrix_row_exact (origin : R * R) (destinations : list (R * R))
    (mode : string) (self : RoutingServer) :
  exists row self',
    matrix_row exact origin destinations mode self = (Returned row, self').
Proof.
  revert self. induction destinations as [| dst rest IH]; intros self.
  - eexists. eexists. reflexivity.
  - cbn [matrix_row]. unfold bind at 1.
    destruct (RoutingFacts.calculate_route_exact self (fst origin) (snd origin)
                (fst dst) (snd dst) mode) as (route & ->).
    unfold bind at 1.
    destruct (IH (snd (_get_session self))) as (row & s & ->).
    eexists. eexists. reflexivity.
Qed.

Lemma matrix_rows_exact (origins destinations : list (R * R))
    (mode : string) (self : RoutingServer) :
  exists rows self',
    matrix_rows exact origins destinations mode self = (Returned rows, self').
Proof.
  revert self. induction origins as [| o rest IH]; intros self.
  - eexists. eexists. reflexivity.
  - cbn [matrix_rows]. unfold bind at 1.
    destruct (matrix_row_exact o destinations mode self) as (row & s1 & ->).
    unfold bind at 1. destruct (IH s1) as (rows & s2 & ->).
    eexists. eexists. reflexivity.
Qed.

Lemma calculate_distance_matrix_exact (origins destinations : list (R * R))
    (mode : string) (self : RoutingServer) :
  exists m self',
    calculate_distance_matrix exact origins destinations mode self
    = (Returned m, self').
Proof.
  unfold calculate_distance_matrix, bind.
  destruct (matrix_rows_exact origins destinations mode self)
    as (rows & s & ->).
  eexists. eexists. reflexivity.
Qed.

Lemma calculate_distance_matrix_returned (F : Float64)
    (origins destinations : list (R * R)) (mode : string)
    (self self' : RoutingServer) (m : DistanceMatrix) :
  calculate_distance_matrix F origins destinations mode self
  = (Returned m, self') ->
  Forall2 (fun origin row =>
             Forall2 (fun destination d =>
                        _calculate_haversine_distance F (fst origin) (snd origin)
                          (fst destination) (snd destination) = Returned d)
                     destinations row)
          origins (distances_meters m)
  /\ durations_seconds m
     = map (map (fun d => d / 1000 / speed_kmh mode * 3600))
           (distances_meters m).
Proof.
  unfold calculate_distance_matrix, bind, ret.
  destruct (matrix_rows F origins destinations mode self) as [[rows | e] s]
    eqn:E; [| discriminate].
  intros H. injection H as <- _. cbn [distances_meters durations_seconds].
  exact (matrix_rows_returned _ _ _ _ _ E).
Qed.

(** X5. A matrix that [calculate_distance_matrix] returns has one row
    for each origin and one entry for each destination, in their order:
    the entry of [distances_meters] for an origin and a destination is
    the distance the Haversine function returns for them, and the entry
    of [durations_seconds] is the time that distance takes at the speed
    of the mode. *)
Theorem calculate_distance_matrix_entries (F : Float64)
    (origins destinations : list (R * R)) (mode : string)
    (self self' : RoutingServer) (m : DistanceMatrix) :
  calculate_distance_matrix F origins destinations mode self
  = (Returned m, self') ->
  Forall2 (fun origin row =>
             Forall2 (fun destination d =>
                        _calculate_haversine_distance F (fst origin) (snd origin)
                          (fst destination) (snd destination) = Returned d)
                     destinations row)
          origins (distances_meters m)
  /\ List.length (distances_meters m) = List.length origins
  /\ Forall (fun row => List.length row = List.length destinations)
       (distances_meters m)
  /\ durations_seconds m
     = map (map (fun d => d / 1000 / speed_kmh mode * 3600))
           (distances_meters m).
Proof.
  intros H. apply calculate_distance_matrix_returned in H.
  destruct H as [Hrows Hdur]. split; [exact Hrows |].
  split; [symmetry; exact (Forall2_length Hrows) |]. split; [| exact Hdur].
  clear Hdur. induction Hrows as [| o row os rows Hrow _ IH]; constructor.
  - symmetry. exact (Forall2_length Hrow).
  - exact IH.
Qed.

Lemma calculate_distance_matrix_entries_witness :
  exists m self',
    calculate_distance_matrix exact
      [(40.7484, -73.9857); (40.7589, -73.9851)] [(40.7614, -73.9776)]
      "driving" {| api_key := ""; base_url := ""; session := None |}
    = (Returned m, self')
    /\ List.length (distances_meters m) = 2%nat.
Proof.
  destruct (calculate_distance_matrix_exact
              [(40.7484, -73.9857); (40.7589, -73.9851)] [(40.7614, -73.9776)]
              "driving" {| api_key := ""; base_url := ""; session := None |})
    as (m & s & Hrun).
  exists m, s. split; [exact Hrun |].
  exact (proj1 (proj2 (@calculate_distance_matrix_entries _ _ _ _ _ _ _ Hrun))).
Defined.

Lemma Forall2_nth {A B : Type} (P : A -> B -> Prop) (l : list A) (l' : list B)
    (i : nat) (a : A) (b : B) :
  Forall2 P l l' -> (i < List.length l)%nat -> P (nth i l a) (nth i l' b).
Proof.
  intros H. revert i. induction H as [| x y l l' Hxy _ IH]; intros i Hi.
  - simpl in Hi. lia.
  - destruct i as [| i]; simpl; [exact Hxy | apply IH; simpl in Hi; lia].
Qed.

(** X6. A matrix that is returned for a list of points against itself
    is symmetric and has zeros on its diagonal. *)
Theorem calculate_distance_matrix_symmetric (F : Float64)
    (points : list (R * R)) (mode : string) (self self' : RoutingServer)
    (m : DistanceMatrix) :
  calculate_distance_matrix F points points mode self = (Returned m, self') ->
  forall i j,
    (i < List.length points)%nat -> (j < List.length points)%nat ->
    nth j (nth i (distances_meters m) []) 0
    = nth i (nth j (distances_meters m) []) 0
    /\ nth i (nth i (distances_meters m) []) 0 = 0.
Proof.
  intros H i j Hi Hj. apply calculate_distance_matrix_returned in H.
  destruct H as [Hrows _].
  assert (E : forall a b, (a < List.length points)%nat ->
                          (b < List.length points)%nat ->
              _calculate_haversine_distance F
                (fst (nth a points (0, 0))) (snd (nth a points (0, 0)))
                (fst (nth b points (0, 0))) (snd (nth b points (0, 0)))
              = Returned (nth b (nth a (distances_meters m) []) 0)).
  { intros a b Ha Hb.
    pose proof (@Forall2_nth _ _ _ _ _ a (0, 0) [] Hrows Ha) as Hrow.
    cbv beta in Hrow.
    exact (@Forall2_nth _ _ _ _ _ b (0, 0) 0 Hrow Hb). }
  split.
  - pose proof (E i j Hi Hj) as Hij. pose proof (E j i Hj Hi) as Hji.
    rewrite haversine_sym, Hji in Hij. injection Hij as Hij.
    symmetry. exact Hij.
  - pose proof (E i i Hi Hi) as Hii.
    rewrite Trig.haversine_same_point in Hii. injection Hii as Hii.
    symmetry. exact Hii.
Qed.

Lemma calculate_distance_matrix_symmetric_witness :
  exists m self',
    calculate_distance_matrix exact [(40.7484, -73.9857); (40.7829, -73.9654)]
      [(40.7484, -73.9857); (40.7829, -73.9654)] "walking"
      {| api_key := ""; base_url := ""; session := None |}
    = (Returned m, self')
    /\ nth 1 (nth 0 (distances_meters m) []) 0
       = nth 0 (nth 1 (distances_meters m) []) 0.
Proof.
  destruct (calculate_distance_matrix_exact
              [(40.7484, -73.9857); (40.7829, -73.9654)]
              [(40.7484, -73.9857); (40.7829, -73.9654)] "walking"
              {| api_key := ""; base_url := ""; session := None |})
    as (m & s & Hrun).
  exists m, s. split; [exact Hrun |].
  apply (@calculate_distance_matrix_symmetric _ _ _ _ _ _ Hrun 0%nat 1%nat);
    simpl; lia.
Defined.

(** *** [get_route_alternatives] *)

Lemma range_length (start stop : Z) :
  List.length (range start stop) = Z.to_nat (stop - start).
Proof. unfold range. rewrite length_map, length_seq. reflexivity. Qed.


Lemma get_route_alternatives_returned (F : Float64)
    (origin_lat origin_lon dest_lat dest_lon : R) (alternatives : Z)
    (self self' : RoutingServer) (routes : list RouteResult.t) :
  get_route_alternatives F origin_lat origin_lon dest_lat dest_lon
    alternatives self
  = (Returned routes, self') ->
  exists base,
    calculate_route F origin_lat origin_lon dest_lat dest_lon "driving" self
    = (Returned base, self')
    /\ routes = base :: map (alt_route base) (range 1 (Z.min alternatives 3)).
Proof.
  unfold get_route_alternatives, bind, ret.
  destruct (calculate_route F origin_lat origin_lon dest_lat dest_lon
              "driving" self) as [[base | e] s]; [| discriminate].
  intros H. injection H as <- <-. exists base. split; reflexivity.
Qed.

Lemma get_route_alternatives_exact
    (origin_lat origin_lon dest_lat dest_lon : R) (alternatives : Z)
    (self : RoutingServer) :
  exists routes self',
    get_route_alternatives exact origin_lat origin_lon dest_lat dest_lon
      alternatives self
    = (Returned routes, self').
Proof.
  unfold get_route_alternatives, bind, ret.
  destruct (RoutingFacts.calculate_route_exact self origin_lat origin_lon
              dest_lat dest_lon "driving") as (base & ->).
  eexists. eexists. reflexivity.
Qed.

(** X7. A list that [get_route_alternatives] returns has at least one
    and at most three routes: as many as asked for, but one when fewer
    are asked for (also zero or a negative number) and three when more
    are.  The first one is the route [calculate_route] returns for
    driving. *)
Theorem get_route_alternatives_count (F : Float64)
    (origin_lat origin_lon dest_lat dest_lon : R) (alternatives : Z)
    (self self' : RoutingServer) (routes : list RouteResult.t) :
  get_route_alternatives F origin_lat origin_lon dest_lat dest_lon
    alternatives self
  = (Returned routes, self') ->
  Z.of_nat (List.length routes) = Z.max 1 (Z.min alternatives 3)
  /\ exists base,
       calculate_route F origin_lat origin_lon dest_lat dest_lon "driving" self
       = (Returned base, self')
       /\ nth_error routes 0 = Some base.
Proof.
  intros H. apply get_route_alternatives_returned in H.
  destruct H as (base & Hb & ->). split.
  - cbn [List.length]. rewrite length_map, range_length. lia.
  - exists base. split; [exact Hb | reflexivity].
Qed.

Lemma get_route_alternatives_count_witness :
  exists routes self',
    get_route_alternatives exact 40.7484 (-73.9857) 40.7829 (-73.9654) 0
      {| api_key := ""; base_url := ""; session := None |}
    = (Returned routes, self')
    /\ Z.of_nat (List.length routes) = 1%Z.
Proof.
  destruct (get_route_alternatives_exact 40.7484 (-73.9857) 40.7829 (-73.9654)
              0 {| api_key := ""; base_url := ""; session := None |})
    as (routes & s & Hrun).
  exists routes, s. split; [exact Hrun |].
  exact (proj1 (@get_route_alternatives_count _ _ _ _ _ _ _ _ _ Hrun)).
Defined.



End RoutingExtFacts.
(** ** POI server: completeness, text search and details *)

Module POIExtFacts.

Import Py PyMath Text POI POIExt POIFacts.
Open Scope R_scope.

(** *** More on [search_nearby] *)

(** X9. With a limit that is at least the size of the database, a list
    that [search_nearby] returns holds exactly the records that lie
    within the radius and have the category asked for (every record when
    no category is given), each with its distance from the centre filled
    in. *)
Theorem search_nearby_complete (F : Float64) (self self' : POIServer)
    (lat lon r : R) (cat : option string) (limit : Z) (l : list POIResult) :
  (Z.of_nat (List.length (_mock_pois self)) <= limit)%Z ->
  search_nearby F lat lon r cat limit self = (Returned l, self') ->
  forall q,
    In q l <->
    exists p d,
      In p (_mock_pois self)
      /\ distance_from F lat lon p = Returned d
      /\ q = with_distance p d
      /\ d <= r
      /\ match cat with
         | Some c => category p = c
         | None => True
         end.
Proof.
  intros Hl H q. apply search_nearby_returned in H.
  destruct H as (_ & found & Hf & ->).
  rewrite slice_to_all.
  - rewrite sort_by_In, (@nearby_loop_In _ _ _ _ _ _ _ q Hf). split.
    + intros (p & d & Hp & Hd & Hq & Hr & Hc). exists p, d.
      repeat split; try assumption.
      destruct cat; [apply String.eqb_eq; exact Hc | exact I].
    + intros (p & d & Hp & Hd & Hq & Hr & Hc). exists p, d.
      repeat split; try assumption.
      destruct cat; [apply String.eqb_eq; exact Hc | reflexivity].
  - rewrite sort_by_length.
    pose proof (@nearby_loop_length _ _ _ _ _ _ _ Hf). lia.
Qed.

Lemma search_nearby_complete_witness :
  exists l d,
    search_nearby exact 40.7484 (-73.9857) 5000 (Some "park"%string) 10
      (__init__ "")
    = (Returned l, __init__ "")
    /\ distance_from exact 40.7484 (-73.9857) central_park = Returned d
    /\ In (with_distance central_park d) l.
Proof.
  destruct (search_nearby_exact (__init__ "") 40.7484 (-73.9857) 5000
              (Some "park"%string) 10) as (found & _ & Hrun).
  destruct (Trig.haversine_esb_central_park exact) as (d & Hd & Hr).
  eexists. exists d. split; [exact Hrun |]. split; [exact Hd |].
  assert (Hl : (Z.of_nat (List.length (_mock_pois (__init__ ""))) <= 10)%Z)
    by (simpl; lia).
  apply (@search_nearby_complete _ _ _ _ _ _ _ _ _ Hl Hrun).
  exists central_park, d. split; [simpl; tauto |]. split; [exact Hd |].
  split; [reflexivity |]. split; [lra | reflexivity].
Defined.

(** X10. When no record of the database is at distance 0.0 from the
    centre, a list that [search_nearby] returns is in ascending order of
    distance. *)
Theorem search_nearby_sorted_away_from_records (F : Float64)
    (self self' : POIServer) (lat lon r : R) (cat : option string)
    (limit : Z) (l : list POIResult) :
  (forall p d, In p (_mock_pois self) ->
               distance_from F lat lon p = Returned d -> d <> 0) ->
  search_nearby F lat lon r cat limit self = (Returned l, self') ->
  sorted_by_distance l.
Proof.
  intros Hnz H.
  exact (@search_nearby_sorted_off_centre _ _ _ _ _ _ _ _ _ Hnz H).
Qed.

Lemma mock_latitudes (p : POIResult) :
  In p _initialize_mock_pois ->
  0.001 <= latitude p - 40.75 \/ 0.001 <= 40.75 - latitude p.
Proof.
  intros H. simpl in H.
  repeat (destruct H as [<- | H]; [simpl; lra |]). contradiction.
Qed.

Lemma search_nearby_sorted_away_from_records_witness :
  exists l,
    search_nearby exact 40.75 (-73.98) 5000 None 10 (__init__ "")
    = (Returned l, __init__ "")
    /\ sorted_by_distance l.
Proof.
  destruct (search_nearby_exact (__init__ "") 40.75 (-73.98) 5000 None 10)
    as (found & _ & Hrun).
  eexists. split; [exact Hrun |].
  assert (Hnz : forall p d,
             In p (_mock_pois (__init__ "")) ->
             distance_from exact 40.75 (-73.98) p = Returned d -> d <> 0).
  { intros p d Hp Hd.
    destruct (@mock_distances_positive exact 40.75 (-73.98) p)
      as (d' & Hd' & Hpos);
      [lra | lra | exact mock_latitudes | exact Hp |].
    rewrite Hd in Hd'. injection Hd' as <-. lra. }
  exact (@search_nearby_sorted_away_from_records _ _ _ _ _ _ _ _ _ Hnz Hrun).
Defined.

(** *** [search_by_category] *)

(** X11. Every record of a list that [search_by_category] returns has
    the category asked for and lies within the radius; when a minimum
    rating is given it has a rating, which is not below it; when a
    maximum price level is given, its price level, if it has one, is not
    above it.  With a limit that is not negative, at most that many
    records are returned. *)
Theorem search_by_category_sound (F : Float64) (self self' : POIServer)
    (cat : string) (lat lon r : R) (min_rating : option R)
    (max_price_level : option Z) (limit : Z) (l : list POIResult) :
  search_by_category F cat lat lon r min_rating max_price_level limit self
  = (Returned l, self') ->
  ((0 <= limit)%Z -> (Z.of_nat (List.length l) <= limit)%Z)
  /\ forall q,
       In q l ->
       category q = cat
       /\ (exists d, distance_meters q = Some d /\ d <= r)
       /\ (forall m, min_rating = Some m ->
                     exists x, rating q = Some x /\ m <= x)
       /\ (forall m p, max_price_level = Some m ->
                       price_level q = Some p -> (p <= m)%Z).
Proof.
  intros H. apply search_by_category_returned in H.
  destruct H as (_ & nearby & Hn & ->).
  split; [apply slice_to_length |].
  intros q Hq. apply slice_to_incl, apply_filters_In in Hq.
  destruct Hq as (Hin & Hrate & Hprice).
  apply search_nearby_returned in Hn. destruct Hn as (_ & found & Hf & ->).
  apply slice_to_incl, sort_by_In in Hin.
  apply (@nearby_loop_In _ _ _ _ _ _ _ q Hf) in Hin.
  destruct Hin as (p & d & _ & _ & -> & Hd & Hc).
  split; [apply String.eqb_eq; exact Hc |].
  split; [exists d; split; [reflexivity | exact Hd] |].
  split.
  - intros m ->. unfold rating_ok in Hrate. cbn [rating with_distance] in *.
    destruct (rating p) as [x |]; [| discriminate].
    exists x. split; [reflexivity |].
    apply negb_true_iff, flt_false in Hrate. exact Hrate.
  - intros m pl -> Hpl. unfold price_ok in Hprice. rewrite Hpl in Hprice.
    apply negb_true_iff, Z.ltb_ge in Hprice. exact Hprice.
Qed.

Lemma search_by_category_sound_witness :
  exists l,
    search_by_category exact "restaurant" 40.7484 (-73.9857) 5000 (Some 4)
      (Some 2%Z) 10 (__init__ "")
    = (Returned l, __init__ "")
    /\ (Z.of_nat (List.length l) <= 10)%Z.
Proof.
  destruct (search_by_category_exact (__init__ "") "restaurant" 40.7484
              (-73.9857) 5000 (Some 4) (Some 2%Z) 10) as (found & _ & Hrun).
  eexists. split; [exact Hrun |].
  apply (proj1 (@search_by_category_sound _ _ _ _ _ _ _ _ _ _ _ Hrun)). lia.
Defined.

(** *** [search_text] *)

Lemma text_loop_In (F : Float64) (query_lower : string)
    (location : option (R * R)) (radius_meters : option R)
    (pois l : list POIResult) (q : POIResult) :
  text_loop F query_lower location radius_meters pois = Returned l ->
  (In q l <->
   exists p, In p pois
             /\ matches_query query_lower p = true
             /\ kept_as F location radius_meters p q).
Proof.
  revert l. induction pois as [| p pois IH]; intros l H.
  - injection H as <-. split; [contradiction | intros (p & [] & _)].
  - cbn [text_loop] in H.
    assert (Hskip : forall l',
               text_loop F query_lower location radius_meters pois
               = Returned l' ->
               In q l' ->
               exists p0, In p0 (p :: pois)
                          /\ matches_query query_lower p0 = true
                          /\ kept_as F location radius_meters p0 q).
    { intros l' Hl' Hq. apply (IH _ Hl') in Hq.
      destruct Hq as (p0 & H0 & H1). exists p0. split; [right; exact H0 | exact H1]. }
    assert (Hback : forall l' p0,
               text_loop F query_lower location radius_meters pois
               = Returned l' ->
               In p0 pois ->
               matches_query query_lower p0 = true ->
               kept_as F location radius_meters p0 q ->
               In q l').
    { intros l' p0 Hl' H0 H1 H2. apply (IH _ Hl'). exists p0. tauto. }
    destruct (matches_query query_lower p) eqn:Em.
    + unfold model_copy in H. destruct location as [[lat lon] |].
      * destruct (_calculate_distance F lat lon (latitude p) (longitude p))
          as [d |] eqn:Ed; [| discriminate].
        destruct (text_loop F query_lower (Some (lat, lon)) radius_meters pois)
          as [results |] eqn:Et; [| discriminate].
        assert (Hhead : forall d',
                   distance_from F lat lon p = Returned d' -> d' = d).
        { intros d' Hd'. unfold distance_from in Hd'. rewrite Ed in Hd'.
          injection Hd' as <-. reflexivity. }
        destruct radius_meters as [radius |].
        -- destruct (fle d radius) eqn:Er; injection H as <-.
           ++ apply fle_true in Er. split.
              ** intros [<- | Hq]; [| exact (Hskip _ eq_refl Hq)].
                 exists p. split; [left; reflexivity |]. split; [exact Em |].
                 exists d. split; [exact Ed |]. split; [reflexivity | exact Er].
              ** intros (p0 & [Heq | Hin] & Hm & Hk).
                 --- subst p0. destruct Hk as (d' & Hd' & -> & _).
                     rewrite (Hhead _ Hd'). left. reflexivity.
                 --- right. exact (Hback _ _ eq_refl Hin Hm Hk).
           ++ split; [exact (Hskip _ eq_refl) |].
              intros (p0 & [Heq | Hin] & Hm & Hk).
              ** subst p0. destruct Hk as (d' & Hd' & _ & Hr).
                 rewrite (Hhead _ Hd') in Hr. apply fle_true in Hr. congruence.
              ** exact (Hback _ _ eq_refl Hin Hm Hk).
        -- injection H as <-. split.
           ++ intros [<- | Hq]; [| exact (Hskip _ eq_refl Hq)].
              exists p. split; [left; reflexivity |]. split; [exact Em |].
              exists d. split; [exact Ed |]. split; [reflexivity | exact I].
           ++ intros (p0 & [Heq | Hin] & Hm & Hk).
              ** subst p0. destruct Hk as (d' & Hd' & -> & _).
                 rewrite (Hhead _ Hd'). left. reflexivity.
              ** right. exact (Hback _ _ eq_refl Hin Hm Hk).
      * destruct (text_loop F query_lower None radius_meters pois)
          as [results |] eqn:Et; [| discriminate].
        injection H as <-. split.
        -- intros [<- | Hq]; [| exact (Hskip _ eq_refl Hq)].
           exists p. split; [left; reflexivity |]. split; [exact Em |].
           reflexivity.
        -- intros (p0 & [Heq | Hin] & Hm & Hk).
           ++ subst p0. left. symmetry. exact Hk.
           ++ right. exact (Hback _ _ eq_refl Hin Hm Hk).
    + split; [exact (Hskip _ H) |].
      intros (p0 & [Heq | Hin] & Hm & Hk); [congruence |].
      exact (Hback _ _ H Hin Hm Hk).
Qed.

Lemma text_loop_length (F : Float64) (query_lower : string)
    (location : option (R * R)) (radius_meters : option R)
    (pois l : list POIResult) :
  text_loop F query_lower location radius_meters pois = Returned l ->
  (List.length l <= List.length pois)%nat.
Proof.
  revert l. induction pois as [| p pois IH]; intros l H.
  - injection H as <-. simpl. lia.
  - cbn [text_loop] in H.
    destruct (matches_query query_lower p).
    + destruct location as [[lat lon] |].
      * destruct (_calculate_distance F lat lon (latitude p) (longitude p));
          [| discriminate].
        destruct (text_loop F query_lower (Some (lat, lon)) radius_meters pois)
          as [results |]; [| discriminate].
        specialize (IH _ eq_refl).
        destruct radius_meters as [radius |];
          [destruct (fle a radius) |]; injection H as <-; simpl; lia.
      * destruct (text_loop F query_lower None radius_meters pois)
          as [results |]; [| discriminate].
        specialize (IH _ eq_refl). injection H as <-. simpl. lia.
    + specialize (IH _ H). simpl. lia.
Qed.

(** Without a location no distance is computed, and the loop returns. *)
Lemma text_loop_no_location (F : Float64) (query_lower : string)
    (radius_meters : option R) (pois : list POIResult) :
  exists l, text_loop F query_lower None radius_meters pois = Returned l.
Proof.
  induction pois as [| p pois [l IH]]; [exists []; reflexivity |].
  cbn [text_loop]. rewrite IH.
  destruct (matches_query query_lower p); eexists; reflexivity.
Qed.

Lemma sort_by_reverse_In {A : Type} (k : A -> key) (l : list A) (x : A) :
  In x (sort_by_reverse k l) <-> In x l.
Proof.
  unfold sort_by_reverse. rewrite <- in_rev, sort_by_In, <- in_rev. tauto.
Qed.

Lemma sort_by_reverse_length {A : Type} (k : A -> key) (l : list A) :
  List.length (sort_by_reverse k l) = List.length l.
Proof.
  unfold sort_by_reverse. rewrite length_rev, sort_by_length, length_rev.
  reflexivity.
Qed.

Lemma search_text_returned (F : Float64) (self self' : POIServer)
    (query : string) (lat lon radius_meters : option R) (limit : Z)
    (l : list POIResult) :
  search_text F query lat lon radius_meters limit self = (Returned l, self') ->
  self' = self
  /\ exists found,
       text_loop F (lower query) (location_of lat lon) radius_meters
         (_mock_pois self) = Returned found
       /\ l = slice_to limit
                (match location_of lat lon with
                 | Some _ => sort_by sort_key found
                 | None => sort_by_reverse rating_key found
                 end).
Proof.
  unfold search_text.
  destruct (text_loop F (lower query) (location_of lat lon) radius_meters
              (_mock_pois self)) as [found |]; [| discriminate].
  intros H. injection H as <- <-. split; [reflexivity |].
  exists found. split; reflexivity.
Qed.

Lemma search_text_no_location (F : Float64) (self : POIServer)
    (query : string) (lat lon radius_meters : option R) (limit : Z) :
  location_of lat lon = None ->
  exists found,
    text_loop F (lower query) None radius_meters (_mock_pois self)
    = Returned found
    /\ search_text F query lat lon radius_meters limit self
       = (Returned (slice_to limit (sort_by_reverse rating_key found)), self).
Proof.
  intros Hloc.
  destruct (text_loop_no_location F (lower query) radius_meters
              (_mock_pois self)) as [found Hf].
  exists found. split; [exact Hf |].
  unfold search_text. rewrite Hloc, Hf. reflexivity.
Qed.

Lemma sorted_text_In (F : Float64) (pois found : list POIResult)
    (query_lower : string) (location : option (R * R))
    (radius_meters : option R) (q : POIResult) :
  text_loop F query_lower location radius_meters pois = Returned found ->
  (In q (match location with
         | Some _ => sort_by sort_key found
         | None => sort_by_reverse rating_key found
         end)
   <-> exists p, In p pois
                 /\ matches_query query_lower p = true
                 /\ kept_as F location radius_meters p q).
Proof.
  intros Hf. rewrite <- (@text_loop_In _ _ _ _ _ _ q Hf).
  destruct location; [apply sort_by_In | apply sort_by_reverse_In].
Qed.

(** X12. Every record of a list that [search_text] returns is a record
    of the database whose name, category or description contains the
    query, letter case apart.  When latitude and longitude are both
    given it carries its distance from that point, which is within the
    radius when a radius is given; when one of them is missing the
    record is returned as it is in the database and the radius plays no
    part. *)
Theorem search_text_sound (F : Float64) (self self' : POIServer)
    (query : string) (lat lon radius_meters : option R) (limit : Z)
    (l : list POIResult) :
  search_text F query lat lon radius_meters limit self = (Returned l, self') ->
  forall q,
    In q l ->
    exists p, In p (_mock_pois self)
              /\ matches_query (lower query) p = true
              /\ kept_as F (location_of lat lon) radius_meters p q.
Proof.
  intros H q Hq. apply search_text_returned in H.
  destruct H as (_ & found & Hf & ->).
  apply slice_to_incl in Hq.
  exact (proj1 (@sorted_text_In _ _ _ _ _ _ q Hf) Hq).
Qed.

Lemma search_text_sound_witness :
  exists l,
    search_text exact "PIZZA" None None (Some 1) 10 (__init__ "")
    = (Returned l, __init__ "")
    /\ forall q, In q l -> exists p, In p _initialize_mock_pois /\ q = p.
Proof.
  destruct (@search_text_no_location exact (__init__ "") "PIZZA" None None
              (Some 1) 10 eq_refl) as (found & _ & Hrun).
  eexists. split; [exact Hrun |].
  intros q Hq.
  destruct (@search_text_sound _ _ _ _ _ _ _ _ _ Hrun q Hq) as (p & Hp & _ & Hk).
  exists p. split; [exact Hp | exact Hk].
Defined.

Lemma contains_empty (haystack : string) : contains "" haystack = true.
Proof. destruct haystack; reflexivity. Qed.

(** X13. With a limit that is at least the size of the database, a list
    that [search_text] returns leaves no match out: every record that
    contains the query (and lies within the radius, when a location and
    a radius are given) is in it.  The empty query is contained in every
    name, so without a location the list is the whole database. *)
Theorem search_text_complete (F : Float64) (self self' : POIServer)
    (query : string) (lat lon radius_meters : option R) (limit : Z)
    (l : list POIResult) :
  (Z.of_nat (List.length (_mock_pois self)) <= limit)%Z ->
  search_text F query lat lon radius_meters limit self = (Returned l, self') ->
  (forall p q,
      In p (_mock_pois self) ->
      matches_query (lower query) p = true ->
      kept_as F (location_of lat lon) radius_meters p q ->
      In q l)
  /\ (query = ""%string -> location_of lat lon = None ->
      forall p, In p (_mock_pois self) -> In p l).
Proof.
  intros Hl H. apply search_text_returned in H.
  destruct H as (_ & found & Hf & ->).
  assert (Hall : forall q,
             (exists p, In p (_mock_pois self)
                        /\ matches_query (lower query) p = true
                        /\ kept_as F (location_of lat lon) radius_meters p q) ->
             In q (slice_to limit
                     (match location_of lat lon with
                      | Some _ => sort_by sort_key found
                      | None => sort_by_reverse rating_key found
                      end))).
  { intros q Hq. rewrite slice_to_all;
      [exact (proj2 (@sorted_text_In _ _ _ _ _ _ q Hf) Hq) |].
    pose proof (@text_loop_length _ _ _ _ _ _ Hf) as Hlen.
    destruct (location_of lat lon);
      [rewrite sort_by_length | rewrite sort_by_reverse_length]; lia. }
  split.
  - intros p q Hp Hm Hk. apply Hall. exists p. tauto.
  - intros -> Hloc p Hp. apply Hall. exists p. split; [exact Hp |].
    split.
    + unfold matches_query. simpl lower. rewrite contains_empty. reflexivity.
    + rewrite Hloc. reflexivity.
Qed.

Lemma search_text_complete_witness :
  exists l,
    search_text exact "" None None None 10 (__init__ "")
    = (Returned l, __init__ "")
    /\ In grand_central l.
Proof.
  destruct (@search_text_no_location exact (__init__ "") "" None None None 10
              eq_refl) as (found & _ & Hrun).
  eexists. split; [exact Hrun |].
  assert (Hl : (Z.of_nat (List.length (_mock_pois (__init__ ""))) <= 10)%Z)
    by (simpl; lia).
  apply (proj2 (@search_text_complete _ _ _ _ _ _ _ _ _ Hl Hrun));
    [reflexivity | reflexivity | simpl; tauto].
Defined.

(** Reversing a sorted list sorts it the other way round. *)
Lemma StronglySorted_app_one {A : Type} (R : A -> A -> Prop) (l : list A)
    (x : A) :
  StronglySorted R l -> (forall y, In y l -> R y x) ->
  StronglySorted R (l ++ [x]).
Proof.
  induction 1 as [| y l Hl IH Hy]; intros Hx; simpl.
  - constructor; constructor.
  - constructor.
    + apply IH. intros z Hz. apply Hx. right. exact Hz.
    + rewrite Forall_forall in *. intros z Hz.
      apply in_app_or in Hz. destruct Hz as [Hz | [<- | []]].
      * apply Hy, Hz.
      * apply Hx. left. reflexivity.
Qed.

Lemma StronglySorted_rev {A : Type} (R : A -> A -> Prop) (l : list A) :
  StronglySorted R l -> StronglySorted (fun x y => R y x) (rev l).
Proof.
  induction 1 as [| x l Hl IH Hx]; simpl; [constructor |].
  apply StronglySorted_app_one; [exact IH |].
  rewrite Forall_forall in Hx. intros y Hy. apply Hx, in_rev, Hy.
Qed.

(** X14. Without a location ([latitude] or [longitude] missing),
    [search_text] computes no distance and returns; it ranks by rating,
    best first, a record without a rating counting as rated 0: no record
    of the result is rated higher than one that stands before it. *)
Theorem search_text_ranked_by_rating (F : Float64) (self : POIServer)
    (query : string) (lat lon radius_meters : option R) (limit : Z) :
  location_of lat lon = None ->
  exists l,
    search_text F query lat lon radius_meters limit self = (Returned l, self)
    /\ StronglySorted (fun x y => rating_or_0 y <= rating_or_0 x) l.
Proof.
  intros Hloc.
  destruct (@search_text_no_location F self query lat lon radius_meters limit
              Hloc) as (found & _ & Hrun).
  eexists. split; [exact Hrun |].
  assert (Hs : StronglySorted (fun x y => rating_or_0 y <= rating_or_0 x)
                 (sort_by_reverse rating_key found)).
  { unfold sort_by_reverse.
    refine (StronglySorted_weaken _ _
              (StronglySorted_rev (sort_by_sorted rating_key _))).
    intros x y _ _. unfold key_ord, rating_key, rating_or_0.
    destruct (rating x), (rating y); simpl; rewrite flt_false; tauto. }
  unfold slice_to. destruct (0 <=? limit)%Z; apply firstn_sorted, Hs.
Qed.

Lemma search_text_ranked_by_rating_witness :
  exists l,
    search_text exact "park" (Some 40.7484) None (Some 10) 5 (__init__ "")
    = (Returned l, __init__ "")
    /\ StronglySorted (fun x y => rating_or_0 y <= rating_or_0 x) l.
Proof.
  apply (@search_text_ranked_by_rating exact (__init__ "") "park"
           (Some 40.7484) None (Some 10) 5).
  reflexivity.
Defined.

(** *** [get_place_details] *)

Lemma details_loop_some (place_lower : string) (pois : list POIResult)
    (p : POIResult) :
  details_loop place_lower pois = Some p ->
  In p pois /\ lower (name p) = place_lower.
Proof.
  induction pois as [| x pois IH]; simpl; [discriminate |].
  destruct (String.eqb (lower (name x)) place_lower) eqn:E.
  - intros H. injection H as <-. split; [left; reflexivity |].
    apply String.eqb_eq. exact E.
  - intros H. destruct (IH H). tauto.
Qed.

Lemma details_loop_none (place_lower : string) (pois : list POIResult) :
  details_loop place_lower pois = None <->
  forall p, In p pois -> lower (name p) <> place_lower.
Proof.
  induction pois as [| x pois IH]; simpl.
  - split; [intros _ p [] | reflexivity].
  - destruct (String.eqb (lower (name x)) place_lower) eqn:E.
    + split; [discriminate |]. intros H. apply String.eqb_eq in E.
      elim (H x (or_introl eq_refl) E).
    + apply String.eqb_neq in E. rewrite IH. split.
      * intros H p [<- | Hp]; [exact E | apply H, Hp].
      * intros H p Hp. apply H. right. exact Hp.
Qed.

(** X15. [get_place_details] compares names without regard to letter
    case: a record it returns is in the database and has the name asked
    for, case apart; it returns [None] exactly when no record has that
    name; and two spellings that differ in case only get the same
    answer. *)
Theorem get_place_details_by_name (self : POIServer) (place_name : string) :
  exists found,
    get_place_details place_name self = (Returned found, self)
    /\ (forall p, found = Some p ->
                  In p (_mock_pois self)
                  /\ lower (name p) = lower place_name)
    /\ (found = None <->
        forall p, In p (_mock_pois self) ->
                  lower (name p) <> lower place_name)
    /\ (forall other, lower other = lower place_name ->
                      get_place_details other self = (Returned found, self)).
Proof.
  unfold get_place_details. eexists. split; [reflexivity |].
  split; [intros p Hp; apply details_loop_some, Hp |].
  split; [apply details_loop_none |].
  intros other ->. reflexivity.
Qed.

Lemma get_place_details_by_name_witness :
  get_place_details "EMPIRE state Building" (__init__ "")
  = (Returned (Some empire_state_building), __init__ "").
Proof.
  destruct (get_place_details_by_name (__init__ "") "Empire State Building")
    as (found & Hrun & _ & _ & Hcase).
  rewrite (Hcase "EMPIRE state Building" eq_refl).
  rewrite <- Hrun. reflexivity.
Defined.

(** X16. Every record of the mock database can be looked up by its
    name, in any letter case: no two of its names are equal case
    apart. *)
Theorem get_place_details_finds_every_record (key place_name : string)
    (p : POIResult) :
  In p _initialize_mock_pois ->
  lower place_name = lower (name p) ->
  get_place_details place_name (__init__ key)
  = (Returned (Some p), __init__ key).
Proof.
  intros Hp Hn. unfold get_place_details. rewrite Hn. f_equal. f_equal.
  simpl in Hp.
  repeat (destruct Hp as [<- | Hp]; [reflexivity |]). contradiction.
Qed.

Lemma get_place_details_finds_every_record_witness :
  get_place_details "joe's pizza" (__init__ "")
  = (Returned (Some joes_pizza), __init__ "").
Proof.
  apply get_place_details_finds_every_record; [simpl; tauto | reflexivity].
Defined.

End POIExtFacts.

(** ** Geocoding server: accepted coordinates and batch labels *)

Module GeocodingExtFacts.

Import Py Geocoding GeocodingFacts.
Open Scope R_scope.

(** X17. [reverse_geocode] returns exactly for the coordinates of the
    globe, the bounds -90, 90, -180 and 180 included; the result then
    carries the very coordinates it was asked for, with confidence 0.8,
    and the server has its HTTP session. *)
Theorem reverse_geocode_accepts_in_range (self : GeocodingServer)
    (lat lon : R) :
  (in_range lat lon <->
   exists r self', reverse_geocode lat lon self = (Returned r, self'))
  /\ forall r self',
       reverse_geocode lat lon self = (Returned r, self') ->
       latitude r = lat /\ longitude r = lon /\ confidence r = 0.8
       /\ session self' <> None.
Proof.
  assert (Hin : in_range lat lon ->
                exists r self',
                  reverse_geocode lat lon self = (Returned r, self')
                  /\ latitude r = lat /\ longitude r = lon
                  /\ confidence r = 0.8 /\ session self' <> None).
  { intros [[H1 H2] [H3 H4]]. unfold reverse_geocode.
    apply POIFacts.fle_true in H1, H2, H3, H4.
    rewrite H1, H2, H3, H4. simpl.
    unfold bind, _get_session, ret.
    destruct (session self) eqn:E; eexists; eexists;
      (split; [reflexivity |]); simpl; repeat split; congruence. }
  assert (Hdec : in_range lat lon \/ ~ in_range lat lon).
  { unfold in_range.
    destruct (Rle_dec (-90) lat), (Rle_dec lat 90), (Rle_dec (-180) lon),
      (Rle_dec lon 180); tauto. }
  split.
  - split.
    + intros H. destruct (Hin H) as (r & self' & Hrun & _). eauto.
    + intros (r & self' & Hrun). destruct Hdec as [H | H]; [exact H |].
      destruct (reverse_geocode_out_of_range self H) as (msg & Hraise).
      rewrite Hraise in Hrun. discriminate.
  - intros r self' Hrun. destruct Hdec as [H | H].
    + destruct (Hin H) as (r' & self'' & Hrun' & Hprops).
      rewrite Hrun in Hrun'. injection Hrun' as -> ->. exact Hprops.
    + destruct (reverse_geocode_out_of_range self H) as (msg & Hraise).
      rewrite Hraise in Hrun. discriminate.
Qed.

Lemma reverse_geocode_accepts_in_range_witness :
  exists r self',
    reverse_geocode 90 (-180)
      {| api_key := ""; base_url := "https://nominatim.openstreetmap.org";
         session := None |}
    = (Returned r, self').
Proof.
  apply (proj1 (reverse_geocode_accepts_in_range
                  {| api_key := "";
                     base_url := "https://nominatim.openstreetmap.org";
                     session := None |} 90 (-180))).
  unfold in_range. lra.
Defined.

(** X18. The latitude is checked first: a latitude out of range is
    reported as such whatever the longitude is, and a longitude out of
    range is reported only when the latitude is in range.  The message
    names the offending value. *)
Theorem reverse_geocode_reports_latitude_first (self : GeocodingServer)
    (lat lon : R) :
  (~ -90 <= lat <= 90 ->
   reverse_geocode lat lon self
   = (Raised (Exn ValueError
                [Lit "Invalid latitude: "; Flt lat;
                 Lit ". Must be between -90 and 90"]), self))
  /\ (-90 <= lat <= 90 -> ~ -180 <= lon <= 180 ->
      reverse_geocode lat lon self
      = (Raised (Exn ValueError
                   [Lit "Invalid longitude: "; Flt lon;
                    Lit ". Must be between -180 and 180"]), self)).
Proof.
  unfold reverse_geocode, raise. split.
  - intros H.
    destruct (fle (-90) lat && fle lat 90) eqn:E; [| reflexivity].
    apply andb_true_iff in E. rewrite !POIFacts.fle_true in E. tauto.
  - intros [H1 H2] H. apply POIFacts.fle_true in H1, H2. rewrite H1, H2.
    simpl.
    destruct (fle (-180) lon && fle lon 180) eqn:E; [| reflexivity].
    apply andb_true_iff in E. rewrite !POIFacts.fle_true in E. tauto.
Qed.

Lemma reverse_geocode_reports_latitude_first_witness :
  reverse_geocode 91 181
    {| api_key := ""; base_url := "https://nominatim.openstreetmap.org";
       session := None |}
  = (Raised (Exn ValueError
               [Lit "Invalid latitude: "; Flt 91;
                Lit ". Must be between -90 and 90"]),
     {| api_key := ""; base_url := "https://nominatim.openstreetmap.org";
        session := None |}).
Proof.
  apply (proj1 (reverse_geocode_reports_latitude_first
                  {| api_key := "";
                     base_url := "https://nominatim.openstreetmap.org";
                     session := None |} 91 181)).
  lra.
Defined.

Lemma forward_geocode_returns (addr : string) (limit : Z)
    (self : GeocodingServer) :
  exists r,
    forward_geocode addr limit self = (Returned [r], snd (_get_session self))
    /\ address r = [Lit addr; Lit " (simulated)"]
    /\ confidence r = 0.9.
Proof.
  unfold forward_geocode, bind, _get_session, ret.
  destruct (session self); eexists; split; try reflexivity; split; reflexivity.
Qed.

Lemma geocoding_session_kept (self : GeocodingServer) :
  snd (_get_session (snd (_get_session self))) = snd (_get_session self).
Proof.
  unfold _get_session.
  destruct (session self) eqn:E; simpl; [rewrite E |]; reflexivity.
Qed.

Lemma gather_forward (addresses : list string) (self : GeocodingServer) :
  exists rs,
    gather (map (fun addr => forward_geocode addr 1%Z) addresses) self
    = (rs, match addresses with
           | [] => self
           | _ :: _ => snd (_get_session self)
           end)
    /\ map (map address) (process_results rs)
       = map (fun addr => [[Lit addr; Lit " (simulated)"]]) addresses.
Proof.
  revert self. induction addresses as [| a rest IH]; intros self.
  - exists []. split; reflexivity.
  - cbn [map gather].
    destruct (forward_geocode_returns a 1 self) as (r & Hrun & Ha & _).
    rewrite Hrun.
    destruct (IH (snd (_get_session self))) as (rs & Hg & Hm). rewrite Hg.
    exists (Returned [r] :: rs). split.
    + f_equal. destruct rest; [reflexivity | apply geocoding_session_kept].
    + cbn [process_results map] in *. rewrite Ha. f_equal. exact Hm.
Qed.

(** X19. [batch_geocode] answers every address with a list of exactly
    one result, labelled with that address followed by [ (simulated)],
    in the order of the addresses; the empty list of addresses gives the
    empty list and leaves the server as it is, any other opens the HTTP
    session. *)
Theorem batch_geocode_labels (addresses : list string)
    (self : GeocodingServer) :
  exists results self',
    batch_geocode addresses self = (Returned results, self')
    /\ map (map address) results
       = map (fun addr => [[Lit addr; Lit " (simulated)"]]) addresses
    /\ (addresses = [] -> results = [] /\ self' = self)
    /\ (addresses <> [] -> session self' <> None).
Proof.
  unfold batch_geocode, batch_geocode_with.
  destruct (gather_forward addresses self) as (rs & Hg & Hm). rewrite Hg.
  eexists. eexists. split; [reflexivity |]. split; [exact Hm |]. split.
  - intros ->. simpl in Hg. injection Hg as <-. split; reflexivity.
  - intros Hne. destruct addresses; [congruence |].
    unfold _get_session. destruct (session self) eqn:E; simpl; congruence.
Qed.

Lemma batch_geocode_labels_witness :
  exists results self',
    batch_geocode ["Times Square, NYC"; "Central Park, NYC"]%string
      {| api_key := ""; base_url := "https://nominatim.openstreetmap.org";
         session := None |}
    = (Returned results, self')
    /\ session self' <> None.
Proof.
  destruct (batch_geocode_labels ["Times Square, NYC"; "Central Park, NYC"]%string
              {| api_key := "";
                 base_url := "https://nominatim.openstreetmap.org";
                 session := None |}) as (results & self' & Hrun & _ & _ & H).
  exists results, self'. split; [exact Hrun | apply H; discriminate].
Defined.

End GeocodingExtFacts.

(** ** The map services agent *)

Module MapAgentFacts.

Import Py Text MapAgent.
Open Scope string_scope.

Lemma answer_with_calls (T : Tools) (c : call) (header : string) :
  snd (answer_with T c header) = [c]
  /\ (forall result, T (tool c) (args c) = Returned result ->
                     fst (answer_with T c header)
                     = Returned (header ++ newline ++ result))
  /\ (forall e, T (tool c) (args c) = Raised e ->
                fst (answer_with T c header) = Raised e).
Proof.
  unfold answer_with. destruct (T (tool c) (args c)); simpl.
  - split; [reflexivity |]. split; [intros r H; congruence | discriminate].
  - split; [reflexivity |]. split; [discriminate | intros r H; congruence].
Qed.

(** X20. Whatever the query and the tools, [_simulate_agent_response]
    calls at most one tool, and only one of five: it never calls
    [get_distance_matrix] or [get_place_info], although both are
    registered. *)
Theorem simulate_calls_at_most_one_tool (T : Tools) (query : string) :
  snd (_simulate_agent_response T query) = []
  \/ exists c,
       snd (_simulate_agent_response T query) = [c]
       /\ In (tool c)
            [ "geocode_address"; "reverse_geocode_coordinates";
              "calculate_route_between_points"; "find_nearby_places";
              "search_places_by_text" ]
       /\ In (tool c) tools
       /\ tool c <> "get_distance_matrix"
       /\ tool c <> "get_place_info".
Proof.
  unfold _simulate_agent_response.
  repeat match goal with
         | |- context [if ?b then _ else _] => destruct b
         end;
    try (left; reflexivity);
    right; eexists; (split; [apply answer_with_calls |]);
    simpl; repeat split; try tauto; discriminate.
Qed.


Lemma no_call_no_keyword (T : Tools) (query : string) :
  snd (_simulate_agent_response T query) = [] ->
  forall w, In w keywords -> contains w (lower query) = false.
Proof.
  unfold _simulate_agent_response, any_in. cbn [existsb].
  set (ql := lower query).
  destruct (contains "geocode" ql || contains "coordinates" ql
            || contains "address" ql) eqn:E1.
  { destruct (contains "40." ql || (contains "41." ql || (contains "-73" ql
              || (contains "-74" ql || false))));
      intros H; rewrite (proj1 (answer_with_calls _ _ _)) in H; discriminate. }
  destruct (contains "route" ql || contains "direction" ql
            || contains "distance" ql) eqn:E2.
  { intros H; rewrite (proj1 (answer_with_calls _ _ _)) in H; discriminate. }
  destruct (contains "find" ql || (contains "nearby" ql
            || (contains "restaurant" ql || (contains "cafe" ql
            || (contains "hotel" ql || (contains "museum" ql || false))))))
    eqn:E3.
  { intros H; rewrite (proj1 (answer_with_calls _ _ _)) in H; discriminate. }
  destruct (contains "search" ql || contains "place" ql) eqn:E4.
  { intros H; rewrite (proj1 (answer_with_calls _ _ _)) in H; discriminate. }
  intros _ w Hw.
  repeat match goal with
         | H : (_ || _) = false |- _ => apply orb_false_elim in H; destruct H
         end.
  simpl in Hw.
  repeat (destruct Hw as [<- | Hw]; [assumption |]). contradiction.
Qed.

(** X21. [_simulate_agent_response] answers with the help text, without
    calling a tool, exactly when the query, in lower case, contains none
    of the fourteen key words; the words coffee and park, which the
    choice of the category looks for, are not among them. *)
Theorem simulate_help_iff_no_keyword (T : Tools) (query : string) :
  (forall w, In w keywords -> contains w (lower query) = false)
  <-> _simulate_agent_response T query = (Returned help_text, []).
Proof.
  split.
  - intros H. unfold _simulate_agent_response, any_in. cbn [existsb].
    rewrite (H "geocode"), (H "coordinates"), (H "address"), (H "route"),
      (H "direction"), (H "distance"), (H "find"), (H "nearby"),
      (H "restaurant"), (H "cafe"), (H "hotel"), (H "museum"), (H "search"),
      (H "place") by (simpl; tauto).
    reflexivity.
  - intros H. apply (no_call_no_keyword T). rewrite H. reflexivity.
Qed.

Lemma simulate_help_iff_no_keyword_witness :
  _simulate_agent_response (fun _ _ => Returned "") "Tell me about Central Park"
  = (Returned help_text, []).
Proof.
  apply (proj1 (simulate_help_iff_no_keyword (fun _ _ => Returned "")
                  "Tell me about Central Park")).
  intros w Hw. simpl in Hw.
  repeat (destruct Hw as [<- | Hw]; [vm_compute; reflexivity |]).
  contradiction.
Defined.

(** X22. When a tool is called its result is passed on: the answer is
    one of five fixed headers, a newline, and the text the tool returned,
    unchanged; an exception the tool raises is not caught. *)
Theorem simulate_relays_tool (T : Tools) (query : string) (c : call) :
  snd (_simulate_agent_response T query) = [c] ->
  (forall result,
      T (tool c) (args c) = Returned result ->
      exists header,
        fst (_simulate_agent_response T query)
        = Returned (header ++ newline ++ result)
        /\ In header
             [ "Based on those coordinates, here's what I found:";
               "Here are the coordinates I found:";
               "Here's the route information:";
               "Here are nearby places I found:";
               "Here's what I found:" ])
  /\ (forall e,
         T (tool c) (args c) = Raised e ->
         fst (_simulate_agent_response T query) = Raised e).
Proof.
  unfold _simulate_agent_response.
  repeat match goal with
         | |- context [if ?b then _ else _] => destruct b
         end;
    try discriminate;
    intros H; rewrite (proj1 (answer_with_calls _ _ _)) in H;
    injection H as <-;
    (split;
     [ intros result Hr; eexists;
       split; [apply answer_with_calls; exact Hr | simpl; tauto]
     | intros e He; apply answer_with_calls; exact He ]).
Qed.

Lemma simulate_relays_tool_witness :
  fst (_simulate_agent_response
         (fun _ _ => Raised (Exn ValueError "Invalid latitude"))
         "route to the park")
  = Raised (Exn ValueError "Invalid latitude").
Proof.
  apply (proj2 (@simulate_relays_tool
                  (fun _ _ => Raised (Exn ValueError "Invalid latitude"))
                  "route to the park"
                  (Call "calculate_route_between_points"
                     [AFloat 40.7484%R; AFloat (-73.9857)%R;
                      AFloat 40.7829%R; AFloat (-73.9654)%R; AStr "driving"])
                  eq_refl)).
  reflexivity.
Defined.

(** X23. The places a query names are not used: geocoding is always
    asked for the Empire State Building, reverse geocoding for its
    coordinates, and the route always runs from there to Central Park by
    car; the place searches are always centred there. *)
Theorem simulate_fixed_arguments (T : Tools) (query : string) (c : call) :
  snd (_simulate_agent_response T query) = [c] ->
  (tool c = "geocode_address" ->
   args c = [AStr "Empire State Building"; AInt 1])
  /\ (tool c = "reverse_geocode_coordinates" ->
      args c = [AFloat 40.7484%R; AFloat (-73.9857)%R])
  /\ (tool c = "calculate_route_between_points" ->
      args c = [AFloat 40.7484%R; AFloat (-73.9857)%R;
                AFloat 40.7829%R; AFloat (-73.9654)%R; AStr "driving"])
  /\ (tool c = "find_nearby_places" ->
      exists category,
        args c = [AFloat 40.7484%R; AFloat (-73.9857)%R; category;
                  AInt 2000; AInt 5])
  /\ (tool c = "search_places_by_text" ->
      args c = [AStr query; AFloat 40.7484%R; AFloat (-73.9857)%R; AInt 5]).
Proof.
  unfold _simulate_agent_response.
  repeat match goal with
         | |- context [if ?b then _ else _] => destruct b
         end;
    try discriminate;
    intros H; rewrite (proj1 (answer_with_calls _ _ _)) in H;
    injection H as <-; cbn [tool args];
    repeat split; intros E; try discriminate E; try reflexivity;
    eexists; reflexivity.
Qed.

Lemma simulate_fixed_arguments_witness :
  exists c,
    snd (_simulate_agent_response (fun _ _ => Returned "")
           "What is the address of the Louvre?")
    = [c]
    /\ args c = [AStr "Empire State Building"; AInt 1].
Proof.
  exists (Call "geocode_address" [AStr "Empire State Building"; AInt 1]).
  split; [reflexivity |].
  apply (proj1 (@simulate_fixed_arguments (fun _ _ => Returned "")
                  "What is the address of the Louvre?" _ eq_refl)).
  reflexivity.
Defined.

End MapAgentFacts.

(** ** The weather agent: calls, answers and sessions *)

Module AgentExtFacts.

Import Py Text Json Agent AgentFacts.
Open Scope string_scope.

(** *** The calls of a query cycle *)

(** X24. Whatever the model and the tools answer, a query cycle makes
    one, two or three calls: the completion that selects the tool, with
    the system prompt and the query at temperature 0.3; then at most one
    tool call, always of a tool of the registry; then at most one
    completion, at temperature 0.7, that formats what the tool
    returned. *)
Theorem process_query_calls (P : Platform) (q : string) :
  snd (process_query P q) = [LLMCall (selection_messages q) (3 # 10)]
  \/ exists name parameters,
       In name tool_functions
       /\ (snd (process_query P q)
           = [LLMCall (selection_messages q) (3 # 10);
              ToolCall name parameters]
           \/ exists result,
                call_tool P name parameters = Returned result
                /\ snd (process_query P q)
                   = [LLMCall (selection_messages q) (3 # 10);
                      ToolCall name parameters;
                      LLMCall (format_messages q name result) (7 # 10)]).
Proof.
  unfold process_query.
  destruct (completions_create P (selection_messages q) (3 # 10));
    [| left; reflexivity].
  destruct (parse_tool_call (json_loads P) a) as [tool_call |];
    [| left; reflexivity].
  destruct (get tool_call "tool" JNull) as [tool_name |];
    [| left; reflexivity].
  destruct (get tool_call "parameters" (JObj [])) as [parameters |];
    [| left; reflexivity].
  destruct (not_in_tool_functions tool_name) as [[|] |] eqn:En;
    try (left; destruct tool_name; reflexivity).
  destruct tool_name as [| | | | name | |]; try (left; reflexivity).
  right. exists name, parameters. split.
  - apply in_tool_functions. cbn [not_in_tool_functions] in En.
    injection En as En. apply negb_false_iff. exact En.
  - destruct (call_tool P name parameters) as [result |] eqn:Ec;
      [| left; reflexivity].
    right. exists result. split; [reflexivity |].
    destruct (completions_create P (format_messages q name result) (7 # 10));
      reflexivity.
Qed.

Lemma contains_prefix (needle rest : string) :
  contains needle (needle ++ rest) = true.
Proof.
  assert (H : strip_prefix needle (needle ++ rest) = Some rest).
  { induction needle as [| c needle IH]; simpl; [reflexivity |].
    rewrite Ascii.eqb_refl. exact IH. }
  destruct needle; simpl in *; [destruct rest; reflexivity |].
  rewrite H. reflexivity.
Qed.

Lemma contains_skip (needle before rest : string) :
  contains needle rest = true -> contains needle (before ++ rest) = true.
Proof.
  intros H. induction before as [| c before IH]; [exact H |].
  simpl append. cbn [contains]. rewrite IH.
  destruct (strip_prefix needle (String c (before ++ rest))); reflexivity.
Qed.

(** X25. When the tool returns and the second completion succeeds, the
    answer of the cycle is the text of that completion, and the prompt
    it was asked with contains the query of the user, the name of the
    tool and the text the tool returned, each unchanged. *)
Theorem process_query_formats_result (P : Platform) (q s : string) (d : dict)
    (name : string) (parameters : json) (result text : string) :
  completions_create P (selection_messages q) (3 # 10) = Returned s ->
  parse_tool_call (json_loads P) s = Returned (JObj d) ->
  dict_get "tool" d = Some (JStr name) ->
  In name tool_functions ->
  parameters = match dict_get "parameters" d with
               | Some v => v
               | None => JObj []
               end ->
  call_tool P name parameters = Returned result ->
  completions_create P (format_messages q name result) (7 # 10)
  = Returned text ->
  process_query P q
  = (text,
     [ LLMCall (selection_messages q) (3 # 10);
       ToolCall name parameters;
       LLMCall (format_messages q name result) (7 # 10) ])
  /\ exists system_prompt prompt,
       format_messages q name result
       = [ {| role := "system"; content := system_prompt |};
           {| role := "user"; content := prompt |} ]
       /\ contains q prompt = true
       /\ contains name prompt = true
       /\ contains result prompt = true.
Proof.
  intros Hc Hp Ht Hin -> Hr Hf. split.
  - unfold process_query. rewrite Hc, Hp. cbn [get]. rewrite Ht.
    apply in_tool_functions in Hin.
    destruct (dict_get "parameters" d); cbn [not_in_tool_functions];
      rewrite Hin; cbn [negb]; rewrite Hr, Hf; reflexivity.
  - unfold format_messages. eexists. eexists. split; [reflexivity |].
    split; [| split].
    + apply contains_skip, contains_prefix.
    + do 5 apply contains_skip. apply contains_prefix.
    + do 8 apply contains_skip. apply contains_prefix.
Qed.

Lemma process_query_formats_result_witness :
  process_query
    (scripted
       (lit "{`tool`: `get_air_quality`, `parameters`: {`location`: `Beijing`}}")
       "The air in Beijing is moderate."
       (Returned "AQI 3 (Moderate)"))
    "Air quality in Beijing"
  = ("The air in Beijing is moderate.",
     [ LLMCall (selection_messages "Air quality in Beijing") (3 # 10);
       ToolCall "get_air_quality" (JObj [("location", JStr "Beijing")]);
       LLMCall (format_messages "Air quality in Beijing" "get_air_quality"
                  "AQI 3 (Moderate)") (7 # 10) ]).
Proof.
  apply (proj1
           (@process_query_formats_result
              (scripted
                 (lit "{`tool`: `get_air_quality`, `parameters`: {`location`: `Beijing`}}")
                 "The air in Beijing is moderate."
                 (Returned "AQI 3 (Moderate)"))
              "Air quality in Beijing"
              (lit "{`tool`: `get_air_quality`, `parameters`: {`location`: `Beijing`}}")
              [ ("tool", JStr "get_air_quality");
                ("parameters", JObj [("location", JStr "Beijing")]) ]
              "get_air_quality"
              (JObj [("location", JStr "Beijing")])
              "AQI 3 (Moderate)"
              "The air in Beijing is moderate."
              eq_refl eq_refl eq_refl
              (or_intror (or_intror (or_intror (or_introl eq_refl))))
              eq_refl eq_refl eq_refl)).
Defined.

(** *** Decisions of the wrong shape *)

(** X26. A decision that parses to a JSON value other than an object (a
    number, a text, a list, [true], [null]) is no parse failure: the
    lookup of the tool raises [AttributeError], and the cycle answers
    [Sorry, I encountered an error:] with the message of that exception,
    which names the Python type of the value, after the one completion
    and without a tool call. *)
Theorem process_query_non_object_decision (P : Platform) (q s : string)
    (v : json) :
  completions_create P (selection_messages q) (3 # 10) = Returned s ->
  parse_tool_call (json_loads P) s = Returned v ->
  (forall d, v <> JObj d) ->
  process_query P q
  = ("Sorry, I encountered an error: '" ++ type_name v
       ++ "' object has no attribute 'get'",
     [LLMCall (selection_messages q) (3 # 10)]).
Proof.
  intros Hc Hp Hv. unfold process_query. rewrite Hc, Hp.
  destruct v; try reflexivity. exfalso. exact (Hv _ eq_refl).
Qed.

Lemma process_query_non_object_decision_witness :
  process_query (scripted "[1, 2]" "" (Returned "")) "Weather in Oslo?"
  = ("Sorry, I encountered an error: 'list' object has no attribute 'get'",
     [LLMCall (selection_messages "Weather in Oslo?") (3 # 10)]).
Proof.
  apply (@process_query_non_object_decision
           (scripted "[1, 2]" "" (Returned "")) "Weather in Oslo?" "[1, 2]"
           (JArr [JInt 1; JInt 2]) eq_refl eq_refl).
  intros d H. discriminate H.
Defined.

(** X27. A decision whose ["tool"] is a list or an object cannot be
    looked up in the registry: the membership test raises [TypeError],
    and the cycle answers [Sorry, I encountered an error: unhashable
    type:] with the Python type of the value, after the one completion
    and without a tool call. *)
Theorem process_query_unhashable_tool (P : Platform) (q s : string)
    (d : dict) (v : json) :
  completions_create P (selection_messages q) (3 # 10) = Returned s ->
  parse_tool_call (json_loads P) s = Returned (JObj d) ->
  dict_get "tool" d = Some v ->
  (exists l, v = JArr l) \/ (exists o, v = JObj o) ->
  process_query P q
  = ("Sorry, I encountered an error: unhashable type: '" ++ type_name v ++ "'",
     [LLMCall (selection_messages q) (3 # 10)]).
Proof.
  intros Hc Hp Ht Hv. unfold process_query. rewrite Hc, Hp. cbn [get].
  rewrite Ht.
  destruct Hv as [[l ->] | [o ->]];
    destruct (dict_get "parameters" d); reflexivity.
Qed.

Lemma process_query_unhashable_tool_witness :
  process_query
    (scripted (lit "{`tool`: [`get_forecast`]}") "" (Returned ""))
    "Forecast for Rome"
  = ("Sorry, I encountered an error: unhashable type: 'list'",
     [LLMCall (selection_messages "Forecast for Rome") (3 # 10)]).
Proof.
  apply (@process_query_unhashable_tool
           (scripted (lit "{`tool`: [`get_forecast`]}") "" (Returned ""))
           "Forecast for Rome" (lit "{`tool`: [`get_forecast`]}")
           [("tool", JArr [JStr "get_forecast"])]
           (JArr [JStr "get_forecast"]) eq_refl eq_refl eq_refl).
  left. exists [JStr "get_forecast"]. reflexivity.
Defined.

(** *** The interactive session *)

Lemma process_query_calls_length (P : Platform) (q : string) :
  (1 <= List.length (snd (process_query P q)) <= 3)%nat.
Proof.
  unfold process_query.
  destruct (completions_create P (selection_messages q) (3 # 10));
    [| simpl; lia].
  destruct (parse_tool_call (json_loads P) a) as [tool_call |];
    [| simpl; lia].
  destruct (get tool_call "tool" JNull) as [tool_name |]; [| simpl; lia].
  destruct (get tool_call "parameters" (JObj [])) as [parameters |];
    [| simpl; lia].
  destruct (not_in_tool_functions tool_name) as [[|] |];
    try (destruct tool_name; simpl; lia).
  destruct tool_name as [| | | | name | |]; try (simpl; lia).
  destruct (call_tool P name parameters) as [result |]; [| simpl; lia].
  destruct (completions_create P (format_messages q name result) (7 # 10));
    simpl; lia.
Qed.

(** X28. The session keeps nothing between two inputs.  On inputs
    followed by more inputs: when the loop has been left on the first
    inputs (an exit word or an interrupt), the later ones are not read,
    and nothing more is printed or called; otherwise the session goes on
    with the later inputs exactly as a session that starts with them,
    its lines and calls following those of the first inputs. *)
Theorem interactive_session_app (P : Platform) (inputs more : list input_event) :
  interactive_session P (inputs ++ more)
  = match interactive_session P inputs with
    | (printed, calls, Ended) => (printed, calls, Ended)
    | (printed, calls, Waiting) =>
        let '(printed', calls', st) := interactive_session P more in
        ((printed ++ printed')%list, (calls ++ calls')%list, st)
    end.
Proof.
  induction inputs as [| i inputs IH].
  - simpl. destruct (interactive_session P more) as [[p c] st]. reflexivity.
  - destruct i as [l |]; [| reflexivity].
    rewrite <- app_comm_cons. cbn [interactive_session].
    destruct (is_exit (strip l)); [reflexivity |].
    destruct (String.eqb (strip l) ""); [exact IH |].
    destruct (process_query P (strip l)) as [response calls].
    rewrite IH.
    destruct (interactive_session P inputs) as [[p1 c1] [|]].
    + destruct (interactive_session P more) as [[p2 c2] st].
      rewrite app_assoc. reflexivity.
    + reflexivity.
Qed.

(** X29. A session makes at most three calls for each line it reads, and
    none for an interrupt: the number of completions and tool calls of a
    session is at most three times the number of its lines. *)
Theorem interactive_session_call_budget (P : Platform)
    (inputs : list input_event) :
  (List.length (snd (fst (interactive_session P inputs)))
   <= 3 * List.length
            (filter (fun i => match i with Line _ => true | Interrupt => false end)
               inputs))%nat.
Proof.
  induction inputs as [| i inputs IH]; [simpl; lia |].
  destruct i as [l |]; [| simpl; lia].
  cbn [interactive_session filter].
  destruct (is_exit (strip l)); [simpl; lia |].
  destruct (String.eqb (strip l) ""); [simpl List.length; lia |].
  pose proof (process_query_calls_length P (strip l)) as Hq.
  destruct (process_query P (strip l)) as [response calls].
  destruct (interactive_session P inputs) as [[p c] st].
  cbn [fst snd] in *. rewrite length_app. simpl List.length. lia.
Qed.

End AgentExtFacts.

